(** * The image request interpreter of the image handler

  A shallow embedding of [source/image-handler/image-request.js]: the
  class [ImageRequest], which turns a proxied HTTP event into a request
  descriptor (bucket, key, edits, output format, response metadata).

  Conventions of the embedding.
  - A JavaScript string is the Rocq [string] of its UTF-8 bytes.  The
    separators the code splits on are ASCII, so splitting, joining,
    comparing and searching agree with the UTF-16 operations.
  - A [throw] is the [Throw] branch of the [result] monad; a rejected
    promise of an [async] method is that same branch.
  - The builtins that the code calls but does not define (regular
    expressions, [Buffer], [JSON.parse], [Date], number printing) are the
    fields of the class [Runtime]; the storage client is a function. *)

From Stdlib Require Import ZArith List String Ascii Bool Lia.
From Stdlib Require Import DecimalString DecimalPos DecimalFacts.
From Stdlib Require Import Init.Byte.
From stdpp Require Import base option list strings gmap pretty.

Local Open Scope string_scope.
Local Open Scope list_scope.

(** ** Strings and arrays of strings *)

Module JsString.

(** [s.split(sep)] for a one-character separator.  The result is never
    empty: [''.split('/')] is [['']]. *)
Fixpoint split (sep : ascii) (s : string) : list string :=
  match s with
  | EmptyString => [EmptyString]
  | String c s' =>
      if Ascii.eqb c sep then EmptyString :: split sep s'
      else match split sep s' with
           | seg :: segs => String c seg :: segs
           | [] => [String c EmptyString]
           end
  end.

(** [a.join(sep)] on an array of strings. *)
Fixpoint join (sep : string) (a : list string) : string :=
  match a with
  | [] => ""
  | [x] => x
  | x :: a' => x +:+ sep +:+ join sep a'
  end.

(** [a[0]] on an array that [split] produced (see [split_nonempty]). *)
Definition first (a : list string) : string := hd "" a.

(** [a.slice(1)]. *)
Definition slice1 (a : list string) : list string := tl a.

(** [a.includes(x)] on an array of strings. *)
Definition includes (x : string) (a : list string) : bool :=
  existsb (String.eqb x) a.

(** [s.includes(sub)]. *)
Fixpoint str_includes (sub s : string) : bool :=
  String.prefix sub s
  || match s with
     | EmptyString => false
     | String _ s' => str_includes sub s'
     end.

(** The white space of the class [\s], as UTF-8: the six ASCII
    characters, U+00A0, U+1680, U+2000 to U+200A, U+2028, U+2029, U+202F,
    U+205F, U+3000 and U+FEFF. *)
Definition space1 (c : ascii) : bool :=
  let n := nat_of_ascii c in (Nat.leb 9 n && Nat.leb n 13) || Nat.eqb n 32.

Definition space2 (c1 c2 : ascii) : bool :=
  Nat.eqb (nat_of_ascii c1) 194 && Nat.eqb (nat_of_ascii c2) 160.

Definition space3 (c1 c2 c3 : ascii) : bool :=
  let a := nat_of_ascii c1 in
  let b := nat_of_ascii c2 in
  let c := nat_of_ascii c3 in
  (Nat.eqb a 225 && Nat.eqb b 154 && Nat.eqb c 128)
  || (Nat.eqb a 226 && Nat.eqb b 128
      && ((Nat.leb 128 c && Nat.leb c 138) || Nat.eqb c 168
          || Nat.eqb c 169 || Nat.eqb c 175))
  || (Nat.eqb a 226 && Nat.eqb b 129 && Nat.eqb c 159)
  || (Nat.eqb a 227 && Nat.eqb b 128 && Nat.eqb c 128)
  || (Nat.eqb a 239 && Nat.eqb b 187 && Nat.eqb c 191).

(** [s.replace(/\s+/g, '')]: every white space character is removed. *)
Fixpoint remove_whitespace (s : string) : string :=
  match s with
  | EmptyString => EmptyString
  | String c1 t1 =>
      if space1 c1 then remove_whitespace t1
      else
        match t1 with
        | EmptyString => String c1 EmptyString
        | String c2 t2 =>
            if space2 c1 c2 then remove_whitespace t2
            else
              match t2 with
              | EmptyString => String c1 (remove_whitespace t1)
              | String c3 t3 =>
                  if space3 c1 c2 c3 then remove_whitespace t3
                  else String c1 (remove_whitespace t1)
              end
        end
  end.

(** [s.slice(0, i) + s.slice(i + n)]: the text without the [n]
    characters at position [i]. *)
Definition cut (i n : nat) (s : string) : string :=
  String.substring 0 i s
  +:+ String.substring (i + n) (String.length s - (i + n)) s.

(** The text before the first [c], and the text after it (empty when
    there is no [c]). *)
Fixpoint before (c : ascii) (s : string) : string :=
  match s with
  | EmptyString => EmptyString
  | String x s' => if Ascii.eqb x c then EmptyString else String x (before c s')
  end.

Fixpoint after (c : ascii) (s : string) : string :=
  match s with
  | EmptyString => EmptyString
  | String x s' => if Ascii.eqb x c then s' else after c s'
  end.

(** The text a template literal prints for a string that may be
    [undefined]. *)
Definition template (s : option string) : string :=
  match s with
  | Some s => s
  | None => "undefined"
  end.

End JsString.

(** ** Values *)

Section Values.

(** [num] is the type of JavaScript numbers. *)
Context {num : Type}.

#[warnings="-register-all"]
Inductive value : Type :=
| JUndefined
| JNull
| JBool (b : bool)
| JNum (n : num)
| JStr (s : string)
| JArr (items : list value)
| JObj (props : list (string * value)).

End Values.

Arguments value : clear implicits.

(** ** The runtime

    The builtins of the platform that the class calls.  [RegExp_new]
    answers [None] when the pattern is refused with a [SyntaxError];
    [RegExp_exec] gives the position and the length of the leftmost match;
    [JSON_parse] answers [None] when the text is refused. *)

Class Runtime (num : Type) := {
  Number_truthy : num -> bool;
  Number_toString : num -> string;
  regexp : Type;
  RegExp_new : string -> option regexp;
  RegExp_exec : regexp -> string -> option (nat * nat);
  Buffer_from_base64 : string -> list byte;
  Buffer_toString : list byte -> string;
  JSON_parse : string -> option (value num);
  date : Type;
  Date_toUTCString : date -> string;
}.

(** ** Errors *)

Section Errors.

Context {num : Type}.

(** What a method throws: an object literal [{status, code, message}], or
    an error object of the platform ([SyntaxError], [TypeError]). *)
Inductive exn : Type :=
| ErrorObject (status : Z) (code message : value num)
| NativeError (name : string).

Inductive result (A : Type) : Type :=
| Ok (a : A)
| Throw (e : exn).

Definition bind {A B : Type} (r : result A) (k : A -> result B) : result B :=
  match r with
  | Ok _ a => k a
  | Throw _ e => Throw B e
  end.

End Errors.

Arguments exn : clear implicits.
Arguments result : clear implicits.
Arguments Ok {num A} a.
Arguments Throw {num A} e.

Notation "'let*' x ':=' r 'in' k" := (bind r (fun x => k))
  (at level 10, x name, r at level 100, k at level 200,
   format "'[v' 'let*'  x  :=  r  'in'  '/' k ']'").

(** ** Operations on values *)

Section ValueOps.

Context {num : Type} `{!Runtime num}.

(** Truthiness, as [if (v)] and [v && ...] test it. *)
Definition ToBoolean (v : value num) : bool :=
  match v with
  | JUndefined | JNull => false
  | JBool b => b
  | JNum n => Number_truthy n
  | JStr s => negb (String.eqb s "")
  | JArr _ | JObj _ => true
  end.

(** Truthiness of a string that may be [undefined]. *)
Definition truthy_string (s : option string) : bool :=
  match s with
  | Some s => negb (String.eqb s "")
  | None => false
  end.

(** The text a template literal prints for a value, when the conversion
    of the value does not throw (see [converts] below). *)
Fixpoint ToString (v : value num) : string :=
  match v with
  | JUndefined => "undefined"
  | JNull => "null"
  | JBool true => "true"
  | JBool false => "false"
  | JNum n => Number_toString n
  | JStr s => s
  | JArr items =>
      JsString.join ","
        (map (fun i => match i with
                       | JUndefined | JNull => ""
                       | _ => ToString i
                       end) items)
  | JObj _ => "[object Object]"
  end.

(** The conversion of a value to a text completes.  An object is
    converted by its [toString] method and then by its [valueOf] method:
    the objects here hold data, none of their own properties can be called,
    so an object with an own property [toString] has no method that
    answers a text and its conversion throws; an array is converted by
    joining the conversions of its elements, [undefined] and [null]
    apart. *)
Fixpoint converts (v : value num) : bool :=
  match v with
  | JArr items => forallb converts items
  | JObj props =>
      negb (existsb (fun kv => String.eqb (fst kv) "toString") props)
  | _ => true
  end.

(** [`${v}`]: the text of a value in a template literal, or the
    [TypeError] of a value that cannot be converted. *)
Definition template_text (v : value num) : result num string :=
  if converts v then Ok (ToString v) else Throw (NativeError "TypeError").

(** [v == null]. *)
Definition is_nullish (v : value num) : bool :=
  match v with
  | JUndefined | JNull => true
  | _ => false
  end.

(** [v === s] and [a.includes(v)] for strings [s] and an array [a] of
    strings: only a string value can be equal to a string. *)
Definition strict_eq_string (v : value num) (s : string) : bool :=
  match v with
  | JStr s' => String.eqb s' s
  | _ => false
  end.

Definition includes_value (v : value num) (a : list string) : bool :=
  existsb (strict_eq_string v) a.

(** Own properties of an object, in creation order. *)
Fixpoint lookup_prop (k : string) (props : list (string * value num))
  : option (value num) :=
  match props with
  | [] => None
  | (k', v) :: props' =>
      if String.eqb k' k then Some v else lookup_prop k props'
  end.

(** [o[k] = v]: an existing property keeps its place, a new one is added
    last. *)
Fixpoint set_prop (k : string) (v : value num)
  (props : list (string * value num)) : list (string * value num) :=
  match props with
  | [] => [(k, v)]
  | (k', v') :: props' =>
      if String.eqb k' k then (k, v) :: props'
      else (k', v') :: set_prop k v props'
  end.

(** [delete o[k]]. *)
Definition delete_prop (k : string) (props : list (string * value num))
  : list (string * value num) :=
  List.filter (fun kv => negb (String.eqb (fst kv) k)) props.

(** The own property [k] of a value, [undefined] when it has none. *)
Definition own (v : value num) (k : string) : value num :=
  match v with
  | JObj props =>
      match lookup_prop k props with
      | Some x => x
      | None => JUndefined
      end
  | _ => JUndefined
  end.

(** [v.k] and [v[k]] for a name [k] that no prototype defines and that is
    neither an index nor [length]: the names the class reads are
    [toFormat], [outputFormat] and keys that [Object.keys] returned.
    Reading a property of [undefined] or [null] throws. *)
Definition Get (v : value num) (k : string) : result num (value num) :=
  match v with
  | JUndefined | JNull => Throw (NativeError "TypeError")
  | _ => Ok (own v k)
  end.

End ValueOps.

(** ** [Object.keys]

    Array indices come first, in ascending order; the other keys follow in
    creation order. *)

Module Keys.

(** The index a key denotes, when it is the canonical decimal form of an
    integer below [2^32 - 1]. *)
Definition canonical (d : Decimal.uint) : bool :=
  match d with
  | Decimal.Nil => false
  | Decimal.D0 Decimal.Nil => true
  | Decimal.D0 _ => false
  | _ => true
  end.

Definition index_of_key (k : string) : option N :=
  match NilEmpty.uint_of_string k with
  | Some d =>
      if canonical d && N.ltb (N.of_uint d) 4294967295
      then Some (N.of_uint d) else None
  | None => None
  end.

Definition is_index (k : string) : bool :=
  match index_of_key k with Some _ => true | None => false end.

Definition index_value (k : string) : N :=
  match index_of_key k with Some n => n | None => 0%N end.

Fixpoint insert_index (k : string) (l : list string) : list string :=
  match l with
  | [] => [k]
  | k' :: l' =>
      if N.leb (index_value k) (index_value k') then k :: l
      else k' :: insert_index k l'
  end.

Definition sort_indices (l : list string) : list string :=
  fold_right insert_index [] l.

(** The key of position [n] of an array or of a string. *)
Definition index_key (n : nat) : string :=
  NilEmpty.string_of_uint (Nat.to_uint n).

(** The number of UTF-16 units of a text given by its UTF-8 bytes: a
    continuation byte counts for none, the lead byte of a four-byte
    sequence for two. *)
Fixpoint utf16_length (s : string) : nat :=
  match s with
  | EmptyString => 0
  | String c s' =>
      let n := nat_of_ascii c in
      (if Nat.leb 128 n && Nat.ltb n 192 then 0
       else if Nat.leb 240 n then 2 else 1) + utf16_length s'
  end.

Definition ordered (ks : list string) : list string :=
  sort_indices (List.filter is_index ks) ++ List.filter (fun k => negb (is_index k)) ks.

End Keys.

Section ObjectKeys.

Context {num : Type}.

(** [Object.keys(v)]; it throws on [undefined] and [null]. *)
Definition Object_keys (v : value num) : result num (list string) :=
  match v with
  | JUndefined | JNull => Throw (NativeError "TypeError")
  | JBool _ | JNum _ => Ok []
  | JStr s => Ok (map Keys.index_key (seq 0 (Keys.utf16_length s)))
  | JArr items => Ok (map Keys.index_key (seq 0 (length items)))
  | JObj props => Ok (Keys.ordered (map fst props))
  end.

End ObjectKeys.

(** ** The process environment, the event and the storage client *)

(** [process.env]: a variable is a string, or is not set. *)
Record Env : Type := {
  PATH_PREFIX : option string;
  SOURCE_BUCKETS : option string;
  AUTO_WEBP : option string;
}.

(** The proxied request.  [queryStringParameters] and [headers] are
    mappings from names to strings, or [null]. *)
Record Event : Type := {
  path : string;
  queryStringParameters : option (gmap string string);
  headers : option (gmap string string);
}.

Module S3.

(** What [getObject] resolves with. *)
Record GetObjectOutput (date : Type) : Type := {
  Body : list byte;
  ContentType : option string;
  Expires : option date;
  LastModified : option date;
  CacheControl : option string;
}.

(** What [getObject] rejects with. *)
Record Error (num : Type) : Type := {
  code : value num;
  message : value num;
}.

Arguments Body {date} _.
Arguments ContentType {date} _.
Arguments Expires {date} _.
Arguments LastModified {date} _.
Arguments CacheControl {date} _.
Arguments code {num} _.
Arguments message {num} _.

End S3.

(** ** The request descriptor

    The fields of [this].  A field that no statement has assigned yet is
    [None], or [JUndefined] for a field that holds a value. *)

Record ImageRequest (num : Type) : Type := {
  requestType : option string;
  bucket : option string;
  key : option string;
  edits : value num;
  originalImage : option (list byte);
  outputFormat : value num;
  ContentType : option string;
  Expires : option string;
  LastModified : option string;
  CacheControl : option string;
}.

Arguments requestType {num} _.
Arguments bucket {num} _.
Arguments key {num} _.
Arguments edits {num} _.
Arguments originalImage {num} _.
Arguments outputFormat {num} _.
Arguments ContentType {num} _.
Arguments Expires {num} _.
Arguments LastModified {num} _.
Arguments CacheControl {num} _.

Section Assign.

Context {num : Type}.

(** [new ImageRequest()]: the class has no constructor and no field
    initialiser. *)
Definition new_ImageRequest : ImageRequest num :=
  {| requestType := None; bucket := None; key := None; edits := JUndefined;
     originalImage := None; outputFormat := JUndefined; ContentType := None;
     Expires := None; LastModified := None; CacheControl := None |}.

Definition set_requestType (x : string) (this : ImageRequest num) :=
  {| requestType := Some x; bucket := bucket this; key := key this;
     edits := edits this; originalImage := originalImage this;
     outputFormat := outputFormat this; ContentType := ContentType this;
     Expires := Expires this; LastModified := LastModified this;
     CacheControl := CacheControl this |}.

Definition set_bucket (x : string) (this : ImageRequest num) :=
  {| requestType := requestType this; bucket := Some x; key := key this;
     edits := edits this; originalImage := originalImage this;
     outputFormat := outputFormat this; ContentType := ContentType this;
     Expires := Expires this; LastModified := LastModified this;
     CacheControl := CacheControl this |}.

Definition set_key (x : string) (this : ImageRequest num) :=
  {| requestType := requestType this; bucket := bucket this; key := Some x;
     edits := edits this; originalImage := originalImage this;
     outputFormat := outputFormat this; ContentType := ContentType this;
     Expires := Expires this; LastModified := LastModified this;
     CacheControl := CacheControl this |}.

Definition set_edits (x : value num) (this : ImageRequest num) :=
  {| requestType := requestType this; bucket := bucket this; key := key this;
     edits := x; originalImage := originalImage this;
     outputFormat := outputFormat this; ContentType := ContentType this;
     Expires := Expires this; LastModified := LastModified this;
     CacheControl := CacheControl this |}.

Definition set_originalImage (x : list byte) (this : ImageRequest num) :=
  {| requestType := requestType this; bucket := bucket this; key := key this;
     edits := edits this; originalImage := Some x;
     outputFormat := outputFormat this; ContentType := ContentType this;
     Expires := Expires this; LastModified := LastModified this;
     CacheControl := CacheControl this |}.

Definition set_outputFormat (x : value num) (this : ImageRequest num) :=
  {| requestType := requestType this; bucket := bucket this; key := key this;
     edits := edits this; originalImage := originalImage this;
     outputFormat := x; ContentType := ContentType this;
     Expires := Expires this; LastModified := LastModified this;
     CacheControl := CacheControl this |}.

Definition set_ContentType (x : string) (this : ImageRequest num) :=
  {| requestType := requestType this; bucket := bucket this; key := key this;
     edits := edits this; originalImage := originalImage this;
     outputFormat := outputFormat this; ContentType := Some x;
     Expires := Expires this; LastModified := LastModified this;
     CacheControl := CacheControl this |}.

Definition set_Expires (x : string) (this : ImageRequest num) :=
  {| requestType := requestType this; bucket := bucket this; key := key this;
     edits := edits this; originalImage := originalImage this;
     outputFormat := outputFormat this; ContentType := ContentType this;
     Expires := Some x; LastModified := LastModified this;
     CacheControl := CacheControl this |}.

Definition set_LastModified (x : string) (this : ImageRequest num) :=
  {| requestType := requestType this; bucket := bucket this; key := key this;
     edits := edits this; originalImage := originalImage this;
     outputFormat := outputFormat this; ContentType := ContentType this;
     Expires := Expires this; LastModified := Some x;
     CacheControl := CacheControl this |}.

Definition set_CacheControl (x : string) (this : ImageRequest num) :=
  {| requestType := requestType this; bucket := bucket this; key := key this;
     edits := edits this; originalImage := originalImage this;
     outputFormat := outputFormat this; ContentType := ContentType this;
     Expires := Expires this; LastModified := LastModified this;
     CacheControl := Some x |}.

End Assign.

(** ** The methods of the class *)

Section Methods.

Context {num : Type} `{!Runtime num}.

(** [process.env] and the [getObject] call of the storage client; the
    call either resolves with the object or rejects with an error. *)
Variable env : Env.
Variable getObject :
  string -> string -> S3.GetObjectOutput date + S3.Error num.

Local Abbreviation this_t := (ImageRequest num).
Local Abbreviation res := (result num).

(** [throw ({status, code, message})] with literal texts. *)
Definition throw {A : Type} (status : Z) (code message : string) : res A :=
  Throw (ErrorObject status (JStr code) (JStr message)).

Definition acceptedValues : list string :=
  ["jpeg"; "png"; "webp"; "tiff"; "heif"].

(** [parseRequestType(event)] *)
Definition parseRequestType (event : Event) : string := "Default".

(** [removePathPrefix(path)]: [path.replace(re, '')] removes the first
    match of an expression without the [g] flag. *)
Definition removePathPrefix (path : string) : res string :=
  let prefix := PATH_PREFIX env in
  match RegExp_new ("^(" +:+ JsString.template prefix +:+ ")") with
  | None => Throw (NativeError "SyntaxError")
  | Some re =>
      match RegExp_exec re path with
      | Some (i, n) => Ok (JsString.cut i n path)
      | None => Ok path
      end
  end.

(** [getAllowedSourceBuckets()] *)
Definition getAllowedSourceBuckets : res (list string) :=
  let sourceBuckets := SOURCE_BUCKETS env in
  match sourceBuckets with
  | None =>
      throw 400 "GetAllowedSourceBuckets::NoSourceBuckets"
        "The SOURCE_BUCKETS variable could not be read. Please check that it is not empty and contains at least one source bucket, or multiple buckets separated by commas. Spaces can be provided between commas and bucket names, these will be automatically parsed out when decoding."
  | Some sourceBuckets =>
      let formatted := JsString.remove_whitespace sourceBuckets in
      let buckets := JsString.split "," formatted in
      Ok buckets
  end.

(** [bucket.match(new RegExp('^' + sourceBuckets[0] + '$'))], as a
    condition: a match is an array, no match is [null]. *)
Definition matches_first (sourceBuckets : list string) (bucket : string)
  : res bool :=
  match RegExp_new ("^" +:+ JsString.first sourceBuckets +:+ "$") with
  | None => Throw (NativeError "SyntaxError")
  | Some re => Ok (bool_decide (is_Some (RegExp_exec re bucket)))
  end.

(** [parseImageBucket(event, requestType)] *)
Definition parseImageBucket (event : Event) (requestType : string)
  : res string :=
  if String.eqb requestType "Default" then
    let* path := removePathPrefix (path event) in
    let bucket := JsString.first (JsString.split "/" path) in
    if negb (String.eqb bucket "") then
      let* sourceBuckets := getAllowedSourceBuckets in
      if JsString.includes bucket sourceBuckets then Ok bucket
      else
        let* m := matches_first sourceBuckets bucket in
        if m then Ok bucket
        else
          throw 403 "ImageBucket::CannotAccessBucket"
            "The bucket you specified could not be accessed. Please check that the bucket is specified in your SOURCE_BUCKETS."
    else
      let* sourceBuckets := getAllowedSourceBuckets in
      Ok (JsString.first sourceBuckets)
  else
    throw 404 "ImageBucket::CannotFindBucket"
      "The bucket you specified could not be found. Please check the spelling of the bucket name in your request.".

(** [decodeRequest(encoded)] *)
Definition decodeRequest (encoded : option string) : res (value num) :=
  match encoded with
  | None => Ok JUndefined
  | Some encoded =>
      let toBuffer := Buffer_from_base64 encoded in
      match JSON_parse (Buffer_toString toBuffer) with
      | Some decoded => Ok decoded
      | None =>
          throw 400 "DecodeRequest::CannotDecodeRequest"
            "The image request you provided could not be decoded. Please check that your request is base64 encoded properly and refer to the documentation for additional guidance."
      end
  end.

(** [parseImageEdits(event, requestType)] *)
Definition parseImageEdits (event : Event) (requestType : string)
  : res (value num) :=
  if String.eqb requestType "Default" then
    match queryStringParameters event with
    | None => Ok (JObj [])
    | Some parameters =>
        let rawData := parameters !! "edits" in
        let* decoded := decodeRequest rawData in
        if is_nullish decoded then Ok (JObj []) else Ok decoded
    end
  else
    throw 400 "ImageEdits::CannotParseEdits"
      "The edits you provided could not be parsed. Please check the syntax of your request and refer to the documentation for additional guidance.".

(** [parseImageKey(event, requestType)] *)
Definition parseImageKey (event : Event) (requestType : string)
  : res string :=
  let* key :=
    if String.eqb requestType "Default" then
      let* path := removePathPrefix (path event) in
      let cleanPath := JsString.first (JsString.split "#" path) in
      let cleanPath := JsString.first (JsString.split "?" cleanPath) in
      Ok (JsString.join "/" (JsString.slice1 (JsString.split "/" cleanPath)))
    else Ok "" in
  if String.eqb key "" then
    throw 404 "ImageEdits::CannotFindImage"
      "The image you specified could not be found. Please check your request syntax as well as the bucket you specified to ensure it exists."
  else Ok key.

(** [getOriginalImage(bucket, key)]: the body of the object, and [this]
    with the response fields assigned. *)
Definition getOriginalImage (this : this_t) (bucket key : string)
  : res (list byte * this_t) :=
  match getObject bucket key with
  | inl originalImage =>
      let this :=
        match S3.ContentType originalImage with
        | Some t => if negb (String.eqb t "") then set_ContentType t this
                    else set_ContentType "image" this
        | None => set_ContentType "image" this
        end in
      let this :=
        match S3.Expires originalImage with
        | Some d => set_Expires (Date_toUTCString d) this
        | None => this
        end in
      let this :=
        match S3.LastModified originalImage with
        | Some d => set_LastModified (Date_toUTCString d) this
        | None => this
        end in
      let this :=
        match S3.CacheControl originalImage with
        | Some c => if negb (String.eqb c "") then set_CacheControl c this
                    else set_CacheControl "max-age=31536000,public" this
        | None => set_CacheControl "max-age=31536000,public" this
        end in
      Ok (S3.Body originalImage, this)
  | inr err =>
      Throw (ErrorObject
               (if strict_eq_string (S3.code err) "NoSuchKey" then 404 else 500)
               (S3.code err) (S3.message err))
  end.

(** [getOutputFormat(event, edits)]; it reads [this.requestType]. *)
Definition getOutputFormat (this : this_t) (event : Event)
  (edits : value num) : res (value num) :=
  let autoWebP := AUTO_WEBP env in
  let* webp :=
    if truthy_string autoWebP then
      match headers event with
      | None => Throw (NativeError "TypeError")
      | Some h =>
          match h !! "Accept" with
          | Some accept =>
              Ok (negb (String.eqb accept "")
                  && JsString.str_includes "image/webp" accept)
          | None => Ok false
          end
      end
    else Ok false in
  if webp then Ok (JStr "webp")
  else if bool_decide (requestType this = Some "Default") then
    Get edits "outputFormat"
  else Ok JNull.

(** [o[k] = x] and [delete o[k]] on an object.  An assignment on a
    primitive value throws in the strict code of a class; an array never
    reaches these statements (lemma [quality_keys_not_object]). *)
Definition Put (o : value num) (k : string) (x : value num)
  : res (value num) :=
  match o with
  | JObj props => Ok (JObj (set_prop k x props))
  | _ => Throw (NativeError "TypeError")
  end.

Definition Delete (o : value num) (k : string) : res (value num) :=
  match o with
  | JObj props => Ok (JObj (delete_prop k props))
  | _ => Throw (NativeError "TypeError")
  end.

(** The codec keys of the edits, in the order of [Object.keys]. *)
Definition quality_keys (edits : value num) : res (list string) :=
  let* keys := Object_keys edits in
  Ok (List.filter (fun key => JsString.includes key acceptedValues) keys).

(** The quality fix of [setup]: the statement
    [if (requestType.includes(this.requestType) && ...) { ... }],
    on the three fields it reads; the result is the new [this.edits]. *)
Definition fixQuality (requestType : option string)
  (outputFormat edits : value num) : res (value num) :=
  if match requestType with
     | Some t => JsString.includes t ["Custom"; "Thumbor"]
     | None => false
     end
     && includes_value outputFormat acceptedValues
  then
    let* keys := quality_keys edits in
    match keys !! 0%nat with
    | Some qualityKey =>
        if negb (String.eqb qualityKey "")
           && negb (strict_eq_string outputFormat qualityKey)
        then
          let* qualityValue := Get edits qualityKey in
          let* edits := Put edits (ToString outputFormat) qualityValue in
          Delete edits qualityKey
        else Ok edits
    | None => Ok edits
    end
  else Ok edits.

(** [setup(event)] *)
Definition setup (event : Event) (this : this_t) : res this_t :=
  let requestType_ := parseRequestType event in
  let this := set_requestType requestType_ this in
  let* b := parseImageBucket event requestType_ in
  let this := set_bucket b this in
  let* k := parseImageKey event requestType_ in
  let this := set_key k this in
  let* e := parseImageEdits event requestType_ in
  let this := set_edits e this in
  let* fetched := getOriginalImage this b k in
  let this := set_originalImage (fst fetched) (snd fetched) in
  let* outputFormat_ := getOutputFormat this event (edits this) in
  let* toFormat :=
    if ToBoolean (edits this) then Get (edits this) "toFormat"
    else Ok (edits this) in
  let this :=
    if ToBoolean toFormat then set_outputFormat toFormat this
    else if ToBoolean outputFormat_ then set_outputFormat outputFormat_ this
    else this in
  if ToBoolean (outputFormat this) then
    let* text := template_text (outputFormat this) in
    let this := set_ContentType ("image/" +:+ text) this in
    let* e := fixQuality (requestType this) (outputFormat this) (edits this) in
    Ok (set_edits e this)
  else Ok this.

End Methods.

(** ** A reference runtime

    An executable runtime, used to run the class on concrete requests.
    It covers the part of each builtin that the examples need and is
    explicit about the rest:
    - numbers are the integers, printed in decimal (the safe integers of
      JavaScript are the ones it prints and reads exactly);
    - a regular expression is a literal text, optionally wrapped in one
      group and anchored by [^] and [$]; any pattern with another syntax
      character is refused;
    - base64 and UTF-8 decoding follow [Buffer] on a parameter of ASCII
      characters: characters outside the alphabet are skipped, padding
      ends the text, an ill-formed sequence decodes to U+FFFD;
    - [JSON.parse] accepts the JSON grammar with integer numerals and
      refuses a numeral with a fraction or an exponent (the runtime
      [Binary64] below reads every numeral) and an escape of a
      surrogate, alone or in a pair;
    - the stored objects carry no dates.

    The module also holds the client's side of the edits parameter,
    [JSON.stringify], [Buffer.from] and the base64 encoder, and the
    values they are defined on ([encodable]). *)

Module Reference.

(** *** Regular expressions *)

Record regexp : Type := {
  anchored_start : bool;
  anchored_end : bool;
  literal : string;
}.

Definition syntax_character (c : ascii) : bool :=
  JsString.str_includes (String c EmptyString) "^$\.*+?()[]{}|".

Fixpoint plain (s : string) : bool :=
  match s with
  | EmptyString => true
  | String c s' => negb (syntax_character c) && plain s'
  end.

(** The text without its last character, and that character. *)
Fixpoint unsnoc (s : string) : option (string * ascii) :=
  match s with
  | EmptyString => None
  | String c s' =>
      match unsnoc s' with
      | None => Some (EmptyString, c)
      | Some (init, last) => Some (String c init, last)
      end
  end.

Definition strip_start (s : string) : bool * string :=
  match s with
  | String "^" s' => (true, s')
  | _ => (false, s)
  end.

Definition strip_end (s : string) : bool * string :=
  match unsnoc s with
  | Some (init, "$"%char) => (true, init)
  | _ => (false, s)
  end.

Definition strip_group (s : string) : string :=
  match s with
  | String "(" s' =>
      match unsnoc s' with
      | Some (init, ")"%char) => init
      | _ => s
      end
  | _ => s
  end.

Definition RegExp_new (source : string) : option regexp :=
  let (a, s1) := strip_start source in
  let (e, s2) := strip_end s1 in
  let body := strip_group s2 in
  if plain body
  then Some {| anchored_start := a; anchored_end := e; literal := body |}
  else None.

Definition RegExp_exec (re : regexp) (s : string) : option (nat * nat) :=
  let n := String.length (literal re) in
  match anchored_start re, anchored_end re with
  | true, true =>
      if String.eqb (literal re) s then Some (0, n) else None
  | true, false =>
      if String.prefix (literal re) s then Some (0, n) else None
  | false, true =>
      let i := String.length s - n in
      if Nat.leb n (String.length s)
         && String.eqb (String.substring i n s) (literal re)
      then Some (i, n) else None
  | false, false =>
      match String.index 0 (literal re) s with
      | Some i => Some (i, n)
      | None => None
      end
  end.

(** *** Numbers *)

Definition Number_truthy (n : Z) : bool := negb (Z.eqb n 0).

Definition Number_toString (n : Z) : string :=
  NilZero.string_of_int (Z.to_int n).

(** *** [Buffer.from(text, 'base64')] *)

Definition sextet (c : ascii) : option N :=
  let n := N_of_ascii c in
  if (N.leb 65 n && N.leb n 90)%N then Some (n - 65)%N
  else if (N.leb 97 n && N.leb n 122)%N then Some (n - 71)%N
  else if (N.leb 48 n && N.leb n 57)%N then Some (n + 4)%N
  else if (N.eqb n 43 || N.eqb n 45)%N then Some 62%N
  else if (N.eqb n 47 || N.eqb n 95)%N then Some 63%N
  else None.

Fixpoint sextets (s : string) : list N :=
  match s with
  | EmptyString => []
  | String c s' =>
      if Ascii.eqb c "=" then []
      else match sextet c with
           | Some n => n :: sextets s'
           | None => sextets s'
           end
  end.

Definition octet (n : N) : byte := byte_of_ascii (ascii_of_N (n mod 256)).

Fixpoint octets (l : list N) : list byte :=
  match l with
  | a :: b :: c :: d :: l' =>
      octet (a * 4 + b / 16) :: octet (b * 16 + c / 4) :: octet (c * 64 + d)
      :: octets l'
  | [a; b; c] => [octet (a * 4 + b / 16); octet (b * 16 + c / 4)]
  | [a; b] => [octet (a * 4 + b / 16)]
  | _ => []
  end.

Definition Buffer_from_base64 (s : string) : list byte := octets (sextets s).

(** *** [buffer.toString()]: UTF-8 with replacement *)

Definition replacement : list N := [239; 191; 189]%N.

Definition between (lo hi n : N) : bool := (N.leb lo n && N.leb n hi)%N.

Definition continuation (n : N) : bool := between 128 191 n.

(** The range of the second byte after the lead byte [b]. *)
Definition second_low (b : N) : N :=
  if N.eqb b 224 then 160%N else if N.eqb b 240 then 144%N else 128%N.

Definition second_high (b : N) : N :=
  if N.eqb b 237 then 159%N else if N.eqb b 244 then 143%N else 191%N.

Fixpoint utf8_decode (l : list N) : list N :=
  match l with
  | [] => []
  | b0 :: t0 =>
      if N.ltb b0 128 then b0 :: utf8_decode t0
      else if between 194 223 b0 then
        match t0 with
        | b1 :: t1 =>
            if continuation b1 then b0 :: b1 :: utf8_decode t1
            else replacement ++ utf8_decode t0
        | [] => replacement
        end
      else if between 224 244 b0 then
        match t0 with
        | b1 :: t1 =>
            if between (second_low b0) (second_high b0) b1 then
              match t1 with
              | b2 :: t2 =>
                  if continuation b2 then
                    if N.ltb b0 240 then b0 :: b1 :: b2 :: utf8_decode t2
                    else
                      match t2 with
                      | b3 :: t3 =>
                          if continuation b3
                          then b0 :: b1 :: b2 :: b3 :: utf8_decode t3
                          else replacement ++ utf8_decode t2
                      | [] => replacement
                      end
                  else replacement ++ utf8_decode t1
              | [] => replacement
              end
            else replacement ++ utf8_decode t0
        | [] => replacement
        end
      else replacement ++ utf8_decode t0
  end.

Definition Buffer_toString (b : list byte) : string :=
  string_of_list_ascii
    (map ascii_of_N
       (utf8_decode (map (fun x => N_of_ascii (ascii_of_byte x)) b))).

(** *** [JSON.parse] *)

Definition quote : ascii := ascii_of_nat 34.
Definition backslash : ascii := ascii_of_nat 92.

Definition whitespace (c : ascii) : bool :=
  let n := nat_of_ascii c in
  Nat.eqb n 32 || Nat.eqb n 9 || Nat.eqb n 10 || Nat.eqb n 13.

Fixpoint skip (s : string) : string :=
  match s with
  | String c s' => if whitespace c then skip s' else s
  | EmptyString => s
  end.

Definition digit (c : ascii) : option N :=
  let n := N_of_ascii c in
  if between 48 57 n then Some (n - 48)%N else None.

Definition hex (c : ascii) : option N :=
  let n := N_of_ascii c in
  if between 48 57 n then Some (n - 48)%N
  else if between 65 70 n then Some (n - 55)%N
  else if between 97 102 n then Some (n - 87)%N
  else None.

(** The digits at the head of a text, as a number, and the rest. *)
Fixpoint digits (acc : N) (s : string) : N * string :=
  match s with
  | String c s' =>
      match digit c with
      | Some d => digits (acc * 10 + d) s'
      | None => (acc, s)
      end
  | EmptyString => (acc, s)
  end.

(** What may not follow an integer numeral here: a fraction or an
    exponent. *)
Definition continues_numeral (s : string) : bool :=
  match s with
  | String c _ => Ascii.eqb c "." || Ascii.eqb c "e" || Ascii.eqb c "E"
  | EmptyString => false
  end.

Definition natural (s : string) : option (N * string) :=
  match s with
  | String c s' =>
      match digit c with
      | Some 0%N =>
          match s' with
          | String c' _ =>
              match digit c' with
              | Some _ => None
              | None => Some (0%N, s')
              end
          | EmptyString => Some (0%N, s')
          end
      | Some d => Some (digits d s')
      | None => None
      end
  | EmptyString => None
  end.

Definition numeral (s : string) : option (Z * string) :=
  let signed :=
    match s with
    | String "-" s' =>
        match natural s' with
        | Some (n, r) => Some (Z.opp (Z.of_N n), r)
        | None => None
        end
    | _ =>
        match natural s with
        | Some (n, r) => Some (Z.of_N n, r)
        | None => None
        end
    end in
  match signed with
  | Some (z, r) => if continues_numeral r then None else Some (z, r)
  | None => None
  end.

(** The UTF-8 bytes of a code point of the basic plane. *)
Definition utf8_encode (n : N) : string :=
  string_of_list_ascii
    (map ascii_of_N
       (if N.ltb n 128 then [n]
        else if N.ltb n 2048 then [192 + n / 64; 128 + n mod 64]
        else [224 + n / 4096; 128 + (n / 64) mod 64; 128 + n mod 64])%N).

Definition escape (h1 h2 h3 h4 : ascii) : option string :=
  match hex h1, hex h2, hex h3, hex h4 with
  | Some a, Some b, Some c, Some d =>
      let n := (a * 4096 + b * 256 + c * 16 + d)%N in
      if between 55296 57343 n then None else Some (utf8_encode n)
  | _, _, _, _ => None
  end.

Definition simple_escape (c : ascii) : option ascii :=
  if Ascii.eqb c quote then Some quote
  else if Ascii.eqb c backslash then Some backslash
  else if Ascii.eqb c "/" then Some "/"%char
  else if Ascii.eqb c "b" then Some (ascii_of_nat 8)
  else if Ascii.eqb c "f" then Some (ascii_of_nat 12)
  else if Ascii.eqb c "n" then Some (ascii_of_nat 10)
  else if Ascii.eqb c "r" then Some (ascii_of_nat 13)
  else if Ascii.eqb c "t" then Some (ascii_of_nat 9)
  else None.

(** The characters of a string literal after its opening quote, and the
    text after its closing quote. *)
Fixpoint characters (s : string) : option (string * string) :=
  match s with
  | EmptyString => None
  | String c s' =>
      if Ascii.eqb c quote then Some (EmptyString, s')
      else if Ascii.eqb c backslash then
        match s' with
        | String "u" (String h1 (String h2 (String h3 (String h4 r)))) =>
            match escape h1 h2 h3 h4, characters r with
            | Some e, Some (t, r') => Some (e +:+ t, r')
            | _, _ => None
            end
        | String e r =>
            match simple_escape e, characters r with
            | Some x, Some (t, r') => Some (String x t, r')
            | _, _ => None
            end
        | EmptyString => None
        end
      else if Nat.ltb (nat_of_ascii c) 32 then None
      else
        match characters s' with
        | Some (t, r') => Some (String c t, r')
        | None => None
        end
  end.

(** The grammar of JSON, for a way [read] of reading the numeral at the
    head of a text. *)
Section Parser.

Context {num : Type}.

Variable read : string -> option (num * string).

Definition keyword (k : string) (v : value num) (s : string)
  : option (value num * string) :=
  if String.prefix k s
  then Some (v, String.substring (String.length k)
                  (String.length s - String.length k) s)
  else None.

(** A member that is written again takes the new value and keeps its
    place. *)
Definition object_of (members : list (string * value num)) : value num :=
  JObj (fold_left (fun props kv => set_prop (fst kv) (snd kv) props)
          members []).

(** [element fuel s] reads a value at the head of [s]; [elements] and
    [members] read what follows the opening bracket of a non-empty array
    and of a non-empty object. *)
Fixpoint element (fuel : nat) (s : string) : option (value num * string) :=
  match fuel with
  | O => None
  | S fuel =>
      match s with
      | String "n" _ => keyword "null" JNull s
      | String "t" _ => keyword "true" (JBool true) s
      | String "f" _ => keyword "false" (JBool false) s
      | String "[" s' =>
          match skip s' with
          | String "]" r => Some (JArr [], r)
          | s1 =>
              match elements fuel s1 with
              | Some (items, r) => Some (JArr items, r)
              | None => None
              end
          end
      | String "{" s' =>
          match skip s' with
          | String "}" r => Some (JObj [], r)
          | s1 =>
              match members fuel s1 with
              | Some (ms, r) => Some (object_of ms, r)
              | None => None
              end
          end
      | String c s' =>
          if Ascii.eqb c quote then
            match characters s' with
            | Some (t, r) => Some (JStr t, r)
            | None => None
            end
          else
            match read s with
            | Some (z, r) => Some (JNum z, r)
            | None => None
            end
      | EmptyString => None
      end
  end
with elements (fuel : nat) (s : string)
  : option (list (value num) * string) :=
  match fuel with
  | O => None
  | S fuel =>
      match element fuel s with
      | Some (v, r) =>
          match skip r with
          | String "," r' =>
              match elements fuel (skip r') with
              | Some (vs, r'') => Some (v :: vs, r'')
              | None => None
              end
          | String "]" r' => Some ([v], r')
          | _ => None
          end
      | None => None
      end
  end
with members (fuel : nat) (s : string)
  : option (list (string * value num) * string) :=
  match fuel with
  | O => None
  | S fuel =>
      match s with
      | String c s' =>
          if Ascii.eqb c quote then
            match characters s' with
            | Some (k, r) =>
                match skip r with
                | String ":" r1 =>
                    match element fuel (skip r1) with
                    | Some (v, r2) =>
                        match skip r2 with
                        | String "," r3 =>
                            match members fuel (skip r3) with
                            | Some (ms, r4) => Some ((k, v) :: ms, r4)
                            | None => None
                            end
                        | String "}" r3 => Some ([(k, v)], r3)
                        | _ => None
                        end
                    | None => None
                    end
                | _ => None
                end
            | None => None
            end
          else None
      | EmptyString => None
      end
  end.

(** [JSON.parse(text)]: one value, with white space around it. *)
Definition parse (text : string) : option (value num) :=
  match element (2 * String.length text + 2) (skip text) with
  | Some (v, r) =>
      match skip r with
      | EmptyString => Some v
      | _ => None
      end
  | None => None
  end.

End Parser.

(** [JSON.parse] with integer numerals. *)
Definition JSON_parse : string -> option (value Z) := parse numeral.

(** *** The runtime and a store *)

#[global] Instance runtime : Runtime Z :=
  Build_Runtime Z Number_truthy Number_toString regexp RegExp_new RegExp_exec
    Buffer_from_base64 Buffer_toString JSON_parse
    Empty_set (fun d => match d with end).

(** *** The encoders of a client

    What a client runs to build the [edits] parameter:
    [Buffer.from(JSON.stringify(v)).toString('base64')]. *)

Definition hex_digit (n : N) : ascii :=
  if N.ltb n 10 then ascii_of_N (48 + n) else ascii_of_N (87 + n).

Definition quoted_character (c : ascii) : string :=
  let n := N_of_ascii c in
  if Ascii.eqb c quote then String backslash (String quote EmptyString)
  else if Ascii.eqb c backslash
  then String backslash (String backslash EmptyString)
  else if N.eqb n 8 then String backslash "b"
  else if N.eqb n 12 then String backslash "f"
  else if N.eqb n 10 then String backslash "n"
  else if N.eqb n 13 then String backslash "r"
  else if N.eqb n 9 then String backslash "t"
  else if N.ltb n 32
  then String backslash
         (String "u" (String "0" (String "0"
            (String (hex_digit (n / 16))
               (String (hex_digit (n mod 16)) EmptyString)))))
  else String c EmptyString.

Fixpoint quoted_characters (s : string) : string :=
  match s with
  | EmptyString => EmptyString
  | String c s' => quoted_character c +:+ quoted_characters s'
  end.

Definition quoted (s : string) : string :=
  String quote (quoted_characters s +:+ String quote EmptyString).

(** [JSON.stringify(v)] for a value other than [undefined], for a way
    [print] of writing a number: a member that is [undefined] is left
    out, an item that is [undefined] is written [null]. *)
Section Writer.

Context {num : Type}.

Variable print : num -> string.

Fixpoint stringify (v : value num) : string :=
  match v with
  | JUndefined | JNull => "null"
  | JBool true => "true"
  | JBool false => "false"
  | JNum n => print n
  | JStr s => quoted s
  | JArr items => "[" +:+ JsString.join "," (map stringify items) +:+ "]"
  | JObj props =>
      "{"
      +:+ JsString.join ","
            (flat_map
               (fun kv =>
                  match kv with
                  | (_, JUndefined) => []
                  | (k, x) => [quoted k +:+ ":" +:+ stringify x]
                  end) props)
      +:+ "}"
  end.

End Writer.

(** [JSON.stringify] on integers. *)
Definition JSON_stringify : value Z -> string := stringify Number_toString.

(** [Buffer.from(text)]: the UTF-8 bytes of the text. *)
Definition Buffer_from (text : string) : list byte :=
  map byte_of_ascii (list_ascii_of_string text).

Definition base64_character (n : N) : ascii :=
  if N.ltb n 26 then ascii_of_N (65 + n)
  else if N.ltb n 52 then ascii_of_N (71 + n)
  else if N.ltb n 62 then ascii_of_N (n - 4)
  else if N.eqb n 62 then "+"%char
  else "/"%char.

Fixpoint base64_encode (l : list N) : string :=
  match l with
  | a :: b :: c :: l' =>
      String (base64_character (a / 4))
        (String (base64_character ((a mod 4) * 16 + b / 16))
           (String (base64_character ((b mod 16) * 4 + c / 64))
              (String (base64_character (c mod 64)) (base64_encode l'))))
  | [a; b] =>
      String (base64_character (a / 4))
        (String (base64_character ((a mod 4) * 16 + b / 16))
           (String (base64_character ((b mod 16) * 4)) "="))
  | [a] =>
      String (base64_character (a / 4))
        (String (base64_character ((a mod 4) * 16)) "==")
  | [] => EmptyString
  end.

(** [buffer.toString('base64')] *)
Definition Buffer_to_base64 (b : list byte) : string :=
  base64_encode (map (fun x => N_of_ascii (ascii_of_byte x)) b).

(** [Buffer.from(JSON.stringify(v)).toString('base64')]: what the
    client sends for the value [v]. *)
Definition encode (v : value Z) : string :=
  Buffer_to_base64 (Buffer_from (JSON_stringify v)).

(** *** The values that a client can encode

    The data of JSON: no [undefined]; numbers that are [exact], the ones
    that are read back from what is printed for them; in an object no key
    twice, and the keys in the order of [Object.keys]. *)
Section Data.

Context {num : Type}.

Variable exact : num -> Prop.

Fixpoint data (v : value num) : Prop :=
  match v with
  | JUndefined => False
  | JNum n => exact n
  | JArr items =>
      (fix all (l : list (value num)) : Prop :=
         match l with
         | [] => True
         | x :: l' => data x /\ all l'
         end) items
  | JObj props =>
      List.NoDup (map fst props)
      /\ Keys.ordered (map fst props) = map fst props
      /\ (fix all (l : list (string * value num)) : Prop :=
            match l with
            | [] => True
            | (_, x) :: l' => data x /\ all l'
            end) props
  | _ => True
  end.

End Data.

(** The safe integers, which JavaScript prints and reads exactly. *)
Definition safe_integer (n : Z) : Prop := (Z.abs n <= 9007199254740991)%Z.

(** The data whose numbers are safe integers. *)
Definition json_data : value Z -> Prop := data safe_integer.

(** Well-formed UTF-8: the sequences that [utf8_decode] keeps. *)
Fixpoint well_formed (l : list N) : bool :=
  match l with
  | [] => true
  | b0 :: t0 =>
      if N.ltb b0 128 then well_formed t0
      else if between 194 223 b0 then
        match t0 with
        | b1 :: t1 => continuation b1 && well_formed t1
        | [] => false
        end
      else if between 224 244 b0 then
        match t0 with
        | b1 :: b2 :: t2 =>
            between (second_low b0) (second_high b0) b1 && continuation b2
            && (if N.ltb b0 240 then well_formed t2
                else match t2 with
                     | b3 :: t3 => continuation b3 && well_formed t3
                     | [] => false
                     end)
        | _ => false
        end
      else false
  end.

Definition bytes_of (s : string) : list N :=
  map N_of_ascii (list_ascii_of_string s).

(** The texts: the strings whose bytes are well-formed UTF-8, that is
    the JavaScript strings without a lone surrogate. *)
Definition utf8_text (s : string) : bool := well_formed (bytes_of s).

Definition all_ascii (s : string) : bool :=
  forallb (fun c => N.ltb (N_of_ascii c) 128) (list_ascii_of_string s).

(** Every string and every key of the value is a text. *)
Fixpoint json_text {num : Type} (v : value num) : Prop :=
  match v with
  | JStr s => utf8_text s = true
  | JArr items =>
      (fix all (l : list (value num)) : Prop :=
         match l with
         | [] => True
         | x :: l' => json_text x /\ all l'
         end) items
  | JObj props =>
      (fix all (l : list (string * value num)) : Prop :=
         match l with
         | [] => True
         | (k, x) :: l' => utf8_text k = true /\ json_text x /\ all l'
         end) props
  | _ => True
  end.

Definition encodable (v : value Z) : Prop := json_data v /\ json_text v.

(** *** Notions for the proofs about the parser *)

(** What may follow a numeral: nothing, or a character that is neither a
    digit nor the start of a fraction or of an exponent. *)
Definition ends_numeral (rest : string) : bool :=
  match rest with
  | EmptyString => true
  | String c _ =>
      match digit c with
      | Some _ => false
      | None => negb (continues_numeral rest)
      end
  end.

(** What follows a value inside a text: nothing, a comma or a closing
    bracket. *)
Definition closes (rest : string) : bool :=
  match rest with
  | EmptyString => true
  | String c _ => Ascii.eqb c "," || Ascii.eqb c "]" || Ascii.eqb c "}"
  end.

(** What the first character of a serialised value is not. *)
Definition opens (c : ascii) : bool :=
  negb (whitespace c) && negb (Ascii.eqb c "]") && negb (Ascii.eqb c "}").

(** A character that starts neither a keyword nor a bracket. *)
Definition starts_scalar (c : ascii) : bool :=
  negb (Ascii.eqb c "n") && negb (Ascii.eqb c "t") && negb (Ascii.eqb c "f")
  && negb (Ascii.eqb c "[") && negb (Ascii.eqb c "{").

(** The fuel that reading a value back takes. *)
Fixpoint need {num : Type} (v : value num) : nat :=
  match v with
  | JArr items =>
      S ((fix go (l : list (value num)) : nat :=
            match l with
            | [] => 0
            | x :: l' => S (Nat.max (need x) (go l'))
            end) items)
  | JObj props =>
      S ((fix go (l : list (string * value num)) : nat :=
            match l with
            | [] => 0
            | (_, x) :: l' => S (Nat.max (need x) (go l'))
            end) props)
  | _ => 1
  end.

Definition need_items {num : Type} (items : list (value num)) : nat :=
  fold_right (fun x n => S (Nat.max (need x) n)) 0 items.

Definition need_members {num : Type}
  (props : list (string * value num)) : nat :=
  fold_right (fun kv n => S (Nat.max (need (snd kv)) n)) 0 props.

(** The text of a member of an object. *)
Definition member_text {num : Type} (print : num -> string)
  (kv : string * value num) : string :=
  quoted (fst kv) +:+ ":" +:+ stringify print (snd kv).

(** [element] reads the value back from its text, whatever follows. *)
Definition parses {num : Type} (read : string -> option (num * string))
  (print : num -> string) (v : value num) : Prop :=
  forall fuel rest,
    need v <= fuel -> closes rest = true ->
    element read fuel (stringify print v +:+ rest) = Some (v, rest).

(** *** A store

    One bucket [images] with two objects; the bucket [vault] refuses
    every request. *)
Definition getObject (bucket key : string)
  : S3.GetObjectOutput Empty_set + S3.Error Z :=
  if String.eqb bucket "images" && String.eqb key "cats/tom.png" then
    inl {| S3.Body := [x89; x50; x4e; x47];
           S3.ContentType := Some "image/png";
           S3.Expires := None;
           S3.LastModified := None;
           S3.CacheControl := None |}
  else if String.eqb bucket "images" && String.eqb key "raw.bin" then
    inl {| S3.Body := [x00];
           S3.ContentType := None;
           S3.Expires := None;
           S3.LastModified := None;
           S3.CacheControl := Some "no-cache" |}
  else if String.eqb bucket "vault" then
    inr {| S3.code := JStr "AccessDenied";
           S3.message := JStr "Access Denied" |}
  else
    inr {| S3.code := JStr "NoSuchKey";
           S3.message := JStr "The specified key does not exist." |}.

End Reference.

(** ** A runtime with the numbers of JavaScript

    The numbers of JavaScript are the values of the binary64 format of
    IEEE 754.  This runtime is the reference runtime with these numbers
    in place of the integers: a numeral is read as the number nearest to
    its decimal value, ties going to the even significand, and a number
    is printed with the fewest digits that are read back as that number
    ([Number::toString] of ECMAScript). *)

Module Binary64.

Import Reference.

Local Open Scope Z_scope.

(** *** The numbers

    [Finite s m e] is [m * 2^e], negated when [s] holds.  The values of
    the format are the ones with [binary64 m e]: 53 bits at most, and
    fewer only at the least exponent. *)
Inductive number : Type :=
| Zero (negative : bool)
| Finite (negative : bool) (m e : Z)
| Infinity (negative : bool)
| NaN.

Definition binary64 (m e : Z) : Prop :=
  0 < m < 2 ^ 53 /\ -1074 <= e <= 971 /\ (e = -1074 \/ 2 ^ 52 <= m).

(** The same value of the format (not [==], which tells [NaN] from
    itself and does not tell the zeros apart). *)
Definition same (x y : number) : bool :=
  match x, y with
  | Zero a, Zero b => Bool.eqb a b
  | Finite a m e, Finite b m' e' => Bool.eqb a b && (m =? m') && (e =? e')
  | Infinity a, Infinity b => Bool.eqb a b
  | NaN, NaN => true
  | _, _ => false
  end.

Definition truthy (x : number) : bool :=
  match x with
  | Zero _ | NaN => false
  | _ => true
  end.

(** *** Rounding

    [nearest s p q] is the number nearest to the ratio [p / q] of a
    natural number and a positive one.  The ratio is counted in units of
    [2^-1074], the least positive number: [E] is the exponent of the
    result above [-1074], and the quotient by [2^E] is rounded to the
    nearest integer, to the even one from the middle. *)
Definition nearest (negative : bool) (p q : Z) : number :=
  let a := p * 2 ^ 1074 in
  let E := Z.max 0 (Z.log2 (a / q) - 52) in
  let d := q * 2 ^ E in
  let m := a / d in
  let r := a mod d in
  let m := if 2 * r <? d then m
           else if d <? 2 * r then m + 1
           else if Z.even m then m else m + 1 in
  let (m, E) := if m =? 2 ^ 53 then (2 ^ 52, E + 1) else (m, E) in
  if m =? 0 then Zero negative
  else if 2045 <? E then Infinity negative
  else Finite negative m (E - 1074).

(** [10^g] as a ratio of two positive integers. *)
Definition power_of_ten (g : Z) : Z * Z :=
  if 0 <=? g then (10 ^ g, 1) else (1, 10 ^ (- g)).

(** The number for the decimal [d * 10^g]. *)
Definition of_decimal (negative : bool) (d g : Z) : number :=
  let (u, v) := power_of_ten g in nearest negative (d * u) v.

(** *** Reading a numeral

    The numerals of JSON: an optional sign, an integer without a
    superfluous zero, an optional fraction and an optional exponent. *)

(** The digits at the head of a text: they continue the significand
    [acc] and lower the exponent [g]. *)
Fixpoint decimals (acc g : Z) (s : string) : Z * Z * string :=
  match s with
  | String c s' =>
      match digit c with
      | Some d => decimals (acc * 10 + Z.of_N d) (g - 1) s'
      | None => (acc, g, s)
      end
  | EmptyString => (acc, g, s)
  end.

(** One digit at least. *)
Definition some_decimals (acc : Z) (s : string) : option (Z * Z * string) :=
  match s with
  | String c _ =>
      match digit c with
      | Some _ => Some (decimals acc 0 s)
      | None => None
      end
  | EmptyString => None
  end.

Definition integer (s : string) : option (Z * string) :=
  match s with
  | String c s' =>
      match digit c with
      | Some 0%N =>
          match s' with
          | String c' _ =>
              match digit c' with
              | Some _ => None
              | None => Some (0, s')
              end
          | EmptyString => Some (0, s')
          end
      | Some d => let '(i, _, r) := decimals (Z.of_N d) 0 s' in Some (i, r)
      | None => None
      end
  | EmptyString => None
  end.

(** The significand with the digits of the fraction, and the exponent
    that they lower. *)
Definition fraction (i : Z) (s : string) : option (Z * Z * string) :=
  match s with
  | String "." s' => some_decimals i s'
  | _ => Some (i, 0, s)
  end.

Definition exponent (s : string) : option (Z * string) :=
  match s with
  | String c s' =>
      if Ascii.eqb c "e" || Ascii.eqb c "E" then
        match s' with
        | String "-" s'' =>
            match some_decimals 0 s'' with
            | Some (x, _, r) => Some (- x, r)
            | None => None
            end
        | String "+" s'' =>
            match some_decimals 0 s'' with
            | Some (x, _, r) => Some (x, r)
            | None => None
            end
        | _ =>
            match some_decimals 0 s' with
            | Some (x, _, r) => Some (x, r)
            | None => None
            end
        end
      else Some (0, s)
  | EmptyString => Some (0, s)
  end.

Definition unsigned (negative : bool) (s : string)
  : option (number * string) :=
  match integer s with
  | Some (i, r) =>
      match fraction i r with
      | Some (d, g, r) =>
          match exponent r with
          | Some (x, r) => Some (of_decimal negative d (x + g), r)
          | None => None
          end
      | None => None
      end
  | None => None
  end.

Definition literal (s : string) : option (number * string) :=
  match s with
  | String "-" s' => unsigned true s'
  | _ => unsigned false s
  end.

(** *** Printing a number *)

(** The finite number [m * 2^e] in units of [2^-1074]. *)
Definition units (m e : Z) : Z := m * 2 ^ (e + 1074).

(** [x < 10^n], for [x] in units. *)
Definition below (x n : Z) : bool :=
  let (u, v) := power_of_ten n in x * v <? u * 2 ^ 1074.

(** The least [n] from [n] on with [x < 10^n]. *)
Fixpoint magnitude (fuel : nat) (n x : Z) : Z :=
  match fuel with
  | O => n
  | S fuel' => if below x n then n else magnitude fuel' (n + 1) x
  end.

(** The decimals [s * 10^(n-k)] with [k] digits next to [x], which lies
    between [10^(n0-1)] and [10^n0]: the one below and the one above,
    the nearer first, and the even one first when they are as near.
    Each is given as [(s, n)]. *)
Definition candidates (x n0 k : Z) : list (Z * Z) :=
  let (u, v) := power_of_ten (n0 - k) in
  let unit := 2 ^ 1074 * u in
  let lo := (x * v) / unit in
  let r := (x * v) mod unit in
  let hi := lo + 1 in
  let above := if hi =? 10 ^ k then (10 ^ (k - 1), n0 + 1) else (hi, n0) in
  if 2 * r <? unit then [(lo, n0); above]
  else if unit <? 2 * r then [above; (lo, n0)]
  else if Z.even lo then [(lo, n0); above]
  else [above; (lo, n0)].

(** The first candidate that is read as [m * 2^e], for the least number
    of digits among [ks]. *)
Fixpoint search (m e n0 : Z) (ks : list Z) : option (Z * Z * Z) :=
  match ks with
  | [] => None
  | k :: ks' =>
      match List.find
              (fun c => same (of_decimal false (fst c) (snd c - k))
                          (Finite false m e))
              (candidates (units m e) n0 k) with
      | Some (s, n) => Some (s, k, n)
      | None => search m e n0 ks'
      end
  end.

(** The integers [s], [k] and [n] of [Number::toString]: [s] has [k]
    digits, [s * 10^(n-k)] is read as the number, and [k] is as small as
    possible.  Seventeen digits are always enough. *)
Definition shortest (m e : Z) : Z * Z * Z :=
  let n0 := magnitude 632 (-323) (units m e) in
  match search m e n0 [1; 2; 3; 4; 5; 6; 7; 8; 9; 10; 11; 12; 13; 14; 15; 16;
                        17] with
  | Some r => r
  | None =>
      match candidates (units m e) n0 17 with
      | (s, n) :: _ => (s, 17, n)
      | [] => (0, 1, 0)
      end
  end.

Definition digit_character (d : Z) : ascii := ascii_of_N (48 + Z.to_N d).

(** The [k] last digits of [s], before [tail]. *)
Fixpoint decimal (k : nat) (s : Z) (tail : string) : string :=
  match k with
  | O => tail
  | S k' => decimal k' (s / 10) (String (digit_character (s mod 10)) tail)
  end.

(** The number of digits of a natural number. *)
Fixpoint width (fuel : nat) (n : Z) : nat :=
  match fuel with
  | O => 1
  | S fuel' => if n <? 10 then 1%nat else S (width fuel' (n / 10))
  end.

Definition natural_text (n : Z) (tail : string) : string :=
  decimal (width (Z.to_nat n) n) n tail.

(** The text for the digits [s], their number [k] and the place [n] of
    the point: the digits and zeros up to the point; the digits around
    the point; zeros between the point and the digits; or one digit, the
    others as a fraction, and the exponent [n - 1] with its sign. *)
Definition format (s k n : Z) : string :=
  if (k <=? n) && (n <=? 21) then
    decimal (Z.to_nat k) s (decimal (Z.to_nat (n - k)) 0 "")
  else if (0 <? n) && (n <=? 21) then
    decimal (Z.to_nat n) (s / 10 ^ (k - n))
      (String "." (decimal (Z.to_nat (k - n)) (s mod 10 ^ (k - n)) ""))
  else if (-6 <? n) && (n <=? 0) then
    String "0" (String "." (decimal (Z.to_nat (- n)) 0
                              (decimal (Z.to_nat k) s "")))
  else
    let e := n - 1 in
    let power :=
      String "e" (String (if e <? 0 then "-"%char else "+"%char)
                    (natural_text (Z.abs e) "")) in
    if k =? 1 then decimal 1 s power
    else decimal 1 (s / 10 ^ (k - 1))
           (String "." (decimal (Z.to_nat (k - 1)) (s mod 10 ^ (k - 1))
                          power)).

(** [Number::toString] *)
Definition toString (x : number) : string :=
  match x with
  | NaN => "NaN"
  | Zero _ => "0"
  | Infinity negative => if negative then "-Infinity" else "Infinity"
  | Finite negative m e =>
      let '(s, k, n) := shortest m e in
      if negative then String "-" (format s k n) else format s k n
  end.

(** *** [JSON.parse] and [JSON.stringify] *)

Definition from_JSON : string -> option (value number) := parse literal.

(** A number that is not finite is written [null]. *)
Definition number_text (x : number) : string :=
  match x with
  | Infinity _ | NaN => "null"
  | _ => toString x
  end.

Definition to_JSON : value number -> string := stringify number_text.

(** *** The runtime *)

#[global] Instance platform : Runtime number | 10 :=
  Build_Runtime number truthy toString regexp RegExp_new
    RegExp_exec Buffer_from_base64 Buffer_toString from_JSON
    Empty_set (fun d => match d with end).

(** [Buffer.from(JSON.stringify(v)).toString('base64')] *)
Definition edits_parameter (v : value number) : string :=
  Buffer_to_base64 (Buffer_from (to_JSON v)).

(** *** The values that a client can encode

    The numbers that come back are the finite ones but the negative
    zero, which is written [0]. *)
Definition exact (x : number) : Prop :=
  match x with
  | Zero negative => negative = false
  | Finite _ m e => binary64 m e
  | _ => False
  end.

Definition finite_data : value number -> Prop := data exact.

Definition sendable (v : value number) : Prop :=
  finite_data v /\ json_text v.

(** *** Notions for the proofs about the numbers *)

(** The ratio [p / q], in units of [2^-1074], is nearer to [m * 2^E]
    than to the numbers next to it. *)
Definition within (m E p q : Z) : Prop :=
  (2 * m - 1) * 2 ^ E * q < 2 * (p * 2 ^ 1074) < (2 * m + 1) * 2 ^ E * q
  /\ (m = 2 ^ 52 -> 0 < E ->
      (4 * m - 1) * 2 ^ E * q < 4 * (p * 2 ^ 1074)).

(** A text that does not start with a digit. *)
Definition stops (s : string) : bool :=
  match s with
  | String c _ => match digit c with Some _ => false | None => true end
  | EmptyString => true
  end.

End Binary64.

(** ** Notions used by the statements *)

(** The request accepts WebP: its [Accept] header contains
    [image/webp]. *)
Definition accepts_webp (event : Event) : bool :=
  match headers event with
  | Some h =>
      match h !! "Accept" with
      | Some accept => JsString.str_includes "image/webp" accept
      | None => false
      end
  | None => false
  end.

(** The negotiation is enabled: [AUTO_WEBP] is set to a text that is not
    empty. *)
Definition auto_webp (env : Env) : bool := truthy_string (AUTO_WEBP env).

Definition is_codec (k : string) : bool :=
  JsString.includes k acceptedValues.

(** The codec keys of an object, and their number. *)
Definition quality_keys_of {num : Type} (props : list (string * value num))
  : list string :=
  List.filter is_codec (map fst props).

Definition quality_count {num : Type} (props : list (string * value num))
  : nat :=
  length (quality_keys_of props).

(** The well-formed objects: no key is held twice. *)
Definition object_wf {num : Type} (props : list (string * value num))
  : Prop :=
  List.NoDup (map fst props).

(** The errors of the class, under the names of the specification. *)
Section NamedErrors.

Context {num : Type}.

Definition ConfigurationError : exn num :=
  ErrorObject 400 (JStr "GetAllowedSourceBuckets::NoSourceBuckets")
    (JStr "The SOURCE_BUCKETS variable could not be read. Please check that it is not empty and contains at least one source bucket, or multiple buckets separated by commas. Spaces can be provided between commas and bucket names, these will be automatically parsed out when decoding.").

Definition AccessDenied : exn num :=
  ErrorObject 403 (JStr "ImageBucket::CannotAccessBucket")
    (JStr "The bucket you specified could not be accessed. Please check that the bucket is specified in your SOURCE_BUCKETS.").

Definition BucketNotFound : exn num :=
  ErrorObject 404 (JStr "ImageBucket::CannotFindBucket")
    (JStr "The bucket you specified could not be found. Please check the spelling of the bucket name in your request.").

Definition ImageNotFound : exn num :=
  ErrorObject 404 (JStr "ImageEdits::CannotFindImage")
    (JStr "The image you specified could not be found. Please check your request syntax as well as the bucket you specified to ensure it exists.").

Definition EditsParseError : exn num :=
  ErrorObject 400 (JStr "DecodeRequest::CannotDecodeRequest")
    (JStr "The image request you provided could not be decoded. Please check that your request is base64 encoded properly and refer to the documentation for additional guidance.").

(** The [status] field of what was thrown, when it has one. *)
Definition status_of (e : exn num) : option Z :=
  match e with
  | ErrorObject status _ _ => Some status
  | NativeError _ => None
  end.

End NamedErrors.

(** The first white space character of a text is taken off: the rest of
    the text, or [None] when the text does not start with white space. *)
Definition head_space (s : string) : option string :=
  match s with
  | EmptyString => None
  | String c1 t1 =>
      if JsString.space1 c1 then Some t1
      else
        match t1 with
        | EmptyString => None
        | String c2 t2 =>
            if JsString.space2 c1 c2 then Some t2
            else
              match t2 with
              | EmptyString => None
              | String c3 t3 =>
                  if JsString.space3 c1 c2 c3 then Some t3 else None
              end
        end
  end.

(** No character of the text is [c]. *)
Fixpoint free_of (c : ascii) (s : string) : bool :=
  match s with
  | EmptyString => true
  | String x s' => negb (Ascii.eqb x c) && free_of c s'
  end.

(** *** The whitelist as the specification words it

    The entries between the commas, each without the white space around
    it. *)
Module Claimed.

Fixpoint trim_start (s : string) : string :=
  match s with
  | EmptyString => EmptyString
  | String c1 t1 =>
      if JsString.space1 c1 then trim_start t1
      else
        match t1 with
        | String c2 t2 =>
            if JsString.space2 c1 c2 then trim_start t2
            else
              match t2 with
              | String c3 t3 =>
                  if JsString.space3 c1 c2 c3 then trim_start t3 else s
              | EmptyString => s
              end
        | EmptyString => s
        end
  end.

Fixpoint trim_end (s : string) : string :=
  match s with
  | EmptyString => EmptyString
  | String c s' =>
      if String.eqb (JsString.remove_whitespace s) "" then EmptyString
      else String c (trim_end s')
  end.

Definition trim (s : string) : string := trim_end (trim_start s).

Definition whitelist (configured : string) : list string :=
  map trim (JsString.split "," configured).

End Claimed.

(** ** Requests used as examples *)

Module Examples.

(** The prefix is the leading slash of the path. *)
Definition env : Env :=
  {| PATH_PREFIX := Some "/";
     SOURCE_BUCKETS := Some "images, thumbnails ,vault";
     AUTO_WEBP := Some "Yes" |}.

(** The same, with an empty prefix: nothing is stripped. *)
Definition env_no_prefix : Env :=
  {| PATH_PREFIX := Some "";
     SOURCE_BUCKETS := Some "images, thumbnails ,vault";
     AUTO_WEBP := Some "Yes" |}.

(** The same as [env], without negotiation. *)
Definition env_no_webp : Env :=
  {| PATH_PREFIX := Some "/";
     SOURCE_BUCKETS := Some "images, thumbnails ,vault";
     AUTO_WEBP := None |}.

Definition request (p : string) (edits : option string)
  (accept : option string) : Event :=
  {| path := p;
     queryStringParameters :=
       match edits with
       | Some e => Some {[ "edits" := e ]}
       | None => None
       end;
     headers :=
       Some match accept with
            | Some a => {[ "Accept" := a ]}
            | None => ∅
            end |}.

(** [{ resize: { width: 100 }, caption: 'Grüße' }] and its encoding. *)
Definition resize_edits : list (string * value Z) :=
  [("resize", JObj [("width", JNum 100%Z)]); ("caption", JStr "Grüße")].

Definition resize_encoded : string :=
  Eval vm_compute in Reference.encode (JObj resize_edits).

(** [{ toFormat: '', outputFormat: 'png' }] and its encoding. *)
Definition blank_format_edits : list (string * value Z) :=
  [("toFormat", JStr ""); ("outputFormat", JStr "png")].

Definition blank_format_encoded : string :=
  Eval vm_compute in Reference.encode (JObj blank_format_edits).

(** [{ toFormat: 'tiff', outputFormat: 'png' }] and its encoding. *)
Definition tiff_edits : list (string * value Z) :=
  [("toFormat", JStr "tiff"); ("outputFormat", JStr "png")].

Definition tiff_encoded : string :=
  Eval vm_compute in Reference.encode (JObj tiff_edits).

(** A request for [images/cats/tom.png] that accepts WebP and asks for
    TIFF, and its descriptor. *)
Definition tiff_request : Event :=
  request "/images/cats/tom.png" (Some tiff_encoded) (Some "image/webp,*/*").

Definition tiff_descriptor : ImageRequest Z :=
  {| requestType := Some "Default";
     bucket := Some "images";
     key := Some "cats/tom.png";
     edits := JObj tiff_edits;
     originalImage := Some [x89; x50; x4e; x47];
     outputFormat := JStr "tiff";
     ContentType := Some "image/tiff";
     Expires := None;
     LastModified := None;
     CacheControl := Some "max-age=31536000,public" |}.

(** A request for [images/raw.bin] with the resize edits, and its
    descriptor. *)
Definition resize_request : Event :=
  request "/images/raw.bin" (Some resize_encoded) None.

Definition resize_descriptor : ImageRequest Z :=
  {| requestType := Some "Default";
     bucket := Some "images";
     key := Some "raw.bin";
     edits := JObj resize_edits;
     originalImage := Some [x00];
     outputFormat := JUndefined;
     ContentType := Some "image";
     Expires := None;
     LastModified := None;
     CacheControl := Some "no-cache" |}.

(** A request whose [toFormat] is the empty text, and its descriptor. *)
Definition blank_format_request : Event :=
  request "/images/cats/tom.png" (Some blank_format_encoded) None.

Definition blank_format_descriptor : ImageRequest Z :=
  {| requestType := Some "Default";
     bucket := Some "images";
     key := Some "cats/tom.png";
     edits := JObj blank_format_edits;
     originalImage := Some [x89; x50; x4e; x47];
     outputFormat := JStr "png";
     ContentType := Some "image/png";
     Expires := None;
     LastModified := None;
     CacheControl := Some "max-age=31536000,public" |}.

End Examples.

(** ** Further notions *)

(** No character of the text is an ASCII white space character. *)
Fixpoint free_of_space (s : string) : bool :=
  match s with
  | EmptyString => true
  | String c s' => negb (JsString.space1 c) && free_of_space s'
  end.

(** The number of occurrences of [c] in a text. *)
Fixpoint occurrences (c : ascii) (s : string) : nat :=
  match s with
  | EmptyString => 0
  | String x s' => (if Ascii.eqb x c then 1 else 0) + occurrences c s'
  end.

(** What the fetch assigns for a stored object: its content type and its
    cache control when they are texts that are not empty, the defaults
    otherwise. *)
Definition stored_type {date : Type} (o : S3.GetObjectOutput date)
  : string :=
  match S3.ContentType o with
  | Some t => if String.eqb t "" then "image" else t
  | None => "image"
  end.

Definition stored_cache_control {date : Type} (o : S3.GetObjectOutput date)
  : string :=
  match S3.CacheControl o with
  | Some c => if String.eqb c "" then "max-age=31536000,public" else c
  | None => "max-age=31536000,public"
  end.

(** The event with other headers. *)
Definition with_headers (h : option (gmap string string)) (event : Event)
  : Event :=
  {| path := path event;
     queryStringParameters := queryStringParameters event;
     headers := h |}.

(** The error of [parseImageEdits] for a request type that is not
    [Default]. *)
Definition EditsRefused {num : Type} : exn num :=
  ErrorObject 400 (JStr "ImageEdits::CannotParseEdits")
    (JStr "The edits you provided could not be parsed. Please check the syntax of your request and refer to the documentation for additional guidance.").

(** A bucket that the whitelist [W] allows: an entry of [W], or a text
    that matches the first entry of [W], anchored, as a pattern. *)
Definition allowed_bucket {num : Type} `{!Runtime num} (W : list string)
  (b : string) : Prop :=
  In b W
  \/ exists re,
       RegExp_new ("^" +:+ JsString.first W +:+ "$") = Some re
       /\ is_Some (RegExp_exec re b).

(** The descriptor that [setup] assembles from the bucket, the key, the
    edits, the stored object and the result of the negotiation, on the
    descriptor [this]. *)
Definition assembled {num : Type} `{!Runtime num} (b k : string)
  (e : value num) (o : S3.GetObjectOutput date) (out : value num)
  (this : ImageRequest num) : ImageRequest num :=
  let format :=
    if ToBoolean (own e "toFormat") then own e "toFormat"
    else if ToBoolean out then out
    else outputFormat this in
  {| requestType := Some "Default";
     bucket := Some b;
     key := Some k;
     edits := e;
     originalImage := Some (S3.Body o);
     outputFormat := format;
     ContentType :=
       Some (if ToBoolean format then "image/" +:+ ToString format
             else stored_type o);
     Expires :=
       match S3.Expires o with
       | Some d => Some (Date_toUTCString d)
       | None => Expires this
       end;
     LastModified :=
       match S3.LastModified o with
       | Some d => Some (Date_toUTCString d)
       | None => LastModified this
       end;
     CacheControl := Some (stored_cache_control o) |}.

(** ** Further requests and environments *)

Module Cases.

(** No variable is set. *)
Definition env_unset : Env :=
  {| PATH_PREFIX := None; SOURCE_BUCKETS := None; AUTO_WEBP := None |}.

(** Only the whitelist is set. *)
Definition env_whitelist_only : Env :=
  {| PATH_PREFIX := None;
     SOURCE_BUCKETS := Some "images";
     AUTO_WEBP := None |}.

(** The prefix is not a pattern. *)
Definition env_refused_prefix : Env :=
  {| PATH_PREFIX := Some "*";
     SOURCE_BUCKETS := Some "images";
     AUTO_WEBP := None |}.

(** The prefix is set, the whitelist is not. *)
Definition env_no_whitelist : Env :=
  {| PATH_PREFIX := Some "/"; SOURCE_BUCKETS := None; AUTO_WEBP := None |}.

(** A whitelist with an empty entry in the middle and one at the end. *)
Definition env_empty_entries : Env :=
  {| PATH_PREFIX := Some "/";
     SOURCE_BUCKETS := Some "images,, vault,";
     AUTO_WEBP := None |}.

(** The descriptor of the resize request, when [setup] runs on the
    descriptor that the TIFF request left. *)
Definition reused_descriptor : ImageRequest Z :=
  {| requestType := Some "Default";
     bucket := Some "images";
     key := Some "raw.bin";
     edits := JObj Examples.resize_edits;
     originalImage := Some [x00];
     outputFormat := JStr "tiff";
     ContentType := Some "image/tiff";
     Expires := None;
     LastModified := None;
     CacheControl := Some "no-cache" |}.

(** Edits that are an array: [['blur', 5]]. *)
Definition list_edits : value Z := JArr [JStr "blur"; JNum 5%Z].

(** [{ toFormat: { toString: 1 } }], a format that has no text, and its
    encoding. *)
Definition method_edits : list (string * value Z) :=
  [("toFormat", JObj [("toString", JNum 1%Z)])].

Definition method_encoded : string :=
  Eval vm_compute in Reference.encode (JObj method_edits).

(** An event that has a path only. *)
Definition bare_request (p : string) : Event :=
  {| path := p; queryStringParameters := None; headers := None |}.

End Cases.

(** ** Edits with fractions *)

Module Fractions.

(** [100], [62.5], [-90], [0.3] and [0.5]. *)
Definition hundred : Binary64.number :=
  Binary64.Finite false 7036874417766400 (-46).

Definition sixty_two_and_a_half : Binary64.number :=
  Binary64.Finite false 8796093022208000 (-47).

Definition minus_ninety : Binary64.number :=
  Binary64.Finite true 6333186975989760 (-46).

Definition three_tenths : Binary64.number :=
  Binary64.Finite false 5404319552844595 (-54).

Definition half : Binary64.number :=
  Binary64.Finite false 4503599627370496 (-53).

(** [{ resize: { width: 100, height: 62.5 }, rotate: -90, blur: 0.3,
       caption: 'Grüße' }] and its encoding, which is the base64 form of
    [{"resize":{"width":100,"height":62.5},"rotate":-90,"blur":0.3,"caption":"Grüße"}]. *)
Definition blur_edits : list (string * value Binary64.number) :=
  [("resize", JObj [("width", JNum hundred);
                    ("height", JNum sixty_two_and_a_half)]);
   ("rotate", JNum minus_ninety);
   ("blur", JNum three_tenths);
   ("caption", JStr "Grüße")].

Definition blur_encoded : string :=
  "eyJyZXNpemUiOnsid2lkdGgiOjEwMCwiaGVpZ2h0Ijo2Mi41fSwicm90YXRlIjotOTAsImJsdXIiOjAuMywiY2FwdGlvbiI6Ikdyw7zDn2UifQ==".

Definition blur_request : Event :=
  Examples.request "/images/raw.bin" (Some blur_encoded) None.

(** The base64 form of [{"quality":0.5}]. *)
Definition quality_encoded : string := "eyJxdWFsaXR5IjowLjV9".

End Fractions.

(** * Properties *)

(** ** Splitting and joining *)

Section SplitFacts.

Variable c : ascii.

Lemma split_nonempty (s : string) : JsString.split c s <> [].
Proof.
  destruct s as [|x s]; simpl; [discriminate|].
  destruct (Ascii.eqb x c); [discriminate|].
  destruct (JsString.split c s); discriminate.
Qed.

Lemma first_split (s : string) :
  JsString.first (JsString.split c s) = JsString.before c s.
Proof.
  induction s as [|x s IH]; simpl; [reflexivity|].
  destruct (Ascii.eqb x c); [reflexivity|].
  destruct (JsString.split c s) as [|seg segs] eqn:E.
  - now destruct (split_nonempty s).
  - simpl in *. now rewrite IH.
Qed.

Lemma join_split (s : string) :
  JsString.join (String c EmptyString) (JsString.split c s) = s.
Proof.
  induction s as [|x s IH]; simpl; [reflexivity|].
  destruct (Ascii.eqb_spec x c) as [->|_].
  - destruct (JsString.split c s) as [|seg segs] eqn:E.
    + now destruct (split_nonempty s).
    + simpl in *. now rewrite IH.
  - destruct (JsString.split c s) as [|seg segs] eqn:E.
    + now destruct (split_nonempty s).
    + destruct segs; simpl in *; now rewrite <- IH.
Qed.

Lemma join_rest_split (s : string) :
  JsString.join (String c EmptyString)
    (JsString.slice1 (JsString.split c s)) = JsString.after c s.
Proof.
  induction s as [|x s IH]; simpl; [reflexivity|].
  destruct (Ascii.eqb x c).
  - apply join_split.
  - destruct (JsString.split c s) as [|seg segs] eqn:E.
    + now destruct (split_nonempty s).
    + exact IH.
Qed.

(** The first segment of [b ++ c ++ k] is [b] when [b] holds no [c]. *)
Lemma before_prefix (b k : string) :
  free_of c b = true ->
  JsString.before c (b +:+ String c k) = b.
Proof.
  induction b as [|x b IH]; simpl.
  - intros _. now rewrite Ascii.eqb_refl.
  - intros H. apply andb_prop in H as [Hx Hb].
    destruct (Ascii.eqb x c); [discriminate|]. now rewrite IH.
Qed.

End SplitFacts.

(** ** Objects as lists of properties *)

Section ObjectFacts.

Context {num : Type}.

Implicit Types (props : list (string * value num)) (k q : string).

Lemma lookup_set_prop_eq k (v : value num) props :
  lookup_prop k (set_prop k v props) = Some v.
Proof.
  induction props as [|[k' v'] props IH]; simpl.
  - now rewrite String.eqb_refl.
  - destruct (String.eqb k' k) eqn:E; simpl.
    + now rewrite String.eqb_refl.
    + now rewrite E.
Qed.

Lemma lookup_delete_prop_eq q props :
  lookup_prop q (delete_prop q props) = None.
Proof.
  induction props as [|[k' v'] props IH]; simpl; [reflexivity|].
  destruct (String.eqb k' q) eqn:E; simpl; [exact IH|].
  now rewrite E.
Qed.

Lemma lookup_delete_prop_ne k q props :
  k <> q -> lookup_prop k (delete_prop q props) = lookup_prop k props.
Proof.
  intros Hne.
  induction props as [|[k' v'] props IH]; simpl; [reflexivity|].
  destruct (String.eqb_spec k' q) as [->|Hq]; simpl.
  - destruct (String.eqb_spec q k) as [->|_]; [congruence|exact IH].
  - now rewrite IH.
Qed.

Lemma lookup_prop_In k props :
  In k (map fst props) -> is_Some (lookup_prop k props).
Proof.
  induction props as [|[k' v'] props IH]; simpl; [tauto|].
  intros [->|H].
  - rewrite String.eqb_refl. eauto.
  - destruct (String.eqb k' k); eauto.
Qed.

Lemma keys_set_prop_in k (v : value num) props :
  In k (map fst props) -> map fst (set_prop k v props) = map fst props.
Proof.
  induction props as [|[k' v'] props IH]; simpl; [tauto|].
  destruct (String.eqb_spec k' k) as [->|Hne]; simpl; [reflexivity|].
  intros [?|H]; [congruence|]. now rewrite IH.
Qed.

Lemma keys_set_prop_fresh k (v : value num) props :
  ~ In k (map fst props) ->
  map fst (set_prop k v props) = map fst props ++ [k].
Proof.
  induction props as [|[k' v'] props IH]; simpl; [reflexivity|].
  destruct (String.eqb_spec k' k) as [->|Hne]; simpl; [tauto|].
  intros H. rewrite IH; tauto.
Qed.

Lemma keys_delete_prop q props :
  map fst (delete_prop q props)
  = List.filter (fun k => negb (String.eqb k q)) (map fst props).
Proof.
  induction props as [|[k' v'] props IH]; simpl; [reflexivity|].
  destruct (String.eqb k' q); simpl; now rewrite IH.
Qed.

Lemma set_prop_wf k (v : value num) props :
  object_wf props -> object_wf (set_prop k v props).
Proof.
  unfold object_wf. intros H.
  destruct (in_dec string_dec k (map fst props)) as [Hin|Hout].
  - now rewrite keys_set_prop_in.
  - rewrite keys_set_prop_fresh by assumption.
    apply List.NoDup_app; [exact H| |].
    + constructor; [simpl; tauto|constructor].
    + intros a Ha [<-|[]]. tauto.
Qed.

Lemma delete_prop_wf q props :
  object_wf props -> object_wf (delete_prop q props).
Proof.
  unfold object_wf. rewrite keys_delete_prop. apply List.NoDup_filter.
Qed.

(** Counting the codec keys. *)
Lemma quality_count_set_prop k (v : value num) props :
  quality_count (set_prop k v props) <= S (quality_count props).
Proof.
  unfold quality_count, quality_keys_of.
  destruct (in_dec string_dec k (map fst props)) as [Hin|Hout].
  - rewrite keys_set_prop_in by assumption. lia.
  - rewrite keys_set_prop_fresh by assumption.
    rewrite List.filter_app, length_app. simpl.
    destruct (is_codec k); simpl; lia.
Qed.

Lemma quality_count_delete_prop q props :
  is_codec q = true -> In q (map fst props) ->
  S (quality_count (delete_prop q props)) <= quality_count props.
Proof.
  unfold quality_count, quality_keys_of. rewrite keys_delete_prop.
  intros Hq.
  assert (Hle : forall ks,
    length (List.filter is_codec
              (List.filter (fun k => negb (String.eqb k q)) ks))
    <= length (List.filter is_codec ks)).
  { induction ks as [|k ks IH]; simpl; [lia|].
    destruct (String.eqb k q); simpl; destruct (is_codec k); simpl; lia. }
  induction (map fst props) as [|k ks IH]; simpl; [tauto|].
  intros [->|Hin].
  - rewrite String.eqb_refl, Hq. simpl. specialize (Hle ks). lia.
  - specialize (IH Hin).
    destruct (String.eqb k q); simpl; destruct (is_codec k); simpl; lia.
Qed.

Lemma In_keys_set_prop k q (v : value num) props :
  In q (map fst props) -> In q (map fst (set_prop k v props)).
Proof.
  intros H.
  destruct (in_dec string_dec k (map fst props)) as [Hin|Hout].
  - now rewrite keys_set_prop_in.
  - rewrite keys_set_prop_fresh by assumption. apply in_or_app. now left.
Qed.

End ObjectFacts.

(** ** The order of [Object.keys] and the codec keys *)

Lemma is_codec_In (k : string) : is_codec k = true -> In k acceptedValues.
Proof.
  unfold is_codec, JsString.includes. intros H.
  apply existsb_exists in H as (x & Hx & E).
  apply String.eqb_eq in E. now subst.
Qed.

Lemma In_is_codec (k : string) : In k acceptedValues -> is_codec k = true.
Proof.
  unfold is_codec, JsString.includes. intros H.
  apply existsb_exists. exists k. split; [exact H|apply String.eqb_refl].
Qed.

Lemma codec_not_index (k : string) :
  is_codec k = true -> Keys.is_index k = false.
Proof.
  intros H. apply is_codec_In in H. simpl in H.
  repeat (destruct H as [<-|H]; [reflexivity|]). destruct H.
Qed.

Lemma codec_not_empty (k : string) : is_codec k = true -> k <> "".
Proof. intros H ->. discriminate H. Qed.

Lemma In_insert_index (x k : string) (l : list string) :
  In x (Keys.insert_index k l) -> k = x \/ In x l.
Proof.
  induction l as [|k' l IH]; simpl; [tauto|].
  destruct (N.leb (Keys.index_value k) (Keys.index_value k')); simpl;
    intuition auto.
Qed.

Lemma In_sort_indices (x : string) (l : list string) :
  In x (Keys.sort_indices l) -> In x l.
Proof.
  induction l as [|k l IH]; simpl; [tauto|].
  intros H. apply In_insert_index in H. tauto.
Qed.

Lemma filter_none {A : Type} (P : A -> bool) (l : list A) :
  (forall x, In x l -> P x = false) -> List.filter P l = [].
Proof.
  induction l as [|a l IH]; simpl; [reflexivity|].
  intros H. rewrite (H a) by tauto. apply IH. intros x Hx. apply H. tauto.
Qed.

(** Sorting the indices first does not change which codec keys come in
    which order: no codec name is an index. *)
Lemma filter_codec_ordered (ks : list string) :
  List.filter is_codec (Keys.ordered ks) = List.filter is_codec ks.
Proof.
  unfold Keys.ordered. rewrite List.filter_app.
  rewrite filter_none.
  - simpl. induction ks as [|k ks IH]; simpl; [reflexivity|].
    destruct (is_codec k) eqn:E.
    + rewrite (codec_not_index k E). simpl. now rewrite E, IH.
    + destruct (Keys.is_index k); simpl; now rewrite ?E, IH.
  - intros x Hx. apply In_sort_indices, filter_In in Hx as [_ Hx].
    destruct (is_codec x) eqn:E; [|reflexivity].
    now rewrite (codec_not_index x E) in Hx.
Qed.

Lemma index_key_not_codec (n : nat) : is_codec (Keys.index_key n) = false.
Proof.
  unfold Keys.index_key. now destruct (Nat.to_uint n).
Qed.

Lemma filter_codec_indices (n : nat) :
  List.filter is_codec (map Keys.index_key (seq 0 n)) = [].
Proof.
  apply filter_none. intros x Hx. apply in_map_iff in Hx as (i & <- & _).
  apply index_key_not_codec.
Qed.

(** ** The quality fix *)

Section QualityFix.

Context {num : Type} `{!Runtime num}.

Implicit Types (props : list (string * value num)) (fmt q : string).

Lemma quality_keys_object props :
  quality_keys (JObj props) = Ok (quality_keys_of props).
Proof.
  unfold quality_keys, quality_keys_of. simpl.
  f_equal. apply filter_codec_ordered.
Qed.

(** A value that is not an object has no codec key: the keys of an array
    and of a string are indices, a number and a boolean have none. *)
Lemma quality_keys_not_object (v : value num) :
  is_nullish v = false -> (forall props, v <> JObj props) ->
  quality_keys v = Ok [].
Proof.
  intros Hn Ho. unfold quality_keys.
  destruct v; simpl; try discriminate; try reflexivity.
  - f_equal. apply filter_codec_indices.
  - f_equal. apply filter_codec_indices.
  - now destruct (Ho props).
Qed.

Lemma includes_value_codec fmt :
  includes_value (JStr fmt : value num) acceptedValues = is_codec fmt.
Proof. reflexivity. Qed.

(** For a request type other than [Custom] and [Thumbor] the fix leaves
    the edits as they are. *)
Lemma fixQuality_other_type (t : string) (out e : value num) :
  JsString.includes t ["Custom"; "Thumbor"] = false ->
  fixQuality (Some t) out e = Ok e.
Proof. unfold fixQuality. now intros ->. Qed.

(** The fix on an object, for a request type and a format that enable
    it. *)
Lemma fixQuality_object (t fmt : string) props :
  In t ["Custom"; "Thumbor"] -> is_codec fmt = true ->
  fixQuality (Some t) (JStr fmt) (JObj props)
  = match quality_keys_of props with
    | q :: _ =>
        if String.eqb fmt q then Ok (JObj props)
        else Ok (JObj (delete_prop q
                         (set_prop fmt (own (JObj props) q) props)))
    | [] => Ok (JObj props)
    end.
Proof.
  intros Ht Hf. unfold fixQuality.
  replace (JsString.includes t ["Custom"; "Thumbor"]) with true
    by (destruct Ht as [<-|[<-|[]]]; reflexivity).
  rewrite includes_value_codec, Hf, quality_keys_object. simpl.
  destruct (quality_keys_of props) as [|q qs] eqn:E; simpl; [reflexivity|].
  assert (Hq : is_codec q = true).
  { assert (In q (quality_keys_of props)) as Hin by (rewrite E; now left).
    now apply filter_In in Hin. }
  destruct (String.eqb_spec q "") as [->|_]; [discriminate Hq|]. simpl.
  now destruct (String.eqb fmt q).
Qed.

(** C1, as amended.  For the request types [Custom] and [Thumbor] and a
    resolved format that is a codec name, the quality fix returns an object
    that holds no more codec keys than the edits did, hence at most one
    when the edits held at most one; and when the first codec key of the
    edits differs from the format, the result holds the value of that key
    under the format and no longer holds the key. *)
Theorem quality_fix_moves_first_key (t fmt : string) props :
  In t ["Custom"; "Thumbor"] ->
  In fmt acceptedValues ->
  object_wf props ->
  exists props',
    fixQuality (Some t) (JStr fmt) (JObj props) = Ok (JObj props')
    /\ object_wf props'
    /\ quality_count props' <= quality_count props
    /\ (quality_count props <= 1 -> quality_count props' <= 1)
    /\ (forall q,
          quality_keys_of props !! 0%nat = Some q -> q <> fmt ->
          is_Some (lookup_prop q props)
          /\ lookup_prop fmt props' = lookup_prop q props
          /\ lookup_prop q props' = None).
Proof.
  intros Ht Hf Hwf. apply In_is_codec in Hf.
  rewrite (fixQuality_object t fmt props Ht Hf).
  destruct (quality_keys_of props) as [|q qs] eqn:E.
  - exists props. split; [reflexivity|]. split; [exact Hwf|].
    split; [lia|]. split; [tauto|]. intros q [=].
  - assert (Hin : In q (quality_keys_of props)) by (rewrite E; now left).
    apply filter_In in Hin as [Hin Hq].
    destruct (String.eqb_spec fmt q) as [->|Hne].
    + exists props. split; [reflexivity|]. split; [exact Hwf|].
      split; [lia|]. split; [tauto|]. intros q' [= <-] Hq'. congruence.
    + destruct (lookup_prop_In q props Hin) as [v Hv].
      exists (delete_prop q (set_prop fmt (own (JObj props) q) props)).
      assert (Hle : quality_count
                (delete_prop q (set_prop fmt (own (JObj props) q) props))
              <= quality_count props).
      { pose proof (quality_count_set_prop fmt (own (JObj props) q) props).
        pose proof (quality_count_delete_prop q
                      (set_prop fmt (own (JObj props) q) props) Hq
                      (In_keys_set_prop fmt q _ props Hin)).
        lia. }
      split; [reflexivity|]. split.
      { apply delete_prop_wf, set_prop_wf, Hwf. }
      split; [exact Hle|]. split; [lia|].
      intros q' [= <-] _. split; [now exists v|]. split.
      * rewrite lookup_delete_prop_ne by assumption.
        rewrite lookup_set_prop_eq. simpl. now rewrite Hv.
      * apply lookup_delete_prop_eq.
Qed.

End QualityFix.

(** The encoding of [{ jpeg: 80, toFormat: 'webp' }] is moved to [webp]. *)
Lemma quality_fix_moves_first_key_witness :
  In "Custom" ["Custom"; "Thumbor"]
  /\ In "webp" acceptedValues
  /\ object_wf [("jpeg", JNum 80%Z); ("toFormat", JStr "webp")]
  /\ exists props',
       fixQuality (Some "Custom") (JStr "webp")
         (JObj [("jpeg", JNum 80%Z); ("toFormat", JStr "webp")])
       = Ok (JObj props')
       /\ lookup_prop "webp" props' = Some (JNum 80%Z)
       /\ lookup_prop "jpeg" props' = None.
Proof.
  assert (H1 : In "Custom" ["Custom"; "Thumbor"]) by (simpl; tauto).
  assert (H2 : In "webp" acceptedValues) by (simpl; tauto).
  assert (H3 : object_wf [("jpeg", JNum 80%Z); ("toFormat", JStr "webp")]).
  { repeat constructor; simpl; intuition discriminate. }
  split; [exact H1|]. split; [exact H2|]. split; [exact H3|].
  destruct (quality_fix_moves_first_key "Custom" "webp" _ H1 H2 H3)
    as (props' & E & _ & _ & _ & Hq).
  exists props'. split; [exact E|].
  destruct (Hq "jpeg") as (_ & Ha & Hb); [reflexivity|discriminate|].
  split; [exact Ha|exact Hb].
Defined.

(** C1, as stated, fails: with two codec keys in the edits, only the
    first one is moved, and two codec keys remain. *)
Lemma quality_fix_leaves_two_codec_keys :
  exists props',
    fixQuality (Some "Custom") (JStr "webp")
      (JObj [("jpeg", JNum 80%Z); ("png", JNum 90%Z)])
    = Ok (JObj props')
    /\ props' = [("png", JNum 90%Z); ("webp", JNum 80%Z)]
    /\ ~ quality_count props' <= 1.
Proof.
  eexists. split; [reflexivity|]. split; [reflexivity|].
  vm_compute. lia.
Qed.

(** ** Removing white space and splitting on commas *)

Section Whitespace.

Local Abbreviation rw := JsString.remove_whitespace.
Local Abbreviation comma := ","%char.

Lemma remove_whitespace_step (c : ascii) (t : string) :
  rw (String c t)
  = match head_space (String c t) with
    | Some r => rw r
    | None => String c (rw t)
    end.
Proof.
  unfold head_space.
  destruct (JsString.space1 c) eqn:E1; [simpl; now rewrite E1|].
  destruct t as [|c2 t2]; [simpl; now rewrite E1|].
  destruct (JsString.space2 c c2) eqn:E2; [simpl; now rewrite E1, E2|].
  destruct t2 as [|c3 t3]; [simpl; now rewrite E1, E2|].
  destruct (JsString.space3 c c2 c3) eqn:E3; simpl; now rewrite E1, E2, E3.
Qed.

Lemma space1_not_comma (c : ascii) :
  JsString.space1 c = true -> Ascii.eqb c comma = false.
Proof.
  destruct (Ascii.eqb_spec c comma) as [->|]; [discriminate|reflexivity].
Qed.

Lemma space2_not_comma (c1 c2 : ascii) :
  JsString.space2 c1 c2 = true ->
  Ascii.eqb c1 comma = false /\ Ascii.eqb c2 comma = false.
Proof.
  unfold JsString.space2. intros H. apply andb_prop in H as [H1 H2].
  split.
  - destruct (Ascii.eqb_spec c1 comma) as [->|]; [discriminate|reflexivity].
  - destruct (Ascii.eqb_spec c2 comma) as [->|]; [discriminate|reflexivity].
Qed.

Lemma space3_not_comma (c1 c2 c3 : ascii) :
  JsString.space3 c1 c2 c3 = true ->
  Ascii.eqb c1 comma = false /\ Ascii.eqb c2 comma = false
  /\ Ascii.eqb c3 comma = false.
Proof.
  unfold JsString.space3. intros H. repeat split.
  - destruct (Ascii.eqb_spec c1 comma) as [->|]; [discriminate|reflexivity].
  - destruct (Ascii.eqb_spec c2 comma) as [->|]; [|reflexivity].
    cbn in H. rewrite ?andb_false_r in H. discriminate.
  - destruct (Ascii.eqb_spec c3 comma) as [->|]; [|reflexivity].
    cbn in H. rewrite ?andb_false_r in H. discriminate.
Qed.

Lemma split_cons_other (c x : ascii) (t : string) :
  Ascii.eqb x c = false ->
  exists seg segs,
    JsString.split c t = seg :: segs
    /\ seg = JsString.before c t
    /\ JsString.split c (String x t) = String x seg :: segs.
Proof.
  intros E. pose proof (first_split c t) as Hf.
  destruct (JsString.split c t) as [|seg segs] eqn:Es.
  - now destruct (split_nonempty c t).
  - exists seg, segs. simpl. now rewrite E, Es.
Qed.

Lemma head_space_segment (c : ascii) (t : string) :
  head_space (String c t) = None -> Ascii.eqb c comma = false ->
  head_space (String c (JsString.before comma t)) = None.
Proof.
  unfold head_space. destruct (JsString.space1 c); [discriminate|].
  destruct t as [|c2 t2]; simpl; [reflexivity|].
  destruct (Ascii.eqb c2 comma); [reflexivity|].
  destruct (JsString.space2 c c2); [discriminate|].
  destruct t2 as [|c3 t3]; simpl; [reflexivity|].
  destruct (Ascii.eqb c3 comma); [reflexivity|].
  now destruct (JsString.space3 c c2 c3).
Qed.

(** Removing the white space and then splitting on commas gives the
    entries between the commas, each without its white space. *)
Lemma split_remove_whitespace (s : string) :
  JsString.split comma (rw s) = map rw (JsString.split comma s).
Proof.
  assert (H : forall n s, String.length s <= n ->
    JsString.split comma (rw s) = map rw (JsString.split comma s));
    [|now apply (H (String.length s))].
  clear s. induction n as [|n IH]; intros [|c t] Hlen;
    try reflexivity; simpl in Hlen; [lia|].
  rewrite remove_whitespace_step.
  destruct (head_space (String c t)) as [r|] eqn:Eh.
  - unfold head_space in Eh. destruct (JsString.space1 c) eqn:E1.
    + injection Eh as <-. rewrite IH by lia.
      destruct (split_cons_other comma c t (space1_not_comma c E1))
        as (seg & segs & -> & _ & ->).
      rewrite !List.map_cons. f_equal. rewrite remove_whitespace_step.
      unfold head_space. now rewrite E1.
    + destruct t as [|c2 t2]; [discriminate|].
      destruct (JsString.space2 c c2) eqn:E2.
      * injection Eh as <-. simpl in Hlen. rewrite IH by lia.
        destruct (space2_not_comma c c2 E2) as [N1 N2].
        destruct (split_cons_other comma c2 t2 N2)
          as (seg & segs & -> & _ & Hs2).
        destruct (split_cons_other comma c (String c2 t2) N1)
          as (seg' & segs' & Hs & _ & ->).
        rewrite Hs2 in Hs. injection Hs as <- <-.
        rewrite !List.map_cons. f_equal. rewrite remove_whitespace_step.
        unfold head_space. now rewrite E1, E2.
      * destruct t2 as [|c3 t3]; [discriminate|].
        destruct (JsString.space3 c c2 c3) eqn:E3; [|discriminate].
        injection Eh as <-. simpl in Hlen. rewrite IH by lia.
        destruct (space3_not_comma c c2 c3 E3) as (N1 & N2 & N3).
        destruct (split_cons_other comma c3 t3 N3)
          as (seg & segs & -> & _ & Hs3).
        destruct (split_cons_other comma c2 (String c3 t3) N2)
          as (seg2 & segs2 & Hs & _ & Hs2).
        rewrite Hs3 in Hs. injection Hs as <- <-.
        destruct (split_cons_other comma c (String c2 (String c3 t3)) N1)
          as (seg1 & segs1 & Hs & _ & ->).
        rewrite Hs2 in Hs. injection Hs as <- <-.
        rewrite !List.map_cons. f_equal. rewrite remove_whitespace_step.
        unfold head_space. now rewrite E1, E2, E3.
  - destruct (Ascii.eqb_spec c comma) as [->|Hc].
    + simpl. now rewrite IH by lia.
    + apply Ascii.eqb_neq in Hc.
      destruct (split_cons_other comma c t Hc) as (seg & segs & Hs & Hseg & ->).
      destruct (split_cons_other comma c (rw t) Hc)
        as (seg' & segs' & Hs' & _ & ->).
      rewrite IH, Hs in Hs' by lia. rewrite List.map_cons in Hs'.
      injection Hs' as <- <-.
      rewrite !List.map_cons. f_equal. rewrite remove_whitespace_step.
      subst seg. now rewrite (head_space_segment c t Eh Hc).
Qed.

End Whitespace.

(** ** The whitelist, the bucket and the key *)

Section Resolution.

Context {num : Type} `{!Runtime num}.

Variable env : Env.

(** C9, as amended.  Reading the whitelist fails with the configuration
    error, of status 400, when [SOURCE_BUCKETS] is not set; when it is set
    to a text that is not empty, the result is the list of the entries
    between the commas, each without any of its white space: the white
    space around an entry and the white space inside it. *)
Theorem whitelist_entries :
  (SOURCE_BUCKETS env = None ->
   getAllowedSourceBuckets (num := num) env = Throw ConfigurationError
   /\ status_of (ConfigurationError (num := num)) = Some 400%Z)
  /\ (forall s,
        SOURCE_BUCKETS env = Some s -> s <> "" ->
        getAllowedSourceBuckets (num := num) env
        = Ok (map JsString.remove_whitespace (JsString.split "," s))).
Proof.
  unfold getAllowedSourceBuckets. split.
  - intros ->. split; reflexivity.
  - intros s -> _. now rewrite split_remove_whitespace.
Qed.

(** The whitelist is never empty. *)
Lemma whitelist_nonempty (W : list string) :
  getAllowedSourceBuckets (num := num) env = Ok W -> W <> [].
Proof.
  unfold getAllowedSourceBuckets.
  destruct (SOURCE_BUCKETS env); [|discriminate].
  intros [= <-]. apply split_nonempty.
Qed.

(** C4, as amended.  When stripping the prefix leaves the path [p], the
    key is what follows the first slash of [p] once the text from the
    first [#] on, and then from the first [?] on, is cut off; the
    resolution fails with the image error, of status 404, exactly when that
    key is empty.  So a path left as [bucket/a/b/c.png?x=1#frag] yields
    [a/b/c.png], and a path left as [bucket] fails. *)
Theorem key_resolution (event : Event) (p : string) :
  removePathPrefix env (path event) = Ok p ->
  parseImageKey env event "Default"
  = (let k :=
       JsString.after "/" (JsString.before "?" (JsString.before "#" p)) in
     if String.eqb k "" then Throw ImageNotFound else Ok k)
  /\ status_of (ImageNotFound (num := num)) = Some 404%Z
  /\ (p = "bucket/a/b/c.png?x=1#frag" ->
      parseImageKey env event "Default" = Ok "a/b/c.png")
  /\ (p = "bucket" ->
      parseImageKey env event "Default" = Throw ImageNotFound).
Proof.
  intros Hp.
  assert (E : parseImageKey env event "Default"
              = (let k := JsString.after "/"
                            (JsString.before "?" (JsString.before "#" p)) in
                 if String.eqb k "" then Throw ImageNotFound else Ok k)).
  { unfold parseImageKey. simpl String.eqb. cbv iota. rewrite Hp.
    cbn [bind]. rewrite !first_split, join_rest_split. reflexivity. }
  split; [exact E|]. split; [reflexivity|].
  split; intros ->; rewrite E; reflexivity.
Qed.

(** C8.  When the path that is left after stripping the prefix has an
    empty first segment and a whitelist is configured, the bucket is the
    first entry of the whitelist, and no error is raised. *)
Theorem default_bucket (event : Event) (p s : string) :
  removePathPrefix env (path event) = Ok p ->
  JsString.first (JsString.split "/" p) = "" ->
  SOURCE_BUCKETS env = Some s ->
  exists w rest,
    getAllowedSourceBuckets (num := num) env = Ok (w :: rest)
    /\ parseImageBucket env event "Default" = Ok w.
Proof.
  intros Hp Hb Hs.
  destruct (getAllowedSourceBuckets (num := num) env) as [W|e] eqn:EW.
  - destruct W as [|w rest]; [now destruct (whitelist_nonempty [] EW)|].
    exists w, rest. split; [reflexivity|].
    unfold parseImageBucket. simpl String.eqb. cbv iota.
    rewrite Hp. cbn [bind]. rewrite Hb. simpl String.eqb. cbn [negb].
    rewrite EW. reflexivity.
  - unfold getAllowedSourceBuckets in EW. now rewrite Hs in EW.
Qed.

Lemma includes_In (x : string) (a : list string) :
  JsString.includes x a = true <-> In x a.
Proof.
  unfold JsString.includes. rewrite existsb_exists. split.
  - intros (y & Hy & E). apply String.eqb_eq in E. now subst.
  - intros H. exists x. split; [exact H|apply String.eqb_refl].
Qed.

(** C2, as amended.  Let [p] be the path after stripping the prefix, [b]
    its first segment, not empty, and [W] the whitelist.  When [b] is an
    entry of [W], the bucket is [b].  When it is not and the first entry
    of [W], anchored, is a pattern that the platform accepts, the bucket
    is [b] if [b] matches the pattern and the resolution fails with the
    access error, of status 403, if it does not.  In particular a path
    left as [b/k], for an entry [b] of [W] that is not empty and holds no
    slash, resolves to [b]. *)
Theorem bucket_resolution (event : Event) (p : string) (W : list string) :
  removePathPrefix env (path event) = Ok p ->
  getAllowedSourceBuckets (num := num) env = Ok W ->
  (forall b,
     JsString.first (JsString.split "/" p) = b -> b <> "" ->
     (In b W -> parseImageBucket env event "Default" = Ok b)
     /\ (forall re,
           ~ In b W ->
           RegExp_new ("^" +:+ JsString.first W +:+ "$") = Some re ->
           (is_Some (RegExp_exec re b) ->
            parseImageBucket env event "Default" = Ok b)
           /\ (RegExp_exec re b = None ->
               parseImageBucket env event "Default" = Throw AccessDenied)))
  /\ status_of (AccessDenied (num := num)) = Some 403%Z
  /\ (forall b k,
        p = b +:+ String "/" k -> b <> "" -> free_of "/" b = true ->
        In b W -> parseImageBucket env event "Default" = Ok b).
Proof.
  intros Hp HW.
  assert (Hmember : forall b,
    JsString.first (JsString.split "/" p) = b -> b <> "" -> In b W ->
    parseImageBucket env event "Default" = Ok b).
  { intros b Hb Hne Hin. unfold parseImageBucket. simpl String.eqb.
    cbv iota. rewrite Hp. cbn [bind]. rewrite Hb.
    apply String.eqb_neq in Hne. rewrite Hne. cbn [negb]. rewrite HW.
    cbn [bind]. apply includes_In in Hin. now rewrite Hin. }
  split; [|split; [reflexivity|]].
  - intros b Hb Hne. split; [now apply Hmember|].
    intros re Hout Hre.
    assert (E : parseImageBucket env event "Default"
                = if bool_decide (is_Some (RegExp_exec re b))
                  then Ok b else Throw AccessDenied).
    { unfold parseImageBucket. simpl String.eqb. cbv iota.
      rewrite Hp. cbn [bind]. rewrite Hb.
      apply String.eqb_neq in Hne. rewrite Hne. cbn [negb]. rewrite HW.
      cbn [bind].
      destruct (JsString.includes b W) eqn:Ei;
        [now apply includes_In in Ei|].
      unfold matches_first. rewrite Hre. cbn [bind].
      now destruct (bool_decide (is_Some (RegExp_exec re b))). }
    split.
    + intros Hm. rewrite E. now rewrite bool_decide_eq_true_2.
    + intros Hm. rewrite E, Hm. reflexivity.
  - intros b k -> Hne Hfree Hin. apply Hmember; [|exact Hne|exact Hin].
    rewrite first_split. now apply before_prefix.
Qed.

End Resolution.

(** *** The claims on the examples *)

(** The configured text [images, thumbnails ,vault] has three entries. *)
Lemma whitelist_entries_witness :
  SOURCE_BUCKETS Examples.env = Some "images, thumbnails ,vault"
  /\ "images, thumbnails ,vault" <> ""
  /\ getAllowedSourceBuckets (num := Z) Examples.env
     = Ok ["images"; "thumbnails"; "vault"].
Proof.
  split; [reflexivity|]. split; [discriminate|].
  destruct (whitelist_entries (num := Z) Examples.env) as [_ H].
  apply (H "images, thumbnails ,vault"); [reflexivity|discriminate].
Defined.

(** C9, as stated, fails: white space inside an entry is removed too,
    where the claim strips the white space around the entries only. *)
Lemma whitelist_loses_inner_white_space :
  getAllowedSourceBuckets (num := Z)
    {| PATH_PREFIX := None;
       SOURCE_BUCKETS := Some "my bucket, logs";
       AUTO_WEBP := None |}
  = Ok ["mybucket"; "logs"]
  /\ Claimed.whitelist "my bucket, logs" = ["my bucket"; "logs"]
  /\ ["mybucket"; "logs"] <> Claimed.whitelist "my bucket, logs".
Proof.
  split; [reflexivity|]. split; [reflexivity|]. discriminate.
Qed.

(** The empty text is read as one empty entry. *)
Example whitelist_of_empty_text :
  getAllowedSourceBuckets (num := Z)
    {| PATH_PREFIX := None; SOURCE_BUCKETS := Some ""; AUTO_WEBP := None |}
  = Ok [""].
Proof. reflexivity. Qed.

(** With the prefix [/], the path of the specification yields its key. *)
Lemma key_resolution_witness :
  removePathPrefix Examples.env "/bucket/a/b/c.png?x=1#frag"
  = Ok "bucket/a/b/c.png?x=1#frag"
  /\ parseImageKey Examples.env
       (Examples.request "/bucket/a/b/c.png?x=1#frag" None None) "Default"
     = Ok "a/b/c.png".
Proof.
  assert (H : removePathPrefix Examples.env
                (path (Examples.request "/bucket/a/b/c.png?x=1#frag"
                         None None))
              = Ok "bucket/a/b/c.png?x=1#frag") by reflexivity.
  split; [exact H|].
  destruct (key_resolution Examples.env _ _ H) as (_ & _ & Hkey & _).
  now apply Hkey.
Defined.

(** C4, as stated, fails: with an empty prefix nothing is stripped, the
    first segment of [/bucket] is empty, and the key is [bucket]; no
    error is raised. *)
Lemma key_of_unstripped_path :
  parseImageKey Examples.env_no_prefix
    (Examples.request "/bucket" None None) "Default"
  = Ok "bucket"
  /\ parseImageKey Examples.env_no_prefix
       (Examples.request "/bucket/a/b/c.png?x=1#frag" None None) "Default"
     = Ok "bucket/a/b/c.png".
Proof. split; reflexivity. Qed.

(** The path [/] names no bucket: the first entry is taken. *)
Lemma default_bucket_witness :
  removePathPrefix Examples.env "/" = Ok ""
  /\ JsString.first (JsString.split "/" "") = ""
  /\ SOURCE_BUCKETS Examples.env = Some "images, thumbnails ,vault"
  /\ parseImageBucket Examples.env (Examples.request "/" None None) "Default"
     = Ok "images".
Proof.
  assert (H : removePathPrefix Examples.env
                (path (Examples.request "/" None None)) = Ok "")
    by reflexivity.
  split; [exact H|]. split; [reflexivity|]. split; [reflexivity|].
  destruct (default_bucket Examples.env _ "" _ H eq_refl eq_refl)
    as (w & rest & HW & Hb).
  injection HW as <- _. exact Hb.
Defined.

(** An entry of the whitelist is resolved, another name is refused. *)
Lemma bucket_resolution_witness :
  removePathPrefix Examples.env "/thumbnails/a.png" = Ok "thumbnails/a.png"
  /\ getAllowedSourceBuckets (num := Z) Examples.env
     = Ok ["images"; "thumbnails"; "vault"]
  /\ parseImageBucket Examples.env
       (Examples.request "/thumbnails/a.png" None None) "Default"
     = Ok "thumbnails"
  /\ parseImageBucket Examples.env
       (Examples.request "/other/a.png" None None) "Default"
     = Throw AccessDenied.
Proof.
  assert (H1 : removePathPrefix Examples.env
                 (path (Examples.request "/thumbnails/a.png" None None))
               = Ok "thumbnails/a.png") by reflexivity.
  assert (H2 : removePathPrefix Examples.env
                 (path (Examples.request "/other/a.png" None None))
               = Ok "other/a.png") by reflexivity.
  assert (HW : getAllowedSourceBuckets (num := Z) Examples.env
               = Ok ["images"; "thumbnails"; "vault"]) by reflexivity.
  split; [exact H1|]. split; [exact HW|]. split.
  - destruct (bucket_resolution Examples.env _ _ _ H1 HW) as (_ & _ & Hpath).
    apply (Hpath "thumbnails" "a.png"); try reflexivity;
      [discriminate|simpl; tauto].
  - destruct (bucket_resolution Examples.env _ _ _ H2 HW) as (Hb & _ & _).
    destruct (Hb "other" eq_refl) as [_ Hre]; [discriminate|].
    destruct (Hre {| Reference.anchored_start := true;
                     Reference.anchored_end := true;
                     Reference.literal := "images" |}) as [_ Hno];
      [simpl; intuition discriminate|reflexivity|].
    now apply Hno.
Defined.

(** C2, as stated, fails: with an empty prefix the first segment of
    [/thumbnails/key] is empty, and the bucket is the first entry of the
    whitelist, not the entry that the path names. *)
Lemma bucket_of_unstripped_path :
  getAllowedSourceBuckets (num := Z) Examples.env_no_prefix
  = Ok ["images"; "thumbnails"; "vault"]
  /\ parseImageBucket Examples.env_no_prefix
       (Examples.request "/thumbnails/key" None None) "Default"
     = Ok "images"
  /\ Ok (num := Z) "images" <> Ok "thumbnails".
Proof. split; [reflexivity|]. split; [reflexivity|]. discriminate. Qed.

(** ** The edits *)

Section Edits.

Context {num : Type} `{!Runtime num}.

Lemma decodeRequest_throws (encoded : option string) (e : exn num) :
  decodeRequest encoded = Throw e ->
  e = EditsParseError
  /\ exists raw,
       encoded = Some raw
       /\ JSON_parse (Buffer_toString (Buffer_from_base64 raw)) = None.
Proof.
  unfold decodeRequest. destruct encoded as [raw|]; [|discriminate].
  destruct (JSON_parse (Buffer_toString (Buffer_from_base64 raw))) eqn:E;
    [discriminate|].
  intros [= <-]. split; [reflexivity|]. now exists raw.
Qed.

Lemma parseImageEdits_not_nullish (event : Event) (t : string)
  (e : value num) :
  parseImageEdits event t = Ok e -> is_nullish e = false.
Proof.
  unfold parseImageEdits. destruct (String.eqb t "Default"); [|discriminate].
  destruct (queryStringParameters event) as [q|]; [|now intros [= <-]].
  destruct (decodeRequest (q !! "edits")) as [v|]; [|discriminate].
  cbn [bind]. destruct (is_nullish v) eqn:E; now intros [= <-].
Qed.

(** C5.  For the request type [Default], resolving the edits fails with
    the parse error, of status 400, exactly when the [edits] parameter is
    present and the text that its base64 form decodes to is refused by
    [JSON.parse]; it fails in no other way; and without query parameters,
    or without an [edits] parameter among them, the result is the empty
    mapping. *)
Theorem edits_resolution (event : Event) :
  (parseImageEdits event "Default" = Throw EditsParseError
   <-> exists q raw,
         queryStringParameters event = Some q
         /\ q !! "edits" = Some raw
         /\ JSON_parse (Buffer_toString (Buffer_from_base64 raw)) = None)
  /\ (forall e, parseImageEdits event "Default" = Throw e
                -> e = EditsParseError)
  /\ status_of (EditsParseError (num := num)) = Some 400%Z
  /\ (queryStringParameters event = None ->
      parseImageEdits event "Default" = Ok (JObj []))
  /\ (forall q,
        queryStringParameters event = Some q -> q !! "edits" = None ->
        parseImageEdits event "Default" = Ok (JObj [])).
Proof.
  unfold parseImageEdits. simpl String.eqb. cbv iota.
  destruct (queryStringParameters event) as [q|].
  - assert (Hthrow : forall e,
      (let* decoded := decodeRequest (q !! "edits") in
       if is_nullish decoded then Ok (JObj []) else Ok decoded) = Throw e ->
      e = EditsParseError
      /\ exists raw, q !! "edits" = Some raw
           /\ JSON_parse (Buffer_toString (Buffer_from_base64 raw)) = None).
    { intros e. destruct (decodeRequest (q !! "edits")) as [v|e'] eqn:E.
      - cbn [bind]. destruct (is_nullish v); discriminate.
      - cbn [bind]. intros [= <-]. now apply decodeRequest_throws. }
    repeat split.
    + intros H. destruct (Hthrow _ H) as [_ (raw & H1 & H2)]. now exists q, raw.
    + intros (q' & raw & [= <-] & H1 & H2).
      unfold decodeRequest. now rewrite H1, H2.
    + intros e H. now destruct (Hthrow e H).
    + discriminate.
    + intros q' [= <-] H. now rewrite H.
  - split; [split; [discriminate|]|].
    + intros (q & raw & H & _). discriminate.
    + split; [discriminate|]. split; [reflexivity|].
      split; [reflexivity|discriminate].
Qed.

(** The resolution hands over what [JSON.parse] produced, unless that
    is [null]. *)
Lemma parseImageEdits_decoded (event : Event) (q : gmap string string)
  (raw : string) (v : value num) :
  queryStringParameters event = Some q ->
  q !! "edits" = Some raw ->
  JSON_parse (Buffer_toString (Buffer_from_base64 raw)) = Some v ->
  decodeRequest (Some raw) = Ok v
  /\ parseImageEdits event "Default"
     = Ok (if is_nullish v then JObj [] else v).
Proof.
  intros Hq Hraw Hv.
  assert (Hd : decodeRequest (Some raw) = Ok v)
    by (unfold decodeRequest; now rewrite Hv).
  split; [exact Hd|].
  unfold parseImageEdits. simpl String.eqb. cbv iota.
  rewrite Hq, Hraw, Hd. cbn [bind]. now destruct (is_nullish v).
Qed.

(** Let a client build the [edits] parameter of a mapping [m] by
    serialising it, taking the bytes of the text and writing them in
    base64.  When each decoding step of the platform undoes the encoding
    step it faces on the data of [m], the decoder and the resolution of
    the edits return [m] itself. *)
Lemma round_trip_of_codecs
  (stringify : value num -> string) (to_bytes : string -> list byte)
  (to_base64 : list byte -> string)
  (m : list (string * value num)) (event : Event) (q : gmap string string) :
  Buffer_from_base64 (to_base64 (to_bytes (stringify (JObj m))))
  = to_bytes (stringify (JObj m)) ->
  Buffer_toString (to_bytes (stringify (JObj m))) = stringify (JObj m) ->
  JSON_parse (stringify (JObj m)) = Some (JObj m) ->
  queryStringParameters event = Some q ->
  q !! "edits" = Some (to_base64 (to_bytes (stringify (JObj m)))) ->
  decodeRequest (Some (to_base64 (to_bytes (stringify (JObj m)))))
  = Ok (JObj m)
  /\ parseImageEdits event "Default" = Ok (JObj m).
Proof.
  intros H64 Hutf Hjson Hq Hraw.
  apply (parseImageEdits_decoded event q _ (JObj m) Hq Hraw).
  now rewrite H64, Hutf.
Qed.

End Edits.

(** A request without parameters, and one whose parameter is not JSON. *)
Example edits_absent_or_refused :
  parseImageEdits (num := Z) (Examples.request "/images/a" None None)
    "Default" = Ok (JObj [])
  /\ parseImageEdits (num := Z)
       (Examples.request "/images/a" (Some "e3dpZHRoOjEwMH0=") None)
       "Default" = Throw EditsParseError.
Proof. split; reflexivity. Qed.

(** ** The codecs of the reference runtime

    The decoders of the reference runtime undo the encoders of a client:
    base64 on every sequence of bytes, UTF-8 on every text, JSON on every
    value that is data. *)

Module ReferenceFacts.

Import Reference.

(** *** Texts *)

Lemma append_cons (c : ascii) (s t : string) :
  String c s +:+ t = String c (s +:+ t).
Proof. reflexivity. Qed.

Lemma append_empty (t : string) : "" +:+ t = t.
Proof. reflexivity. Qed.

Lemma append_assoc (s t u : string) : (s +:+ t) +:+ u = s +:+ (t +:+ u).
Proof.
  induction s as [|c s IH]; [reflexivity|].
  now rewrite !append_cons, IH.
Qed.

(** *** Numerals

    [numeral] reads back what [Number_toString] writes, when what
    follows cannot continue a numeral. *)

Lemma digits_cons (acc d : N) (c : ascii) (s : string) :
  digit c = Some d -> digits acc (String c s) = digits (acc * 10 + d) s.
Proof. simpl. now intros ->. Qed.

Lemma digits_end (acc : N) (rest : string) :
  ends_numeral rest = true -> digits acc rest = (acc, rest).
Proof.
  destruct rest as [|c r]; [reflexivity|]. simpl.
  now destruct (digit c).
Qed.

Lemma digits_of_uint (d : Decimal.uint) (acc : positive) (rest : string) :
  ends_numeral rest = true ->
  digits (N.pos acc) (NilEmpty.string_of_uint d +:+ rest)
  = (N.pos (Pos.of_uint_acc d acc), rest).
Proof.
  intros Hr. revert acc.
  induction d; intros acc; cbn [NilEmpty.string_of_uint Pos.of_uint_acc];
    [now apply digits_end|..];
    rewrite append_cons;
    erewrite digits_cons by (vm_compute; reflexivity);
    rewrite <- IHd; f_equal; lia.
Qed.

Lemma to_uint_head (p : positive) :
  match Pos.to_uint p with
  | Decimal.Nil | Decimal.D0 _ => False
  | _ => True
  end.
Proof.
  pose proof (DecimalPos.Unsigned.to_of (Pos.to_uint p)) as H.
  rewrite DecimalPos.Unsigned.of_to in H. simpl in H.
  pose proof (Unsigned.to_uint_nonzero p) as Hz.
  destruct (Pos.to_uint p) eqn:E; try exact I.
  - now destruct (Unsigned.to_uint_nonnil p).
  - unfold Decimal.unorm in H. rewrite nzhead_D0 in H.
    destruct (Decimal.nzhead u) eqn:En; try congruence.
    now destruct (nzhead_nonzero u u0).
Qed.

Lemma natural_of_pos (p : positive) (rest : string) :
  ends_numeral rest = true ->
  natural (NilEmpty.string_of_uint (Pos.to_uint p) +:+ rest)
  = Some (N.pos p, rest).
Proof.
  intros Hr. pose proof (to_uint_head p) as Hh.
  pose proof (DecimalPos.Unsigned.of_to p) as Hof.
  destruct (Pos.to_uint p) eqn:E; try contradiction;
    cbn [NilEmpty.string_of_uint]; rewrite append_cons;
    unfold natural;
    match goal with |- context [digit ?c] =>
      let x := eval vm_compute in (digit c) in change (digit c) with x end;
    cbv iota beta;
    rewrite digits_of_uint by assumption;
    cbn [Pos.of_uint] in Hof; now rewrite Hof.
Qed.

Lemma natural_zero (rest : string) :
  ends_numeral rest = true -> natural (String "0" rest) = Some (0%N, rest).
Proof.
  intros Hr. unfold natural. change (digit "0") with (Some 0%N). cbv iota.
  destruct rest as [|c r]; [reflexivity|]. simpl in Hr.
  now destruct (digit c).
Qed.

Lemma string_of_pos (p : positive) :
  NilZero.string_of_uint (Pos.to_uint p)
  = NilEmpty.string_of_uint (Pos.to_uint p).
Proof.
  unfold NilZero.string_of_uint.
  pose proof (Unsigned.to_uint_nonnil p). now destruct (Pos.to_uint p).
Qed.

Lemma numeral_of_Z (z : Z) (rest : string) :
  ends_numeral rest = true ->
  numeral (Number_toString z +:+ rest) = Some (z, rest).
Proof.
  intros Hr.
  assert (Hc : continues_numeral rest = false).
  { destruct rest as [|c r]; [reflexivity|]. simpl in Hr.
    destruct (digit c); [discriminate|]. now apply negb_true_iff in Hr. }
  destruct z as [|p|p].
  - change (Number_toString 0) with "0".
    rewrite append_cons, append_empty. unfold numeral. cbv iota beta.
    now rewrite natural_zero, Hc.
  - change (Number_toString (Z.pos p))
      with (NilZero.string_of_uint (Pos.to_uint p)).
    rewrite string_of_pos.
    pose proof (to_uint_head p) as Hh.
    pose proof (natural_of_pos p rest Hr) as Hn.
    destruct (Pos.to_uint p) eqn:E; try contradiction;
      cbn [NilEmpty.string_of_uint] in *; rewrite append_cons in *;
      unfold numeral; cbv iota beta; now rewrite Hn, Hc.
  - change (Number_toString (Z.neg p))
      with (String "-" (NilZero.string_of_uint (Pos.to_uint p))).
    rewrite string_of_pos, append_cons. unfold numeral. cbv iota beta.
    now rewrite (natural_of_pos p rest Hr), Hc.
Qed.

(** *** String literals

    [characters] reads back what [quoted_characters] writes. *)

Ltac each_character c :=
  destruct c as [[] [] [] [] [] [] [] []].

Lemma characters_plain (c : ascii) (s : string) :
  Ascii.eqb c quote = false -> Ascii.eqb c backslash = false ->
  N.ltb (N_of_ascii c) 32 = false ->
  characters (String c s)
  = match characters s with
    | Some (t, r) => Some (String c t, r)
    | None => None
    end.
Proof.
  intros H1 H2 H3. simpl. rewrite H1, H2.
  replace (Nat.ltb (nat_of_ascii c) 32) with false; [reflexivity|].
  each_character c; try discriminate H3; reflexivity.
Qed.

Lemma characters_simple (e x : ascii) (s : string) :
  simple_escape e = Some x ->
  characters (String backslash (String e s))
  = match characters s with
    | Some (t, r) => Some (String x t, r)
    | None => None
    end.
Proof.
  intros H.
  assert (Hu : e <> "u"%char) by (intros ->; discriminate H).
  cbn [characters]. change (Ascii.eqb backslash quote) with false.
  change (Ascii.eqb backslash backslash) with true. cbv iota.
  rewrite H.
  each_character e; try reflexivity. now destruct Hu.
Qed.

Lemma characters_control (c : ascii) (s : string) :
  N.ltb (N_of_ascii c) 32 = true ->
  characters
    (String backslash
       (String "u" (String "0" (String "0"
          (String (hex_digit (N_of_ascii c / 16))
             (String (hex_digit (N_of_ascii c mod 16)) s))))))
  = match characters s with
    | Some (t, r) => Some (String c t, r)
    | None => None
    end.
Proof.
  intros H.
  assert (E : escape "0" "0" (hex_digit (N_of_ascii c / 16))
                (hex_digit (N_of_ascii c mod 16)) = Some (String c "")).
  { each_character c; try discriminate H; reflexivity. }
  cbn [characters]. change (Ascii.eqb backslash quote) with false.
  change (Ascii.eqb backslash backslash) with true. cbv iota.
  rewrite E. now destruct (characters s) as [[t r]|].
Qed.

Lemma characters_quoted (s rest : string) :
  characters (quoted_characters s +:+ String quote rest) = Some (s, rest).
Proof.
  induction s as [|c s IH].
  - rewrite append_empty. cbn [characters].
    now change (Ascii.eqb quote quote) with true.
  - cbn [quoted_characters]. rewrite append_assoc.
    unfold quoted_character.
    destruct (Ascii.eqb_spec c quote) as [->|Hq].
    { rewrite !append_cons, append_empty.
      now rewrite (characters_simple quote quote), IH. }
    destruct (Ascii.eqb_spec c backslash) as [->|Hb].
    { rewrite !append_cons, append_empty.
      now rewrite (characters_simple backslash backslash), IH. }
    assert (Hc : forall n x,
      N_of_ascii c = n -> simple_escape x = Some (ascii_of_N n) ->
      characters (String backslash (String x EmptyString)
                  +:+ quoted_characters s +:+ String quote rest)
      = Some (String c s, rest)).
    { intros n x Hn Hx. rewrite !append_cons, append_empty.
      rewrite (characters_simple x (ascii_of_N n)), IH by exact Hx.
      now rewrite <- Hn, ascii_N_embedding. }
    destruct (N.eqb_spec (N_of_ascii c) 8) as [E|_];
      [now apply (Hc 8%N "b"%char)|].
    destruct (N.eqb_spec (N_of_ascii c) 12) as [E|_];
      [now apply (Hc 12%N "f"%char)|].
    destruct (N.eqb_spec (N_of_ascii c) 10) as [E|_];
      [now apply (Hc 10%N "n"%char)|].
    destruct (N.eqb_spec (N_of_ascii c) 13) as [E|_];
      [now apply (Hc 13%N "r"%char)|].
    destruct (N.eqb_spec (N_of_ascii c) 9) as [E|_];
      [now apply (Hc 9%N "t"%char)|].
    destruct (N.ltb (N_of_ascii c) 32) eqn:E32.
    + rewrite !append_cons, append_empty.
      now rewrite characters_control, IH.
    + rewrite append_cons, append_empty.
      rewrite characters_plain, IH; auto; now apply Ascii.eqb_neq.
Qed.

(** *** Values

    [element] reads back what [JSON_stringify] writes, with the fuel that
    [need] counts. *)

Lemma closes_ends_numeral (rest : string) :
  closes rest = true -> ends_numeral rest = true.
Proof.
  destruct rest as [|c r]; [reflexivity|]. simpl. intros H.
  destruct (Ascii.eqb_spec c ",") as [->|]; [reflexivity|].
  destruct (Ascii.eqb_spec c "]") as [->|]; [reflexivity|].
  destruct (Ascii.eqb_spec c "}") as [->|]; [reflexivity|discriminate].
Qed.

Lemma skip_keep (c : ascii) (s : string) :
  whitespace c = false -> skip (String c s) = String c s.
Proof. intros H. simpl. now rewrite H. Qed.

Lemma substring_all (s : string) : String.substring 0 (String.length s) s = s.
Proof. induction s; simpl; [reflexivity|now rewrite IHs]. Qed.

Lemma prefix_append (k rest : string) : String.prefix k (k +:+ rest) = true.
Proof.
  induction k as [|c k IH]; [now destruct rest|].
  rewrite append_cons. simpl. now destruct (ascii_dec c c).
Qed.

Lemma substring_append (k rest : string) :
  String.substring (String.length k)
    (String.length (k +:+ rest) - String.length k) (k +:+ rest) = rest.
Proof.
  induction k as [|c k IH].
  - rewrite append_empty. simpl. rewrite Nat.sub_0_r. apply substring_all.
  - rewrite append_cons. exact IH.
Qed.

(** The first character of a numeral. *)
Lemma number_head (z : Z) :
  exists c s, Number_toString z = String c s
              /\ starts_scalar c = true /\ Ascii.eqb c quote = false
              /\ opens c = true.
Proof.
  destruct z as [|p|p].
  - exists "0"%char, "". repeat split.
  - change (Number_toString (Z.pos p))
      with (NilZero.string_of_uint (Pos.to_uint p)).
    rewrite string_of_pos. pose proof (to_uint_head p) as Hh.
    destruct (Pos.to_uint p); try contradiction;
      cbn [NilEmpty.string_of_uint]; eexists _, _; repeat split.
  - change (Number_toString (Z.neg p))
      with (String "-" (NilZero.string_of_uint (Pos.to_uint p))).
    eexists _, _. repeat split.
Qed.

(** The facts about values hold for every way of writing and reading
    numbers with which an [exact] number is read back from what is
    printed for it, whatever follows that cannot continue a numeral. *)
Section JsonFacts.

Context {num : Type}.

Variable read : string -> option (num * string).
Variable print : num -> string.
Variable exact : num -> Prop.

Hypothesis read_print :
  forall n rest,
    exact n -> ends_numeral rest = true ->
    read (print n +:+ rest) = Some (n, rest).

Hypothesis print_head :
  forall n,
    exact n ->
    exists c s, print n = String c s
                /\ starts_scalar c = true /\ Ascii.eqb c quote = false
                /\ opens c = true.

Local Abbreviation element := (Reference.element read).
Local Abbreviation elements := (Reference.elements read).
Local Abbreviation members := (Reference.members read).
Local Abbreviation JSON_stringify := (stringify print).
Local Abbreviation json_data := (data exact).
Local Abbreviation member_text := (Reference.member_text print).
Local Abbreviation parses := (Reference.parses read print).

Lemma keyword_append (k rest : string) (v : value num) :
  keyword k v (k +:+ rest) = Some (v, rest).
Proof. unfold keyword. now rewrite prefix_append, substring_append. Qed.

Lemma element_null (fuel : nat) (rest : string) :
  element (S fuel) ("null" +:+ rest) = Some (JNull, rest).
Proof. exact (keyword_append "null" rest JNull). Qed.

Lemma element_true (fuel : nat) (rest : string) :
  element (S fuel) ("true" +:+ rest) = Some (JBool true, rest).
Proof. exact (keyword_append "true" rest (JBool true)). Qed.

Lemma element_false (fuel : nat) (rest : string) :
  element (S fuel) ("false" +:+ rest) = Some (JBool false, rest).
Proof. exact (keyword_append "false" rest (JBool false)). Qed.

Lemma element_scalar (fuel : nat) (c : ascii) (s : string) :
  starts_scalar c = true ->
  element (S fuel) (String c s)
  = if Ascii.eqb c quote then
      match characters s with
      | Some (t, r) => Some (JStr t, r)
      | None => None
      end
    else
      match read (String c s) with
      | Some (z, r) => Some (JNum z, r)
      | None => None
      end.
Proof.
  intros H. each_character c; try discriminate H; reflexivity.
Qed.

Lemma element_string (fuel : nat) (s rest : string) :
  element (S fuel) (quoted s +:+ rest) = Some (JStr s, rest).
Proof.
  unfold quoted. rewrite append_cons, append_assoc, append_cons, append_empty.
  rewrite element_scalar by reflexivity.
  change (Ascii.eqb quote quote) with true. cbv iota.
  now rewrite characters_quoted.
Qed.

Lemma element_number (fuel : nat) (z : num) (rest : string) :
  exact z -> ends_numeral rest = true ->
  element (S fuel) (print z +:+ rest) = Some (JNum z, rest).
Proof.
  intros Hz Hr. pose proof (read_print z rest Hz Hr) as Hn.
  destruct (print_head z Hz) as (c & s & E & Hs & Hq & _).
  rewrite E in *. rewrite append_cons in *.
  now rewrite element_scalar, Hq, Hn.
Qed.

Lemma element_array_open (fuel : nat) (c : ascii) (s : string) :
  opens c = true ->
  element (S fuel) (String "[" (String c s))
  = match elements fuel (String c s) with
    | Some (items, r) => Some (JArr items, r)
    | None => None
    end.
Proof.
  intros H. cbn [Reference.element].
  assert (Hw : whitespace c = false).
  { unfold opens in H. destruct (whitespace c); [discriminate|reflexivity]. }
  rewrite (skip_keep c s Hw).
  each_character c; try discriminate H; reflexivity.
Qed.

Lemma element_object_open (fuel : nat) (c : ascii) (s : string) :
  opens c = true ->
  element (S fuel) (String "{" (String c s))
  = match members fuel (String c s) with
    | Some (ms, r) => Some (object_of ms, r)
    | None => None
    end.
Proof.
  intros H. cbn [Reference.element].
  assert (Hw : whitespace c = false).
  { unfold opens in H. destruct (whitespace c); [discriminate|reflexivity]. }
  rewrite (skip_keep c s Hw).
  each_character c; try discriminate H; reflexivity.
Qed.

Lemma elements_step (fuel : nat) (s : string) :
  elements (S fuel) s
  = match element fuel s with
    | Some (v, r) =>
        match skip r with
        | String "," r' =>
            match elements fuel (skip r') with
            | Some (vs, r'') => Some (v :: vs, r'')
            | None => None
            end
        | String "]" r' => Some ([v], r')
        | _ => None
        end
    | None => None
    end.
Proof. reflexivity. Qed.

Lemma members_step (fuel : nat) (s : string) :
  members (S fuel) (String quote s)
  = match characters s with
    | Some (k, r) =>
        match skip r with
        | String ":" r1 =>
            match element fuel (skip r1) with
            | Some (v, r2) =>
                match skip r2 with
                | String "," r3 =>
                    match members fuel (skip r3) with
                    | Some (ms, r4) => Some ((k, v) :: ms, r4)
                    | None => None
                    end
                | String "}" r3 => Some ([(k, v)], r3)
                | _ => None
                end
            | None => None
            end
        | _ => None
        end
    | None => None
    end.
Proof. reflexivity. Qed.

Lemma need_array (items : list (value num)) :
  need (JArr items) = S (need_items items).
Proof.
  reflexivity.
Qed.

Lemma need_object (props : list (string * value num)) :
  need (JObj props) = S (need_members props).
Proof.
  cbn [need]. f_equal. induction props as [|[k x] l IH]; [reflexivity|].
  change (need_members ((k, x) :: l))
    with (S (Nat.max (need x) (need_members l))).
  now rewrite <- IH.
Qed.

Lemma json_data_array (items : list (value num)) :
  json_data (JArr items) -> Forall json_data items.
Proof.
  cbn [data]. induction items as [|x l IH]; [constructor|].
  intros [Hx Hl]. constructor; auto.
Qed.

Lemma json_data_object (props : list (string * value num)) :
  json_data (JObj props) ->
  List.NoDup (map fst props) /\ Forall (fun kv => json_data (snd kv)) props.
Proof.
  cbn [data]. intros (Hn & _ & H). split; [exact Hn|]. clear Hn.
  induction props as [|[k x] l IH]; [constructor|].
  destruct H as [Hx Hl]. constructor; auto.
Qed.

Lemma stringify_array (items : list (value num)) :
  JSON_stringify (JArr items)
  = "[" +:+ JsString.join "," (map JSON_stringify items) +:+ "]".
Proof. reflexivity. Qed.

Lemma stringify_object (props : list (string * value num)) :
  Forall (fun kv => json_data (snd kv)) props ->
  JSON_stringify (JObj props)
  = "{" +:+ JsString.join "," (map member_text props) +:+ "}".
Proof.
  intros H. cbn [stringify]. do 3 f_equal.
  induction H as [|[k x] l Hx Hl IH]; [reflexivity|].
  cbn [flat_map map]. rewrite IH. unfold member_text. simpl fst. simpl snd.
  destruct x; try reflexivity. destruct Hx.
Qed.

Lemma value_head (v : value num) :
  json_data v ->
  exists c s, JSON_stringify v = String c s /\ opens c = true.
Proof.
  destruct v as [| |[]|z|s|items|props]; intros H.
  - destruct H.
  - now exists "n"%char, "ull".
  - now exists "t"%char, "rue".
  - now exists "f"%char, "alse".
  - destruct (print_head z H) as (c & s & E & _ & _ & Ho). now exists c, s.
  - exists quote. eexists. split; [reflexivity|reflexivity].
  - rewrite stringify_array. eexists _, _. split; [reflexivity|reflexivity].
  - apply json_data_object in H as [_ H]. rewrite stringify_object by exact H.
    eexists _, _. split; [reflexivity|reflexivity].
Qed.

Lemma value_induction (P : value num -> Prop) :
  P JUndefined -> P JNull -> (forall b, P (JBool b)) ->
  (forall n, P (JNum n)) -> (forall s, P (JStr s)) ->
  (forall items, Forall P items -> P (JArr items)) ->
  (forall props, Forall (fun kv => P (snd kv)) props -> P (JObj props)) ->
  forall v, P v.
Proof.
  intros Hu Hn Hb Hz Hs Ha Ho.
  fix IH 1. intros [| |b|n|s|items|props].
  - exact Hu.
  - exact Hn.
  - apply Hb.
  - apply Hz.
  - apply Hs.
  - apply Ha. induction items as [|x l IHl]; constructor; [apply IH|exact IHl].
  - apply Ho. induction props as [|[k x] l IHl]; constructor;
      [apply IH|exact IHl].
Qed.

Lemma join_cons2 (x y : string) (l : list string) :
  JsString.join "," (x :: y :: l) = x +:+ "," +:+ JsString.join "," (y :: l).
Proof. reflexivity. Qed.

Lemma join_head (x : string) (l : list string) :
  (exists c s, x = String c s /\ opens c = true) ->
  exists c s, JsString.join "," (x :: l) = String c s /\ opens c = true.
Proof.
  intros (c & s & -> & Hc). destruct l as [|y l].
  - now exists c, s.
  - rewrite join_cons2, append_cons. now eexists _, _.
Qed.

Lemma opens_skip (c : ascii) (s : string) :
  opens c = true -> skip (String c s) = String c s.
Proof.
  intros H. apply skip_keep. unfold opens in H.
  destruct (whitespace c); [discriminate|reflexivity].
Qed.

Lemma elements_items (items : list (value num)) :
  items <> [] -> Forall json_data items -> Forall parses items ->
  forall fuel rest,
    need_items items <= fuel ->
    elements fuel
      (JsString.join "," (map JSON_stringify items) +:+ String "]" rest)
    = Some (items, rest).
Proof.
  induction items as [|x l IH]; [congruence|].
  intros _ Hd Hp fuel rest Hf.
  apply Forall_cons in Hd as [Hdx Hdl]. apply Forall_cons in Hp as [Hpx Hpl].
  change (need_items (x :: l)) with (S (Nat.max (need x) (need_items l))) in Hf.
  destruct fuel as [|f]; [lia|]. rewrite elements_step.
  destruct l as [|y l'].
  - cbn [map JsString.join].
    rewrite (Hpx f (String "]" rest)) by (try lia; reflexivity).
    reflexivity.
  - cbn [map]. rewrite join_cons2, !append_assoc, append_cons, append_empty.
    rewrite (Hpx f) by (try lia; reflexivity).
    cbn [skip]. change (whitespace ",") with false. cbv iota.
    assert (Hk : skip (JsString.join "," (map JSON_stringify (y :: l'))
                       +:+ String "]" rest)
                 = JsString.join "," (map JSON_stringify (y :: l'))
                   +:+ String "]" rest).
    { destruct (join_head (JSON_stringify y)
                  (map JSON_stringify l') (value_head y (Forall_inv Hdl)))
        as (c & s & E & Hc).
      cbn [map]. rewrite E, append_cons. now apply opens_skip. }
    cbn [map] in Hk, IH. rewrite Hk.
    rewrite IH; [reflexivity|discriminate|exact Hdl|exact Hpl|lia].
Qed.

Lemma member_head (kv : string * value num) (l : list string) :
  exists s, JsString.join "," (member_text kv :: l) = String quote s.
Proof.
  unfold member_text, quoted. destruct l as [|y l].
  - cbn [JsString.join]. rewrite append_cons. now eexists.
  - rewrite join_cons2, !append_cons. now eexists.
Qed.

Lemma members_props (props : list (string * value num)) :
  props <> [] ->
  Forall (fun kv => json_data (snd kv)) props ->
  Forall (fun kv => parses (snd kv)) props ->
  forall fuel rest,
    need_members props <= fuel ->
    members fuel
      (JsString.join "," (map member_text props) +:+ String "}" rest)
    = Some (props, rest).
Proof.
  induction props as [|[k x] l IH]; [congruence|].
  intros _ Hd Hp fuel rest Hf.
  apply Forall_cons in Hd as [Hdx Hdl]. apply Forall_cons in Hp as [Hpx Hpl].
  cbn [snd] in Hdx, Hpx.
  change (need_members ((k, x) :: l))
    with (S (Nat.max (need x) (need_members l))) in Hf.
  destruct fuel as [|f]; [lia|].
  assert (Hval : forall r, closes r = true ->
    members (S f) (member_text (k, x) +:+ r)
    = match skip r with
      | String "," r3 =>
          match members f (skip r3) with
          | Some (ms, r4) => Some ((k, x) :: ms, r4)
          | None => None
          end
      | String "}" r3 => Some ([(k, x)], r3)
      | _ => None
      end).
  { intros r Hr. unfold member_text, quoted. cbn [fst snd].
    repeat (rewrite append_assoc || rewrite append_cons
            || rewrite append_empty).
    rewrite members_step, characters_quoted.
    cbn [skip]. change (whitespace ":") with false. cbv iota.
    destruct (value_head x Hdx) as (c & s & E & Hc).
    assert (Hk : skip (JSON_stringify x +:+ r) = JSON_stringify x +:+ r)
      by (rewrite E, append_cons; now apply opens_skip).
    rewrite Hk, (Hpx f r) by (try lia; exact Hr). reflexivity. }
  destruct l as [|y l'].
  - cbn [map JsString.join]. rewrite Hval by reflexivity. reflexivity.
  - cbn [map]. rewrite join_cons2, !append_assoc, append_cons, append_empty.
    rewrite Hval by reflexivity.
    cbn [skip]. change (whitespace ",") with false. cbv iota.
    assert (Hk : skip (JsString.join "," (map member_text (y :: l'))
                       +:+ String "}" rest)
                 = JsString.join "," (map member_text (y :: l'))
                   +:+ String "}" rest).
    { destruct (member_head y (map member_text l')) as (s & E).
      cbn [map]. rewrite E, append_cons. reflexivity. }
    cbn [map] in Hk, IH. rewrite Hk.
    rewrite IH; [reflexivity|discriminate|exact Hdl|exact Hpl|lia].
Qed.

Lemma set_prop_fresh (k : string) (v : value num)
  (props : list (string * value num)) :
  ~ In k (map fst props) -> set_prop k v props = props ++ [(k, v)].
Proof.
  induction props as [|[k' v'] props IH]; simpl; [reflexivity|].
  intros H. destruct (String.eqb_spec k' k) as [->|_]; [tauto|].
  rewrite IH; tauto.
Qed.

Lemma object_of_props (props : list (string * value num)) :
  List.NoDup (map fst props) -> object_of props = JObj props.
Proof.
  unfold object_of. intros H. f_equal.
  assert (G : forall acc,
    (forall k, In k (map fst props) -> ~ In k (map fst acc)) ->
    fold_left (fun props kv => set_prop (fst kv) (snd kv) props) props acc
    = acc ++ props); [|now apply (G [])].
  induction props as [|[k v] l IH]; intros acc Hacc; simpl.
  - now rewrite app_nil_r.
  - apply List.NoDup_cons_iff in H as [Hk Hl].
    rewrite set_prop_fresh by (apply Hacc; now left).
    rewrite IH; [now rewrite <- app_assoc|exact Hl|].
    intros k' Hk' Hin. rewrite map_app, in_app_iff in Hin.
    destruct Hin as [Hin|[<-|[]]]; [|exact (Hk Hk')].
    apply (Hacc k'); [now right|exact Hin].
Qed.

Theorem element_stringify (v : value num) : json_data v -> parses v.
Proof.
  induction v as [| |b|z|s|items IH|props IH] using value_induction;
    intros Hd fuel rest Hf Hr; try (destruct fuel as [|f]; [simpl in Hf; lia|]).
  - destruct Hd.
  - apply element_null.
  - destruct b; [apply element_true|apply element_false].
  - apply element_number; [exact Hd|]. now apply closes_ends_numeral.
  - apply element_string.
  - rewrite need_array in Hf. apply json_data_array in Hd.
    rewrite stringify_array.
    repeat (rewrite append_assoc || rewrite append_cons
            || rewrite append_empty).
    destruct items as [|x l].
    + reflexivity.
    + assert (Hp : Forall parses (x :: l)).
      { apply Forall_forall. intros y Hy.
        rewrite Forall_forall in IH, Hd. auto. }
      destruct (join_head (JSON_stringify x)
                  (map JSON_stringify l) (value_head x (Forall_inv Hd)))
        as (c & s & E & Hc).
      pose proof (elements_items (x :: l) ltac:(discriminate) Hd Hp f rest
                    ltac:(lia)) as He.
      cbn [map] in He |- *. rewrite E, append_cons in *.
      now rewrite element_array_open, He.
  - rewrite need_object in Hf. apply json_data_object in Hd as [Hn Hd].
    rewrite (stringify_object props Hd).
    repeat (rewrite append_assoc || rewrite append_cons
            || rewrite append_empty).
    destruct props as [|kv l].
    + reflexivity.
    + assert (Hp : Forall (fun kv => parses (snd kv)) (kv :: l)).
      { apply Forall_forall. intros y Hy.
        rewrite Forall_forall in IH, Hd. auto. }
      destruct (member_head kv (map member_text l)) as (s & E).
      pose proof (members_props (kv :: l) ltac:(discriminate) Hd Hp f rest
                    ltac:(lia)) as He.
      cbn [map] in He |- *. rewrite E, append_cons in *.
      rewrite element_object_open, He by reflexivity.
      now rewrite object_of_props.
Qed.

Lemma length_append (s t : string) :
  String.length (s +:+ t) = String.length s + String.length t.
Proof.
  induction s as [|c s IH]; [reflexivity|].
  rewrite append_cons. simpl. now rewrite IH.
Qed.

Lemma append_empty_r (s : string) : s +:+ "" = s.
Proof.
  induction s as [|c s IH]; [reflexivity|]. now rewrite append_cons, IH.
Qed.

Lemma need_items_bound (items : list (value num)) :
  Forall (fun x => need x <= String.length (JSON_stringify x)) items ->
  need_items items
  <= S (String.length (JsString.join "," (map JSON_stringify items))).
Proof.
  induction 1 as [|x l Hx Hl IH]; [simpl; lia|].
  change (need_items (x :: l)) with (S (Nat.max (need x) (need_items l))).
  destruct l as [|y l'].
  - cbn [map JsString.join need_items fold_right]. lia.
  - cbn [map] in *. rewrite join_cons2, !length_append.
    change (String.length ",") with 1. lia.
Qed.

Lemma need_members_bound (props : list (string * value num)) :
  Forall (fun kv => need (snd kv) <= String.length (JSON_stringify (snd kv)))
    props ->
  need_members props
  <= S (String.length (JsString.join "," (map member_text props))).
Proof.
  induction 1 as [|[k x] l Hx Hl IH]; [simpl; lia|].
  change (need_members ((k, x) :: l))
    with (S (Nat.max (need x) (need_members l))).
  cbn [snd] in Hx.
  assert (Hm : String.length (JSON_stringify x)
               <= String.length (member_text (k, x))).
  { unfold member_text. cbn [fst snd]. rewrite !length_append. lia. }
  destruct l as [|y l'].
  - cbn [map JsString.join need_members fold_right]. lia.
  - cbn [map] in *. rewrite join_cons2, !length_append.
    change (String.length ",") with 1. lia.
Qed.

Lemma need_bound (v : value num) :
  json_data v -> need v <= String.length (JSON_stringify v).
Proof.
  induction v as [| |b|z|s|items IH|props IH] using value_induction;
    intros Hd.
  - destruct Hd.
  - simpl. lia.
  - destruct b; simpl; lia.
  - destruct (print_head z Hd) as (c & s & E & _).
    cbn [stringify need]. rewrite E. simpl. lia.
  - cbn [stringify need]. unfold quoted. simpl. lia.
  - apply json_data_array in Hd. rewrite need_array, stringify_array.
    rewrite !length_append. simpl String.length.
    pose proof (need_items_bound items) as Hb.
    assert (Forall (fun x => need x <= String.length (JSON_stringify x))
              items) as Hall.
    { apply Forall_forall. intros y Hy. rewrite Forall_forall in IH, Hd.
      auto. }
    specialize (Hb Hall). lia.
  - apply json_data_object in Hd as [_ Hd].
    rewrite need_object, (stringify_object props Hd).
    rewrite !length_append. simpl String.length.
    pose proof (need_members_bound props) as Hb.
    assert (Forall (fun kv => need (snd kv)
                              <= String.length (JSON_stringify (snd kv)))
              props) as Hall.
    { apply Forall_forall. intros y Hy. rewrite Forall_forall in IH, Hd.
      auto. }
    specialize (Hb Hall). lia.
Qed.

Theorem parse_stringify (v : value num) :
  json_data v -> parse read (JSON_stringify v) = Some v.
Proof.
  intros Hd. unfold parse.
  destruct (value_head v Hd) as (c & s & E & Hc).
  assert (Hk : skip (JSON_stringify v) = JSON_stringify v)
    by (rewrite E; now apply opens_skip).
  rewrite Hk.
  pose proof (element_stringify v Hd
                (2 * String.length (JSON_stringify v) + 2) "") as He.
  rewrite append_empty_r in He. rewrite He; [reflexivity| |reflexivity].
  pose proof (need_bound v Hd). lia.
Qed.

End JsonFacts.

(** The integers. *)
Theorem JSON_parse_stringify (v : value Z) :
  json_data v -> JSON_parse (JSON_stringify v) = Some v.
Proof.
  apply (parse_stringify numeral Number_toString safe_integer).
  - intros n rest _. apply numeral_of_Z.
  - intros n _. apply number_head.
Qed.

(** *** Base64 *)

Ltac euclid := zify; Z.to_euclidean_division_equations; lia.

Lemma below_64 (P : N -> bool) :
  forallb P (map N.of_nat (seq 0 64)) = true ->
  forall n, (n < 64)%N -> P n = true.
Proof.
  intros H n Hn. rewrite forallb_forall in H. apply H.
  apply in_map_iff. exists (N.to_nat n). split; [lia|].
  apply in_seq. lia.
Qed.

Lemma sextet_character (n : N) :
  (n < 64)%N ->
  sextet (base64_character n) = Some n
  /\ Ascii.eqb (base64_character n) "=" = false.
Proof.
  intros Hn.
  pose proof (below_64
    (fun n => match sextet (base64_character n) with
              | Some m => N.eqb m n
              | None => false
              end && negb (Ascii.eqb (base64_character n) "="))
    eq_refl n Hn) as H.
  apply andb_prop in H as [H1 H2].
  destruct (sextet (base64_character n)) as [m|]; [|discriminate].
  apply N.eqb_eq in H1. apply negb_true_iff in H2. now subst.
Qed.

Lemma sextets_character (n : N) (s : string) :
  (n < 64)%N -> sextets (String (base64_character n) s) = n :: sextets s.
Proof.
  intros Hn. destruct (sextet_character n Hn) as [H1 H2].
  cbn [sextets]. now rewrite H2, H1.
Qed.

Lemma octet_mod (m n : N) : (m mod 256 = n mod 256)%N -> octet m = octet n.
Proof. unfold octet. now intros ->. Qed.

Lemma octets_encode (l : list N) :
  Forall (fun n => (n < 256)%N) l ->
  octets (sextets (base64_encode l)) = map octet l.
Proof.
  assert (H : forall k l, length l <= k ->
    Forall (fun n => (n < 256)%N) l ->
    octets (sextets (base64_encode l)) = map octet l);
    [|now apply (H (length l))].
  clear l. induction k as [|k IH]; intros l Hk Hl.
  { destruct l; [reflexivity|simpl in Hk; lia]. }
  destruct l as [|a [|b [|c l]]]; [reflexivity|..].
  - apply Forall_cons in Hl as [Ha _].
    cbn [base64_encode]. rewrite !sextets_character by euclid.
    cbn [sextets octets map]. change (Ascii.eqb "=" "=") with true. cbv iota.
    cbn [octets]. f_equal. apply octet_mod. euclid.
  - apply Forall_cons in Hl as [Ha Hl]. apply Forall_cons in Hl as [Hb _].
    cbn [base64_encode]. rewrite !sextets_character by euclid.
    cbn [sextets octets map]. change (Ascii.eqb "=" "=") with true. cbv iota.
    cbn [octets]. f_equal; [|f_equal]; apply octet_mod; euclid.
  - apply Forall_cons in Hl as [Ha Hl]. apply Forall_cons in Hl as [Hb Hl].
    apply Forall_cons in Hl as [Hc Hl].
    cbn [base64_encode]. rewrite !sextets_character by euclid.
    cbn [octets map]. rewrite IH by (simpl in Hk; try lia; exact Hl).
    f_equal; [|f_equal; [|f_equal]]; apply octet_mod; euclid.
Qed.

Theorem base64_round_trip (b : list byte) :
  Buffer_from_base64 (Buffer_to_base64 b) = b.
Proof.
  unfold Buffer_from_base64, Buffer_to_base64.
  rewrite octets_encode.
  - rewrite map_map. rewrite <- (map_id b) at 2. apply map_ext.
    intros x. unfold octet.
    rewrite N.mod_small by apply N_ascii_bounded.
    now rewrite ascii_N_embedding, byte_of_ascii_of_byte.
  - apply List.Forall_forall. intros n Hn. apply in_map_iff in Hn as (x & <- & _).
    apply N_ascii_bounded.
Qed.

(** *** UTF-8 *)

Lemma well_formed_induction (P : list N -> Prop) :
  P [] ->
  (forall b0 t,
     N.ltb b0 128 = true -> well_formed t = true -> P t -> P (b0 :: t)) ->
  (forall b0 b1 t,
     N.ltb b0 128 = false -> between 194 223 b0 = true ->
     continuation b1 = true ->
     well_formed t = true -> P t -> P (b0 :: b1 :: t)) ->
  (forall b0 b1 b2 t,
     N.ltb b0 128 = false -> between 194 223 b0 = false ->
     between 224 244 b0 = true -> N.ltb b0 240 = true ->
     between (second_low b0) (second_high b0) b1 = true ->
     continuation b2 = true ->
     well_formed t = true -> P t -> P (b0 :: b1 :: b2 :: t)) ->
  (forall b0 b1 b2 b3 t,
     N.ltb b0 128 = false -> between 194 223 b0 = false ->
     between 224 244 b0 = true -> N.ltb b0 240 = false ->
     between (second_low b0) (second_high b0) b1 = true ->
     continuation b2 = true -> continuation b3 = true ->
     well_formed t = true -> P t -> P (b0 :: b1 :: b2 :: b3 :: t)) ->
  forall l, well_formed l = true -> P l.
Proof.
  intros H0 H1 H2 H3 H4.
  assert (H : forall k l, length l <= k -> well_formed l = true -> P l);
    [|intros l; now apply (H (length l))].
  induction k as [|k IH]; intros l Hk Hl.
  { destruct l; [exact H0|simpl in Hk; lia]. }
  destruct l as [|b0 t0]; [exact H0|]. cbn [well_formed] in Hl.
  simpl in Hk.
  destruct (N.ltb b0 128) eqn:E1.
  { apply H1; auto. apply IH; [lia|exact Hl]. }
  destruct (between 194 223 b0) eqn:E2.
  { destruct t0 as [|b1 t1]; [discriminate|].
    apply andb_prop in Hl as [Hc Hl]. simpl in Hk.
    apply H2; auto. apply IH; [lia|exact Hl]. }
  destruct (between 224 244 b0) eqn:E3; [|discriminate].
  destruct t0 as [|b1 [|b2 t2]]; try discriminate.
  apply andb_prop in Hl as [Hl Hr]. apply andb_prop in Hl as [Hb1 Hb2].
  simpl in Hk.
  destruct (N.ltb b0 240) eqn:E4.
  { apply H3; auto. apply IH; [lia|exact Hr]. }
  destruct t2 as [|b3 t3]; [discriminate|].
  apply andb_prop in Hr as [Hb3 Hr]. simpl in Hk.
  apply H4; auto. apply IH; [lia|exact Hr].
Qed.

Lemma utf8_decode_well_formed (l : list N) :
  well_formed l = true -> utf8_decode l = l.
Proof.
  revert l. apply well_formed_induction.
  - reflexivity.
  - intros b0 t H _ IH. cbn [utf8_decode]. rewrite H. now f_equal.
  - intros b0 b1 t H H0 H1 _ IH. cbn [utf8_decode].
    rewrite H, H0, H1. now do 2 f_equal.
  - intros b0 b1 b2 t H H0 H1 H2 H3 H4 _ IH. cbn [utf8_decode].
    rewrite H, H0, H1, H3, H4, H2. now do 3 f_equal.
  - intros b0 b1 b2 b3 t H H0 H1 H2 H3 H4 H5 _ IH. cbn [utf8_decode].
    rewrite H, H0, H1, H3, H4, H2, H5. now do 4 f_equal.
Qed.

Lemma well_formed_app (a b : list N) :
  well_formed a = true -> well_formed (a ++ b) = well_formed b.
Proof.
  revert a. apply (well_formed_induction
                     (fun a => well_formed (a ++ b) = well_formed b)).
  - reflexivity.
  - intros b0 t H _ IH. cbn [app well_formed]. now rewrite H.
  - intros b0 b1 t H H0 H1 _ IH. cbn [app well_formed].
    now rewrite H, H0, H1.
  - intros b0 b1 b2 t H H0 H1 H2 H3 H4 _ IH. cbn [app well_formed].
    now rewrite H, H0, H1, H3, H4, H2.
  - intros b0 b1 b2 b3 t H H0 H1 H2 H3 H4 H5 _ IH. cbn [app well_formed].
    now rewrite H, H0, H1, H3, H4, H2, H5.
Qed.

Lemma bytes_of_append (s t : string) :
  bytes_of (s +:+ t) = bytes_of s ++ bytes_of t.
Proof.
  unfold bytes_of. induction s as [|c s IH]; [reflexivity|].
  rewrite append_cons. simpl. now rewrite IH.
Qed.

Lemma utf8_text_append (s t : string) :
  utf8_text s = true -> utf8_text t = true -> utf8_text (s +:+ t) = true.
Proof.
  unfold utf8_text. intros Hs Ht.
  now rewrite bytes_of_append, well_formed_app.
Qed.

Theorem Buffer_toString_from (s : string) :
  utf8_text s = true -> Buffer_toString (Buffer_from s) = s.
Proof.
  unfold utf8_text, bytes_of, Buffer_toString, Buffer_from. intros H.
  rewrite map_map.
  rewrite (map_ext _ N_of_ascii)
    by (intros a; now rewrite ascii_of_byte_of_ascii).
  rewrite utf8_decode_well_formed by exact H.
  rewrite map_map.
  rewrite (map_ext _ (fun a => a)) by apply ascii_N_embedding.
  rewrite map_id. apply string_of_list_ascii_of_string.
Qed.

Lemma all_ascii_text (s : string) : all_ascii s = true -> utf8_text s = true.
Proof.
  unfold all_ascii, utf8_text, bytes_of.
  induction s as [|c s IH]; [reflexivity|]. simpl. intros H.
  apply andb_prop in H as [Hc Hs]. rewrite Hc. now apply IH.
Qed.

Lemma quoted_character_ascii (c : ascii) :
  N.ltb (N_of_ascii c) 128 = true -> all_ascii (quoted_character c) = true.
Proof. intros H. each_character c; try discriminate H; reflexivity. Qed.

Lemma quoted_character_high (c : ascii) :
  N.ltb (N_of_ascii c) 128 = false -> quoted_character c = String c "".
Proof. intros H. each_character c; try discriminate H; reflexivity. Qed.

Lemma bytes_of_cons (s : string) (b : N) (t : list N) :
  bytes_of s = b :: t ->
  exists c s', s = String c s' /\ N_of_ascii c = b /\ bytes_of s' = t.
Proof.
  destruct s as [|c s']; [discriminate|]. unfold bytes_of. simpl.
  intros [= <- <-]. now exists c, s'.
Qed.

Lemma quoted_characters_text (s : string) :
  utf8_text s = true -> utf8_text (quoted_characters s) = true.
Proof.
  unfold utf8_text at 1. remember (bytes_of s) as l eqn:El. intros H.
  symmetry in El. revert s El. revert l H.
  apply (well_formed_induction
           (fun l => forall s, bytes_of s = l ->
                               utf8_text (quoted_characters s) = true)).
  - intros [|c s]; [reflexivity|discriminate].
  - intros b0 t H _ IH s Es.
    apply bytes_of_cons in Es as (c & s' & -> & <- & Es).
    cbn [quoted_characters]. apply utf8_text_append; [|now apply IH].
    now apply all_ascii_text, quoted_character_ascii.
  - intros b0 b1 t H H0 H1 _ IH s Es.
    apply bytes_of_cons in Es as (c0 & s0 & -> & <- & Es).
    apply bytes_of_cons in Es as (c1 & s1 & -> & <- & Es).
    assert (Hh : N.ltb (N_of_ascii c1) 128 = false).
    { unfold continuation, between in H1. apply andb_prop in H1 as [H1 _].
      apply N.leb_le in H1. apply N.ltb_ge. lia. }
    cbn [quoted_characters].
    rewrite (quoted_character_high c0 H), (quoted_character_high c1 Hh).
    rewrite !append_cons, !append_empty.
    specialize (IH s1 Es). unfold utf8_text, bytes_of in *. simpl.
    now rewrite H, H0, H1.
  - intros b0 b1 b2 t H H0 H1 H2 H3 H4 _ IH s Es.
    apply bytes_of_cons in Es as (c0 & s0 & -> & <- & Es).
    apply bytes_of_cons in Es as (c1 & s1 & -> & <- & Es).
    apply bytes_of_cons in Es as (c2 & s2 & -> & <- & Es).
    assert (Hh1 : N.ltb (N_of_ascii c1) 128 = false).
    { unfold between in H3. apply andb_prop in H3 as [H3 _].
      apply N.leb_le in H3. apply N.ltb_ge.
      unfold second_low in H3.
      destruct (N.eqb (N_of_ascii c0) 224), (N.eqb (N_of_ascii c0) 240); lia. }
    assert (Hh2 : N.ltb (N_of_ascii c2) 128 = false).
    { unfold continuation, between in H4. apply andb_prop in H4 as [H4 _].
      apply N.leb_le in H4. apply N.ltb_ge. lia. }
    cbn [quoted_characters].
    rewrite (quoted_character_high c0 H), (quoted_character_high c1 Hh1),
      (quoted_character_high c2 Hh2).
    rewrite !append_cons, !append_empty.
    specialize (IH s2 Es). unfold utf8_text, bytes_of in *. simpl.
    now rewrite H, H0, H1, H2, H3, H4.
  - intros b0 b1 b2 b3 t H H0 H1 H2 H3 H4 H5 _ IH s Es.
    apply bytes_of_cons in Es as (c0 & s0 & -> & <- & Es).
    apply bytes_of_cons in Es as (c1 & s1 & -> & <- & Es).
    apply bytes_of_cons in Es as (c2 & s2 & -> & <- & Es).
    apply bytes_of_cons in Es as (c3 & s3 & -> & <- & Es).
    assert (Hh1 : N.ltb (N_of_ascii c1) 128 = false).
    { unfold between in H3. apply andb_prop in H3 as [H3 _].
      apply N.leb_le in H3. apply N.ltb_ge.
      unfold second_low in H3.
      destruct (N.eqb (N_of_ascii c0) 224), (N.eqb (N_of_ascii c0) 240); lia. }
    assert (Hh2 : N.ltb (N_of_ascii c2) 128 = false).
    { unfold continuation, between in H4. apply andb_prop in H4 as [H4 _].
      apply N.leb_le in H4. apply N.ltb_ge. lia. }
    assert (Hh3 : N.ltb (N_of_ascii c3) 128 = false).
    { unfold continuation, between in H5. apply andb_prop in H5 as [H5 _].
      apply N.leb_le in H5. apply N.ltb_ge. lia. }
    cbn [quoted_characters].
    rewrite (quoted_character_high c0 H), (quoted_character_high c1 Hh1),
      (quoted_character_high c2 Hh2), (quoted_character_high c3 Hh3).
    rewrite !append_cons, !append_empty.
    specialize (IH s3 Es). unfold utf8_text, bytes_of in *. simpl.
    now rewrite H, H0, H1, H2, H3, H4, H5.
Qed.

(** *** The text of a value is well-formed *)

Lemma json_text_array {num : Type} (items : list (value num)) :
  json_text (JArr items) <-> Forall json_text items.
Proof.
  cbn [json_text]. induction items as [|x l IH].
  - split; [constructor|tauto].
  - rewrite Forall_cons, <- IH. tauto.
Qed.

Lemma json_text_object {num : Type} (props : list (string * value num)) :
  json_text (JObj props)
  <-> Forall (fun kv => utf8_text (fst kv) = true /\ json_text (snd kv)) props.
Proof.
  cbn [json_text]. induction props as [|[k x] l IH].
  - split; [constructor|tauto].
  - rewrite Forall_cons, <- IH. simpl. tauto.
Qed.

Lemma all_ascii_uint (d : Decimal.uint) :
  all_ascii (NilEmpty.string_of_uint d) = true.
Proof. induction d; simpl; auto. Qed.

Lemma all_ascii_number (z : Z) : all_ascii (Number_toString z) = true.
Proof.
  unfold Number_toString, NilZero.string_of_int, NilZero.string_of_uint.
  destruct z as [|p|p]; simpl Z.to_int; cbv iota.
  - reflexivity.
  - destruct (Pos.to_uint p) eqn:E; rewrite <- ?E; try reflexivity;
      apply all_ascii_uint.
  - destruct (Pos.to_uint p) eqn:E; rewrite <- ?E; try reflexivity;
      apply (all_ascii_uint (Pos.to_uint p)).
Qed.

Lemma quoted_text (s : string) :
  utf8_text s = true -> utf8_text (quoted s) = true.
Proof.
  intros H. unfold quoted.
  change (String quote (quoted_characters s +:+ String quote ""))
    with (String quote "" +:+ (quoted_characters s +:+ String quote "")).
  apply utf8_text_append; [reflexivity|].
  apply utf8_text_append; [now apply quoted_characters_text|reflexivity].
Qed.

Lemma join_text (pieces : list string) :
  Forall (fun p => utf8_text p = true) pieces ->
  utf8_text (JsString.join "," pieces) = true.
Proof.
  induction 1 as [|x l Hx Hl IH]; [reflexivity|].
  destruct l as [|y l']; [exact Hx|].
  change (JsString.join "," (x :: y :: l'))
    with (x +:+ "," +:+ JsString.join "," (y :: l')).
  apply utf8_text_append; [exact Hx|].
  apply utf8_text_append; [reflexivity|exact IH].
Qed.

Section TextFacts.

Context {num : Type}.

Variable print : num -> string.
Variable exact : num -> Prop.

Hypothesis print_ascii : forall n, exact n -> all_ascii (print n) = true.

Local Abbreviation JSON_stringify := (stringify print).
Local Abbreviation json_data := (data exact).

Theorem stringify_well_formed (v : value num) :
  json_data v -> json_text v -> utf8_text (JSON_stringify v) = true.
Proof.
  induction v as [| |b|z|s|items IH|props IH] using value_induction;
    intros Hd Ht.
  - reflexivity.
  - reflexivity.
  - now destruct b.
  - now apply all_ascii_text, print_ascii.
  - now apply quoted_text.
  - apply json_text_array in Ht. apply (json_data_array exact) in Hd.
    change (JSON_stringify (JArr items))
      with ("[" +:+ JsString.join "," (map JSON_stringify items) +:+ "]").
    apply utf8_text_append; [reflexivity|].
    apply utf8_text_append; [|reflexivity].
    apply join_text. apply List.Forall_forall. intros p Hp.
    apply in_map_iff in Hp as (x & <- & Hx).
    rewrite List.Forall_forall in IH, Ht, Hd. auto.
  - apply json_text_object in Ht.
    apply (json_data_object exact) in Hd as [_ Hd].
    cbn [stringify].
    apply utf8_text_append; [reflexivity|].
    apply utf8_text_append; [|reflexivity].
    apply join_text. apply List.Forall_forall. intros p Hp.
    apply in_flat_map in Hp as ([k x] & Hkx & Hp).
    rewrite List.Forall_forall in IH, Ht, Hd.
    specialize (IH _ Hkx (Hd _ Hkx)). destruct (Ht _ Hkx) as [Hk Hx].
    cbn [fst snd] in *.
    assert (Hm : utf8_text (quoted k +:+ ":" +:+ JSON_stringify x) = true).
    { apply utf8_text_append; [now apply quoted_text|].
      apply utf8_text_append; [reflexivity|auto]. }
    destruct x; simpl in Hp; try (destruct Hp as [<-|[]]; exact Hm).
    destruct Hp.
Qed.

End TextFacts.

(** The integers. *)
Theorem stringify_text (v : value Z) :
  json_data v -> json_text v -> utf8_text (JSON_stringify v) = true.
Proof.
  apply (stringify_well_formed Number_toString safe_integer).
  intros n _. apply all_ascii_number.
Qed.

End ReferenceFacts.

(** ** The codecs of the runtime with the numbers of JavaScript

    A finite number other than the negative zero is read back from the
    text that is printed for it: the digits that are printed are read as
    the number, and seventeen digits at most are needed. *)

Module Binary64Facts.

Import Reference Binary64.

Local Open Scope Z_scope.

(** *** Rounding *)

Lemma round_step (a d m : Z) :
  0 < d -> (2 * m - 1) * d < 2 * a < (2 * m + 1) * d ->
  (if 2 * (a mod d) <? d then a / d
   else if d <? 2 * (a mod d) then a / d + 1
   else if Z.even (a / d) then a / d else a / d + 1) = m.
Proof.
  intros Hd [Hl Hu].
  pose proof (Z.div_mod a d ltac:(lia)) as Ha.
  pose proof (Z.mod_pos_bound a d Hd) as Hr.
  assert (Hq : a / d = m \/ a / d = m - 1) by nia.
  destruct Hq as [Hq|Hq]; rewrite Hq in *.
  - destruct (Z.ltb_spec (2 * (a mod d)) d); [reflexivity|nia].
  - destruct (Z.ltb_spec (2 * (a mod d)) d); [nia|].
    destruct (Z.ltb_spec d (2 * (a mod d))); [lia|nia].
Qed.

Lemma log2_quotient (a q b : Z) :
  0 < q -> 0 <= b -> 2 ^ b * q <= a < 2 ^ (b + 1) * q ->
  Z.log2 (a / q) = b.
Proof.
  intros Hq Hb [Hl Hu]. apply Z.log2_unique; [exact Hb|]. split.
  - apply Z.div_le_lower_bound; lia.
  - apply Z.div_lt_upper_bound; lia.
Qed.

Lemma nearest_within (negative : bool) (m e p q : Z) :
  binary64 m e -> 0 < q -> within m (e + 1074) p q ->
  nearest negative p q = Finite negative m e.
Proof.
  intros (Hm & He & Hn) Hq [[Hl Hu] Hb].
  unfold nearest.
  set (a := p * 2 ^ 1074) in *.
  set (E := e + 1074) in *.
  assert (HE : 0 <= E) by lia.
  pose proof (Z.pow_pos_nonneg 2 E ltac:(lia) HE) as HP.
  assert (H52 : 2 ^ 52 = 4503599627370496) by reflexivity.
  assert (H53 : 2 ^ 53 = 9007199254740992) by reflexivity.
  (* the exponent that the rounding takes *)
  assert (Hcase :
    (Z.max 0 (Z.log2 (a / q) - 52) = E
     /\ (2 * m - 1) * (q * 2 ^ E) < 2 * a < (2 * m + 1) * (q * 2 ^ E))
    \/ (m = 2 ^ 52 /\ 0 < E
        /\ Z.max 0 (Z.log2 (a / q) - 52) = E - 1
        /\ (2 * 2 ^ 53 - 1) * (q * 2 ^ (E - 1)) < 2 * a
           < (2 * 2 ^ 53 + 1) * (q * 2 ^ (E - 1)))).
  { destruct (Z.le_gt_cases (2 ^ 52 * (2 ^ E * q)) a) as [Hc|Hc].
    - (* at or above the least significand of the exponent *)
      left. split; [|split; nia].
      destruct (Z.le_gt_cases (2 ^ 52) m) as [Hm'|Hm'].
      + rewrite (log2_quotient a q (52 + E)); [lia|lia|lia|].
        rewrite !Z.pow_add_r by lia. change (2 ^ 1) with 2. nia.
      + nia.
    - destruct (Z.le_gt_cases (2 ^ 52) m) as [Hm'|Hm'].
      + assert (m = 2 ^ 52) as Hm2 by nia.
        destruct (Z.eq_dec E 0) as [HE0|HE0].
        * left. split; [|split; nia].
          rewrite HE0 in *. change (2 ^ 0) with 1 in *.
          assert (a / q = 2 ^ 52 - 1) as ->.
          { symmetry. apply Z.div_unique with (r := a - (2 ^ 52 - 1) * q); nia. }
          reflexivity.
        * right. split; [exact Hm2|]. split; [lia|].
          specialize (Hb Hm2 ltac:(lia)).
          assert (HP' : 2 ^ E = 2 * 2 ^ (E - 1)).
          { replace E with (1 + (E - 1)) at 1 by lia.
            rewrite Z.pow_add_r by lia. reflexivity. }
          pose proof (Z.pow_pos_nonneg 2 (E - 1) ltac:(lia) ltac:(lia)).
          split; [|nia].
          rewrite (log2_quotient a q (51 + E)); [lia|lia|lia|].
          replace (51 + E + 1) with (52 + E) by lia.
          rewrite !Z.pow_add_r by lia.
          change (2 ^ 51) with 2251799813685248. nia.
      + (* below the normal numbers *)
        left. split; [|split; nia].
        assert (E = 0) as -> by lia. change (2 ^ 0) with 1 in *.
        assert (a / q < 2 ^ 52).
        { apply Z.div_lt_upper_bound; nia. }
        assert (0 <= a / q).
        { apply Z.div_pos; nia. }
        destruct (Z.eq_dec (a / q) 0) as [->|Hz]; [reflexivity|].
        assert (Z.log2 (a / q) < 52); [|lia].
        apply Z.log2_lt_pow2; lia. }
  destruct Hcase as [[-> Hw]|(Hm2 & HE1 & -> & Hw)].
  - rewrite (round_step a (q * 2 ^ E) m) by (try exact Hw; nia).
    destruct (Z.eqb_spec m (2 ^ 53)); [lia|].
    destruct (Z.eqb_spec m 0); [lia|].
    destruct (Z.ltb_spec 2045 E); [lia|].
    f_equal. lia.
  - pose proof (Z.pow_pos_nonneg 2 (E - 1) ltac:(lia) ltac:(lia)).
    rewrite (round_step a (q * 2 ^ (E - 1)) (2 ^ 53)) by (try exact Hw; nia).
    rewrite Z.eqb_refl.
    destruct (Z.ltb_spec 2045 (E - 1 + 1)); [lia|].
    simpl. rewrite Hm2. f_equal. lia.
Qed.


Lemma within_ratio (m E p q p' q' : Z) :
  within m E p q -> 0 < q -> 0 < q' -> p * q' = p' * q -> within m E p' q'.
Proof.
  intros [[Hl Hu] Hb] Hq Hq' Hr. unfold within.
  remember (2 ^ 1074) as T eqn:HT. remember (2 ^ E) as P eqn:HP.
  clear HT HP.
  assert (H2 : 2 * (p' * T) * q = 2 * (p * T) * q').
  { replace (2 * (p' * T) * q) with (2 * T * (p' * q)) by ring.
    rewrite <- Hr. ring. }
  assert (H4 : 4 * (p' * T) * q = 4 * (p * T) * q').
  { replace (4 * (p' * T) * q) with (4 * T * (p' * q)) by ring.
    rewrite <- Hr. ring. }
  split; [split|intros Hm HE; specialize (Hb Hm HE)].
  - apply (Z.mul_lt_mono_pos_r q); [exact Hq|]. rewrite H2.
    replace ((2 * m - 1) * P * q' * q) with ((2 * m - 1) * P * q * q') by ring.
    now apply Z.mul_lt_mono_pos_r.
  - apply (Z.mul_lt_mono_pos_r q); [exact Hq|]. rewrite H2.
    replace ((2 * m + 1) * P * q' * q) with ((2 * m + 1) * P * q * q') by ring.
    now apply Z.mul_lt_mono_pos_r.
  - apply (Z.mul_lt_mono_pos_r q); [exact Hq|]. rewrite H4.
    replace ((4 * m - 1) * P * q' * q) with ((4 * m - 1) * P * q * q') by ring.
    now apply Z.mul_lt_mono_pos_r.
Qed.

Lemma same_eq (x y : number) : same x y = true -> x = y.
Proof.
  destruct x as [a|a m e|a|], y as [b|b m' e'|b|]; simpl; try discriminate;
    try reflexivity.
  - intros H. apply Bool.eqb_prop in H. now subst.
  - intros H. apply andb_prop in H as [H He]. apply andb_prop in H as [Ha Hm].
    apply Bool.eqb_prop in Ha. apply Z.eqb_eq in Hm, He. now subst.
  - intros H. apply Bool.eqb_prop in H. now subst.
Qed.

Lemma same_refl (x : number) : same x x = true.
Proof.
  destruct x as [a|a m e|a|]; simpl; rewrite ?Z.eqb_refl;
    try reflexivity; now destruct a.
Qed.

(** *** Powers of ten *)

Lemma power_of_ten_pos (g : Z) :
  0 < fst (power_of_ten g) /\ 0 < snd (power_of_ten g).
Proof.
  unfold power_of_ten. destruct (Z.leb_spec 0 g); simpl; split; try lia;
    apply Z.pow_pos_nonneg; lia.
Qed.

Lemma power_of_ten_add (g j : Z) :
  0 <= j ->
  fst (power_of_ten (g + j)) * snd (power_of_ten g)
  = 10 ^ j * fst (power_of_ten g) * snd (power_of_ten (g + j)).
Proof.
  intros Hj. unfold power_of_ten.
  destruct (Z.leb_spec 0 g), (Z.leb_spec 0 (g + j)); cbn [fst snd]; try lia.
  - rewrite Z.pow_add_r by lia. ring.
  - rewrite <- Z.pow_add_r by lia. rewrite !Z.mul_1_r. f_equal. lia.
  - rewrite Z.mul_1_l, Z.mul_1_r. rewrite <- Z.pow_add_r by lia.
    f_equal. lia.
Qed.

Lemma of_decimal_ratio (negative : bool) (d g : Z) :
  of_decimal negative d g
  = nearest negative (d * fst (power_of_ten g)) (snd (power_of_ten g)).
Proof. unfold of_decimal. now destruct (power_of_ten g). Qed.

Lemma below_ratio (x n : Z) :
  below x n
  = (x * snd (power_of_ten n) <? fst (power_of_ten n) * 2 ^ 1074).
Proof. unfold below. now destruct (power_of_ten n). Qed.

(** *** The place of the point *)

Lemma magnitude_bounds (x : Z) (fuel : nat) (n : Z) :
  below x (n - 1) = false -> below x (n + Z.of_nat fuel) = true ->
  below x (magnitude fuel n x) = true
  /\ below x (magnitude fuel n x - 1) = false.
Proof.
  revert n. induction fuel as [|fuel IH]; intros n Hl Hu.
  - simpl. now rewrite Z.add_0_r in Hu.
  - cbn [magnitude]. destruct (below x n) eqn:Hn; [now split|].
    apply IH.
    + now replace (n + 1 - 1) with n by lia.
    + now replace (n + 1 + Z.of_nat fuel) with (n + Z.of_nat (S fuel)) by lia.
Qed.

Lemma units_bounds (m e : Z) :
  binary64 m e -> 1 <= units m e < 2 ^ 2098.
Proof.
  intros (Hm & He & _). unfold units.
  pose proof (Z.pow_pos_nonneg 2 (e + 1074) ltac:(lia) ltac:(lia)) as HP.
  assert (2 ^ (e + 1074) <= 2 ^ 2045) by (apply Z.pow_le_mono_r; lia).
  change (2 ^ 2098) with (2 ^ 53 * 2 ^ 2045).
  remember (2 ^ (e + 1074)) as P. remember (2 ^ 2045) as Q.
  remember (2 ^ 53) as R. nia.
Qed.

Lemma magnitude_of_units (m e : Z) :
  binary64 m e ->
  let n0 := magnitude 632 (-323) (units m e) in
  below (units m e) n0 = true /\ below (units m e) (n0 - 1) = false.
Proof.
  intros H. apply units_bounds in H as [Hl Hu].
  apply magnitude_bounds.
  - rewrite below_ratio. apply Z.ltb_ge.
    change (fst (power_of_ten (-323 - 1)) * 2 ^ 1074) with (2 ^ 1074).
    change (snd (power_of_ten (-323 - 1))) with (10 ^ 324).
    assert (2 ^ 1074 <= 10 ^ 324) by (apply Z.leb_le; vm_compute; reflexivity).
    remember (2 ^ 1074) as T. remember (10 ^ 324) as D. nia.
  - rewrite below_ratio. apply Z.ltb_lt.
    change (snd (power_of_ten (-323 + Z.of_nat 632))) with 1.
    change (fst (power_of_ten (-323 + Z.of_nat 632))) with (10 ^ 309).
    assert (2 ^ 2098 <= 10 ^ 309 * 2 ^ 1074)
      by (apply Z.leb_le; vm_compute; reflexivity).
    remember (2 ^ 2098) as A. remember (10 ^ 309 * 2 ^ 1074) as B. lia.
Qed.


(** *** The digits *)

Section Candidates.

Variables m e n0 k : Z.

Hypothesis number_m_e : binary64 m e.
Hypothesis digits_k : 1 <= k.
Hypothesis below_n0 : below (units m e) n0 = true.
Hypothesis above_n0 : below (units m e) (n0 - 1) = false.

Let x := units m e.
Let u := fst (power_of_ten (n0 - k)).
Let v := snd (power_of_ten (n0 - k)).
Let T := 2 ^ 1074.

Lemma candidate_range :
  10 ^ (k - 1) * (T * u) <= x * v < 10 ^ k * (T * u).
Proof.
  pose proof (power_of_ten_pos (n0 - k)) as [Hu Hv].
  pose proof (power_of_ten_pos (n0 - 1)) as [Hu1 Hv1].
  pose proof (power_of_ten_pos n0) as [Hu0 Hv0].
  pose proof (power_of_ten_add (n0 - k) (k - 1) ltac:(lia)) as H1.
  pose proof (power_of_ten_add (n0 - k) k ltac:(lia)) as H0.
  replace (n0 - k + (k - 1)) with (n0 - 1) in H1 by lia.
  replace (n0 - k + k) with n0 in H0 by lia.
  pose proof below_n0 as Hb. pose proof above_n0 as Ha.
  rewrite below_ratio in Hb, Ha.
  apply Z.ltb_lt in Hb. apply Z.ltb_ge in Ha.
  fold x T in Hb, Ha. fold u v in H0, H1, Hu, Hv.
  clearbody x u v T.
  remember (fst (power_of_ten (n0 - 1))) as u1.
  remember (snd (power_of_ten (n0 - 1))) as v1.
  remember (fst (power_of_ten n0)) as u0.
  remember (snd (power_of_ten n0)) as v0.
  remember (10 ^ (k - 1)) as K1. remember (10 ^ k) as K0.
  split.
  - apply (Z.mul_le_mono_pos_r _ _ v1); [exact Hv1|].
    replace (K1 * (T * u) * v1) with (T * (K1 * u * v1)) by ring.
    rewrite <- H1.
    replace (T * (u1 * v)) with (u1 * T * v) by ring.
    replace (x * v * v1) with (x * v1 * v) by ring.
    apply Z.mul_le_mono_nonneg_r; lia.
  - apply (Z.mul_lt_mono_pos_r v0); [exact Hv0|].
    replace (K0 * (T * u) * v0) with (T * (K0 * u * v0)) by ring.
    rewrite <- H0.
    replace (T * (u0 * v)) with (u0 * T * v) by ring.
    replace (x * v * v0) with (x * v0 * v) by ring.
    apply Z.mul_lt_mono_pos_r; lia.
Qed.

Lemma candidates_ratio :
  candidates x n0 k
  = let lo := (x * v) / (T * u) in
    let r := (x * v) mod (T * u) in
    let above :=
      if lo + 1 =? 10 ^ k then (10 ^ (k - 1), n0 + 1) else (lo + 1, n0) in
    if 2 * r <? T * u then [(lo, n0); above]
    else if T * u <? 2 * r then [above; (lo, n0)]
    else if Z.even lo then [(lo, n0); above]
    else [above; (lo, n0)].
Proof.
  unfold candidates, u, v, T. now destruct (power_of_ten (n0 - k)).
Qed.

Lemma below_digits : 10 ^ (k - 1) <= (x * v) / (T * u) < 10 ^ k.
Proof.
  pose proof candidate_range as [Hl Hu].
  pose proof (power_of_ten_pos (n0 - k)) as [Hu' Hv'].
  assert (HT : 0 < T) by (apply Z.pow_pos_nonneg; lia).
  assert (0 < T * u) by (apply Z.mul_pos_pos; assumption).
  split.
  - apply Z.div_le_lower_bound; lia.
  - apply Z.div_lt_upper_bound; lia.
Qed.

Lemma candidates_digits (s n : Z) :
  In (s, n) (candidates x n0 k) -> 10 ^ (k - 1) <= s < 10 ^ k.
Proof.
  rewrite candidates_ratio. cbv zeta.
  pose proof below_digits as Hlo.
  assert (Hp : 10 ^ (k - 1) < 10 ^ k) by (apply Z.pow_lt_mono_r; lia).
  set (lo := x * v / (T * u)) in *.
  assert (Ha : forall s n,
             (if lo + 1 =? 10 ^ k then (10 ^ (k - 1), n0 + 1)
              else (lo + 1, n0)) = (s, n) -> 10 ^ (k - 1) <= s < 10 ^ k).
  { intros s' n'. destruct (Z.eqb_spec (lo + 1) (10 ^ k)); intros [= <- <-];
      lia. }
  destruct (2 * _ <? T * u); [|destruct (T * u <? 2 * _);
                                [|destruct (Z.even lo)]];
    simpl; intros [H|[H|[]]]; try (injection H as <- <-; exact Hlo);
    now apply (Ha s n).
Qed.

End Candidates.


(** With seventeen digits the candidate nearest to the number is read
    as the number. *)
Section Seventeen.

Variables m e n0 : Z.

Hypothesis number_m_e : binary64 m e.
Hypothesis below_n0 : below (units m e) n0 = true.
Hypothesis above_n0 : below (units m e) (n0 - 1) = false.

Let x := units m e.
Let u := fst (power_of_ten (n0 - 17)).
Let v := snd (power_of_ten (n0 - 17)).
Let T := 2 ^ 1074.
Let lo := (x * v) / (T * u).
Let r := (x * v) mod (T * u).

Lemma seventeen_facts :
  0 < T * u /\ 0 < v /\ 0 < 2 ^ (e + 1074) * v
  /\ x * v = T * u * lo + r /\ 0 <= r < T * u
  /\ x * v = m * (2 ^ (e + 1074) * v)
  /\ T * u < 2 ^ (e + 1074) * v
  /\ (m = 2 ^ 52 -> 2 * (T * u) < 2 ^ (e + 1074) * v).
Proof.
  pose proof (candidate_range m e n0 17 ltac:(lia) below_n0 above_n0)
    as [Hl _].
  fold x u v T in Hl.
  pose proof (power_of_ten_pos (n0 - 17)) as [Hu Hv]. fold u v in Hu, Hv.
  destruct number_m_e as (Hm & He & _).
  assert (HT : 0 < T) by (apply Z.pow_pos_nonneg; lia).
  assert (HTu : 0 < T * u) by (apply Z.mul_pos_pos; assumption).
  pose proof (Z.pow_pos_nonneg 2 (e + 1074) ltac:(lia) ltac:(lia)) as HP.
  assert (HW : 0 < 2 ^ (e + 1074) * v) by (apply Z.mul_pos_pos; assumption).
  assert (Hx : x * v = m * (2 ^ (e + 1074) * v)) by (unfold x, units; ring).
  change (10 ^ (17 - 1)) with 10000000000000000 in Hl.
  change (2 ^ 53) with 9007199254740992 in Hm.
  repeat split; try assumption.
  - apply Z.div_mod. lia.
  - apply Z.mod_pos_bound. exact HTu.
  - apply Z.mod_pos_bound. exact HTu.
  - rewrite Hx in Hl. clearbody x u v T lo r.
    remember (2 ^ (e + 1074) * v) as W. remember (T * u) as D. nia.
  - intros ->. rewrite Hx in Hl. clearbody x u v T lo r.
    change (2 ^ 52) with 4503599627370496 in Hl.
    remember (2 ^ (e + 1074) * v) as W. remember (T * u) as D. nia.
Qed.

Lemma below_is_near : 2 * r <= T * u -> within m (e + 1074) (lo * u) v.
Proof.
  intros Hr.
  destruct seventeen_facts as (HTu & Hv & HW & Hd & Hb & Hx & Hs & Hs').
  unfold within. fold T.
  replace (lo * u * T) with (T * u * lo) by ring.
  clearbody x u v T lo r.
  remember (2 ^ (e + 1074)) as P.
  split; [split|intros Hm _; specialize (Hs' Hm)]; nia.
Qed.

Lemma above_is_near : T * u <= 2 * r -> within m (e + 1074) ((lo + 1) * u) v.
Proof.
  intros Hr.
  destruct seventeen_facts as (HTu & Hv & HW & Hd & Hb & Hx & Hs & Hs').
  unfold within. fold T.
  replace ((lo + 1) * u * T) with (T * u * lo + T * u) by ring.
  clearbody x u v T lo r.
  remember (2 ^ (e + 1074)) as P.
  split; [split|intros Hm _; specialize (Hs' Hm)]; nia.
Qed.

Lemma below_is_read :
  2 * r <= T * u -> of_decimal false lo (n0 - 17) = Finite false m e.
Proof.
  intros Hr. rewrite of_decimal_ratio. fold u v.
  destruct seventeen_facts as (_ & Hv & _).
  now apply nearest_within, below_is_near.
Qed.

Lemma above_is_read :
  T * u <= 2 * r ->
  (let (s, n) := if lo + 1 =? 10 ^ 17 then (10 ^ (17 - 1), n0 + 1)
                 else (lo + 1, n0) in
   of_decimal false s (n - 17)) = Finite false m e.
Proof.
  intros Hr. destruct seventeen_facts as (_ & Hv & _).
  pose proof (above_is_near Hr) as Hw.
  destruct (Z.eqb_spec (lo + 1) (10 ^ 17)) as [Hhi|Hhi].
  - rewrite of_decimal_ratio. apply nearest_within; [exact number_m_e|..].
    + apply power_of_ten_pos.
    + apply (within_ratio _ _ _ _ _ _ Hw Hv); [apply power_of_ten_pos|].
      pose proof (power_of_ten_add (n0 - 17) 1 ltac:(lia)) as H1.
      replace (n0 - 17 + 1) with (n0 + 1 - 17) in H1 by lia.
      fold u v in H1. rewrite Hhi.
      remember (fst (power_of_ten (n0 + 1 - 17))) as u'.
      remember (snd (power_of_ten (n0 + 1 - 17))) as v'.
      replace (10 ^ (17 - 1) * u' * v) with (10 ^ (17 - 1) * (u' * v)) by ring.
      rewrite H1. change (10 ^ 17) with (10 ^ (17 - 1) * 10 ^ 1). ring.
  - rewrite of_decimal_ratio. fold u v. now apply nearest_within.
Qed.

Lemma seventeen_digits_are_read :
  List.find (fun c => same (of_decimal false (fst c) (snd c - 17))
                        (Finite false m e))
    (candidates x n0 17) <> None.
Proof.
  unfold x. rewrite candidates_ratio. fold x u v T lo r. cbv zeta.
  pose proof below_is_read as Hlo. pose proof above_is_read as Hhi.
  set (above := if lo + 1 =? 10 ^ 17 then (10 ^ (17 - 1), n0 + 1)
                else (lo + 1, n0)) in *.
  assert (Hfirst : forall c rest,
             of_decimal false (fst c) (snd c - 17) = Finite false m e ->
             List.find (fun c => same (of_decimal false (fst c) (snd c - 17))
                                   (Finite false m e)) (c :: rest) <> None).
  { intros c rest Hc. cbn [List.find]. now rewrite Hc, same_refl. }
  assert (Ha : T * u <= 2 * r ->
               of_decimal false (fst above) (snd above - 17)
               = Finite false m e).
  { intros H. specialize (Hhi H). now destruct above. }
  destruct (Z.ltb_spec (2 * r) (T * u)); [apply Hfirst, Hlo; lia|].
  destruct (Z.ltb_spec (T * u) (2 * r)); [apply Hfirst, Ha; lia|].
  destruct (Z.even lo); [apply Hfirst, Hlo; lia|apply Hfirst, Ha; lia].
Qed.

End Seventeen.

Lemma search_finds (m e n0 k : Z) (ks : list Z) :
  In k ks ->
  List.find (fun c => same (of_decimal false (fst c) (snd c - k))
                        (Finite false m e))
    (candidates (units m e) n0 k) <> None ->
  search m e n0 ks <> None.
Proof.
  induction ks as [|k' ks IH]; intros Hin Hk; [destruct Hin|].
  cbn [search].
  destruct (List.find _ (candidates (units m e) n0 k')) as [[s n]|] eqn:Hf;
    [discriminate|].
  destruct Hin as [->|Hin]; [congruence|]. now apply IH.
Qed.

Lemma search_sound (m e n0 : Z) (ks : list Z) (s k n : Z) :
  search m e n0 ks = Some (s, k, n) ->
  In k ks /\ In (s, n) (candidates (units m e) n0 k)
  /\ of_decimal false s (n - k) = Finite false m e.
Proof.
  induction ks as [|k' ks IH]; [discriminate|]. cbn [search].
  destruct (List.find _ (candidates (units m e) n0 k')) as [[s' n']|] eqn:Hf.
  - intros [= -> -> ->]. apply List.find_some in Hf as [Hin Hs].
    split; [now left|]. split; [exact Hin|]. now apply same_eq in Hs.
  - intros H. destruct (IH H) as (Hin & Hc). split; [now right|exact Hc].
Qed.

(** The digits that are printed: [k] of them, from one to seventeen,
    which are read as the number. *)
Lemma shortest_digits (m e : Z) :
  binary64 m e ->
  exists s k n,
    shortest m e = (s, k, n)
    /\ 1 <= k <= 17 /\ 10 ^ (k - 1) <= s < 10 ^ k
    /\ of_decimal false s (n - k) = Finite false m e.
Proof.
  intros Hx. destruct (magnitude_of_units m e Hx) as [Hb Ha].
  unfold shortest.
  set (n0 := magnitude 632 (-323) (units m e)) in *.
  set (ks := [1; 2; 3; 4; 5; 6; 7; 8; 9; 10; 11; 12; 13; 14; 15; 16; 17]).
  pose proof (search_finds m e n0 17 ks ltac:(simpl; tauto)
                (seventeen_digits_are_read m e n0 Hx Hb Ha)) as Hs.
  destruct (search m e n0 ks) as [[[s k] n]|] eqn:Hf; [|congruence].
  exists s, k, n. split; [reflexivity|].
  apply search_sound in Hf as (Hin & Hc & Hr).
  assert (Hk : 1 <= k <= 17) by (simpl in Hin; lia).
  split; [exact Hk|]. split; [|exact Hr].
  apply (candidates_digits m e n0 k ltac:(lia) Hb Ha s n Hc).
Qed.


(** *** Digits and texts *)

Lemma digit_cases (d : Z) :
  0 <= d < 10 ->
  d = 0 \/ d = 1 \/ d = 2 \/ d = 3 \/ d = 4 \/ d = 5 \/ d = 6 \/ d = 7
  \/ d = 8 \/ d = 9.
Proof. lia. Qed.

Ltac each_digit H :=
  apply digit_cases in H;
  repeat (destruct H as [->|H]); [..|subst].

Lemma digit_of_character (d : Z) :
  0 <= d < 10 -> digit (digit_character d) = Some (Z.to_N d).
Proof. intros H. each_digit H; reflexivity. Qed.

Lemma digit_character_plain (d : Z) :
  0 <= d < 10 ->
  let c := digit_character d in
  starts_scalar c = true /\ Ascii.eqb c quote = false /\ opens c = true
  /\ N.ltb (N_of_ascii c) 128 = true.
Proof. intros H. each_digit H; repeat split; reflexivity. Qed.

Lemma ends_numeral_stops (rest : string) :
  ends_numeral rest = true -> stops rest = true.
Proof.
  destruct rest as [|c r]; [reflexivity|]. simpl. now destruct (digit c).
Qed.

Lemma decimals_stop (acc g : Z) (s : string) :
  stops s = true -> decimals acc g s = (acc, g, s).
Proof.
  destruct s as [|c r]; [reflexivity|]. simpl. now destruct (digit c).
Qed.

Lemma decimals_decimal (k : nat) (s : Z) (tail : string) (acc g : Z) :
  0 <= s < 10 ^ Z.of_nat k ->
  decimals acc g (decimal k s tail)
  = decimals (acc * 10 ^ Z.of_nat k + s) (g - Z.of_nat k) tail.
Proof.
  revert s tail. induction k as [|k IH]; intros s tail Hs.
  - change (10 ^ Z.of_nat 0) with 1 in *. simpl decimal.
    f_equal; lia.
  - cbn [decimal].
    rewrite Nat2Z.inj_succ, Z.pow_succ_r in * by lia.
    pose proof (Z.div_mod s 10 ltac:(lia)) as Hd.
    pose proof (Z.mod_pos_bound s 10 ltac:(lia)) as Hm.
    rewrite IH by (split; [apply Z.div_pos; lia|
                           apply Z.div_lt_upper_bound; lia]).
    cbn [decimals]. rewrite digit_of_character by exact Hm.
    rewrite Z2N.id by lia. f_equal; lia.
Qed.

Lemma decimal_append (k : nat) (s : Z) (tail rest : string) :
  decimal k s tail +:+ rest = decimal k s (tail +:+ rest).
Proof.
  revert s tail. induction k as [|k IH]; intros s tail; [reflexivity|].
  cbn [decimal]. now rewrite IH.
Qed.

(** The first of [S k] digits. *)
Lemma decimal_head (k : nat) (s : Z) (tail : string) :
  0 <= s ->
  decimal (S k) s tail
  = String (digit_character ((s / 10 ^ Z.of_nat k) mod 10))
      (decimal k (s mod 10 ^ Z.of_nat k) tail).
Proof.
  revert s tail. induction k as [|k IH]; intros s tail Hs.
  - cbn [decimal]. change (10 ^ Z.of_nat 0) with 1.
    now rewrite Z.div_1_r.
  - change (decimal (S (S k)) s tail)
      with (decimal (S k) (s / 10) (String (digit_character (s mod 10)) tail)).
    rewrite IH by (apply Z.div_pos; lia).
    rewrite Nat2Z.inj_succ, Z.pow_succ_r by lia.
    pose proof (Z.pow_pos_nonneg 10 (Z.of_nat k) ltac:(lia) ltac:(lia)) as HP.
    rewrite Z.div_div by lia.
    assert (E1 : (s mod (10 * 10 ^ Z.of_nat k)) / 10
                 = (s / 10) mod 10 ^ Z.of_nat k).
    { rewrite Z.rem_mul_r by lia.
      rewrite (Z.mul_comm 10), Z.div_add by lia.
      rewrite Z.div_small by (apply Z.mod_pos_bound; lia). reflexivity. }
    assert (E2 : (s mod (10 * 10 ^ Z.of_nat k)) mod 10 = s mod 10).
    { rewrite Z.rem_mul_r by lia.
      rewrite (Z.mul_comm 10), Z.mod_add by lia. apply Z.mod_mod. lia. }
    cbn [decimal]. now rewrite E1, E2.
Qed.

Lemma head_digit (k : nat) (s : Z) :
  0 <= s < 10 ^ Z.of_nat (S k) -> 0 <= (s / 10 ^ Z.of_nat k) mod 10 < 10.
Proof. intros _. apply Z.mod_pos_bound. lia. Qed.

Lemma all_ascii_cons (c : ascii) (s : string) :
  all_ascii (String c s) = N.ltb (N_of_ascii c) 128 && all_ascii s.
Proof. reflexivity. Qed.

Lemma all_ascii_decimal (k : nat) (s : Z) (tail : string) :
  all_ascii (decimal k s tail) = all_ascii tail.
Proof.
  revert s tail. induction k as [|k IH]; intros s tail; [reflexivity|].
  cbn [decimal]. rewrite IH, all_ascii_cons.
  now destruct (digit_character_plain (s mod 10)
                  (Z.mod_pos_bound s 10 ltac:(lia))) as (_ & _ & _ & ->).
Qed.

Lemma width_bounds (fuel : nat) (n : Z) :
  0 <= n <= Z.of_nat fuel -> n < 10 ^ Z.of_nat (width fuel n).
Proof.
  revert n. induction fuel as [|fuel IH]; intros n Hn.
  - simpl. lia.
  - cbn [width]. destruct (Z.ltb_spec n 10) as [H|H]; [simpl; lia|].
    rewrite Nat2Z.inj_succ, Z.pow_succ_r by lia.
    pose proof (Z.div_mod n 10 ltac:(lia)) as Hd.
    pose proof (Z.mod_pos_bound n 10 ltac:(lia)) as Hm.
    assert (n / 10 < 10 ^ Z.of_nat (width fuel (n / 10))); [|lia].
    apply IH. lia.
Qed.

Lemma width_positive (fuel : nat) (n : Z) : exists w, width fuel n = S w.
Proof. destruct fuel; simpl; [now exists O|]. destruct (n <? 10); eauto. Qed.


(** *** Reading what is printed *)

Lemma stops_decimal (k : nat) (s : Z) (tail : string) :
  0 <= s -> stops (decimal (S k) s tail) = false.
Proof.
  intros Hs. rewrite decimal_head by exact Hs. cbn [stops].
  now rewrite digit_of_character by (apply Z.mod_pos_bound; lia).
Qed.

Lemma some_decimals_digits (acc : Z) (s : string) :
  stops s = false -> some_decimals acc s = Some (decimals acc 0 s).
Proof.
  destruct s as [|c r]; [discriminate|]. unfold stops, some_decimals.
  now destruct (digit c).
Qed.

Lemma integer_decimal (k : nat) (s : Z) (tail : string) :
  10 ^ Z.of_nat k <= s < 10 ^ Z.of_nat (S k) ->
  integer (decimal (S k) s tail)
  = (let '(i, _, r) := decimals s (- Z.of_nat k) tail in Some (i, r)).
Proof.
  intros [Hl Hu].
  pose proof (Z.pow_pos_nonneg 10 (Z.of_nat k) ltac:(lia) ltac:(lia)) as HP.
  rewrite Nat2Z.inj_succ, Z.pow_succ_r in Hu by lia.
  assert (Hd : 1 <= s / 10 ^ Z.of_nat k < 10).
  { split; [apply Z.div_le_lower_bound; lia|
            apply Z.div_lt_upper_bound; lia]. }
  rewrite decimal_head by lia. rewrite (Z.mod_small _ 10) by lia.
  unfold integer. rewrite digit_of_character by lia.
  destruct (Z.to_N (s / 10 ^ Z.of_nat k)) as [|p] eqn:E; [lia|].
  rewrite <- E, Z2N.id by lia.
  pose proof (Z.mod_pos_bound s (10 ^ Z.of_nat k) HP) as Hm.
  rewrite decimals_decimal by exact Hm.
  pose proof (Z.div_mod s (10 ^ Z.of_nat k) ltac:(lia)) as Hs.
  replace (s / 10 ^ Z.of_nat k * 10 ^ Z.of_nat k + s mod 10 ^ Z.of_nat k)
    with s by lia.
  reflexivity.
Qed.

Lemma fraction_absent (i : Z) (rest : string) :
  continues_numeral rest = false -> fraction i rest = Some (i, 0, rest).
Proof.
  destruct rest as [|c r]; [reflexivity|]. unfold continues_numeral, fraction.
  intros H. ReferenceFacts.each_character c; try reflexivity; discriminate.
Qed.

Lemma exponent_absent (rest : string) :
  continues_numeral rest = false -> exponent rest = Some (0, rest).
Proof.
  destruct rest as [|c r]; [reflexivity|]. unfold continues_numeral, exponent.
  intros H. apply orb_false_iff in H as [H ->]. apply orb_false_iff in H as [_ ->].
  reflexivity.
Qed.

Lemma ends_numeral_continues (rest : string) :
  ends_numeral rest = true -> continues_numeral rest = false.
Proof.
  destruct rest as [|c r]; [reflexivity|]. unfold ends_numeral.
  destruct (digit c); [discriminate|]. now intros ->%negb_true_iff.
Qed.

Lemma exponent_text (e : Z) (rest : string) :
  stops rest = true ->
  exponent (String "e" (String (if e <? 0 then "-"%char else "+"%char)
                          (natural_text (Z.abs e) rest)))
  = Some (e, rest).
Proof.
  intros Hr. unfold natural_text.
  pose proof (width_bounds (Z.to_nat (Z.abs e)) (Z.abs e) ltac:(lia)) as Hw.
  destruct (width_positive (Z.to_nat (Z.abs e)) (Z.abs e)) as [w Ew].
  rewrite Ew in *.
  assert (Hs : some_decimals 0 (decimal (S w) (Z.abs e) rest)
               = Some (Z.abs e, - Z.of_nat (S w), rest)).
  { rewrite some_decimals_digits by (apply stops_decimal; lia).
    rewrite decimals_decimal by lia. rewrite decimals_stop by exact Hr.
    do 3 f_equal; lia. }
  destruct (Z.ltb_spec e 0); cbn [exponent Ascii.eqb Bool.eqb orb];
    rewrite Hs; f_equal; f_equal; lia.
Qed.

Lemma of_decimal_shift (negative : bool) (s j : Z) :
  0 <= j -> of_decimal negative (s * 10 ^ j) 0 = of_decimal negative s j.
Proof.
  intros Hj. unfold of_decimal, power_of_ten.
  destruct (Z.leb_spec 0 j); [|lia]. change (0 <=? 0) with true.
  cbv iota. change (10 ^ 0) with 1. now rewrite Z.mul_1_r.
Qed.

Lemma of_nat_to_nat (n : Z) : 0 <= n -> Z.of_nat (Z.to_nat n) = n.
Proof. apply Z2Nat.id. Qed.

Lemma split_digits (s k j : Z) :
  0 <= j < k -> 10 ^ (k - 1) <= s < 10 ^ k ->
  10 ^ (k - j - 1) <= s / 10 ^ j < 10 ^ (k - j)
  /\ 0 <= s mod 10 ^ j < 10 ^ j
  /\ s / 10 ^ j * 10 ^ j + s mod 10 ^ j = s.
Proof.
  intros Hj [Hl Hu].
  pose proof (Z.pow_pos_nonneg 10 j ltac:(lia) ltac:(lia)) as HP.
  replace (10 ^ (k - 1)) with (10 ^ (k - j - 1 + j)) in Hl by (f_equal; lia).
  replace (10 ^ k) with (10 ^ (k - j + j)) in Hu by (f_equal; lia).
  rewrite Z.pow_add_r in Hl, Hu by lia.
  pose proof (Z.div_mod s (10 ^ j) ltac:(lia)) as Hs.
  split; [split|split].
  - apply Z.div_le_lower_bound; lia.
  - apply Z.div_lt_upper_bound; lia.
  - apply Z.mod_pos_bound. exact HP.
  - lia.
Qed.

(** One digit, the others as a fraction, and the exponent. *)
Lemma unsigned_power (negative : bool) (s k n : Z) (rest : string) :
  1 <= k -> 10 ^ (k - 1) <= s < 10 ^ k -> stops rest = true ->
  let power :=
    String "e" (String (if n - 1 <? 0 then "-"%char else "+"%char)
                  (natural_text (Z.abs (n - 1)) "")) in
  unsigned negative
    ((if k =? 1 then decimal 1 s power
      else decimal 1 (s / 10 ^ (k - 1))
             (String "." (decimal (Z.to_nat (k - 1)) (s mod 10 ^ (k - 1))
                            power))) +:+ rest)
  = Some (of_decimal negative s (n - k), rest).
Proof.
  intros Hk Hs Hr power.
  assert (Hp : power +:+ rest
               = String "e" (String (if n - 1 <? 0 then "-"%char
                                     else "+"%char)
                               (natural_text (Z.abs (n - 1)) rest))).
  { unfold power, natural_text. rewrite ?ReferenceFacts.append_cons. now rewrite decimal_append. }
  pose proof (exponent_text (n - 1) rest Hr) as He. rewrite <- Hp in He.
  assert (Hstop : stops (power +:+ rest) = true) by reflexivity.
  assert (Hfrac : forall i, fraction i (power +:+ rest)
                            = Some (i, 0, power +:+ rest)) by reflexivity.
  clearbody power. unfold unsigned.
  destruct (Z.eqb_spec k 1) as [->|Hk1].
  - rewrite decimal_append.
    rewrite integer_decimal by (change (10 ^ Z.of_nat 0) with (10 ^ (1 - 1));
                                exact Hs).
    rewrite decimals_stop by exact Hstop.
    rewrite Hfrac, He. do 3 f_equal. lia.
  - destruct (split_digits s k (k - 1) ltac:(lia) Hs) as (Hh & Hl & Hsum).
    replace (k - (k - 1) - 1) with 0 in Hh by lia.
    replace (k - (k - 1)) with 1 in Hh by lia.
    rewrite !decimal_append. rewrite ?ReferenceFacts.append_cons. rewrite decimal_append.
    rewrite integer_decimal by exact Hh.
    rewrite decimals_stop by reflexivity.
    cbn [fraction].
    destruct (Z.to_nat (k - 1)) as [|K] eqn:EK; [lia|].
    rewrite some_decimals_digits by (apply stops_decimal; lia).
    rewrite decimals_decimal by (rewrite <- EK, of_nat_to_nat; lia).
    rewrite decimals_stop by exact Hstop.
    rewrite He. rewrite <- EK, of_nat_to_nat by lia. rewrite Hsum.
    do 3 f_equal. lia.
Qed.

(** The text of the digits is read as their decimal. *)
Lemma unsigned_format (negative : bool) (s k n : Z) (rest : string) :
  1 <= k -> 10 ^ (k - 1) <= s < 10 ^ k -> ends_numeral rest = true ->
  unsigned negative (format s k n +:+ rest)
  = Some (of_decimal negative s (n - k), rest).
Proof.
  intros Hk [Hl Hu] Hr.
  pose proof (ends_numeral_stops rest Hr) as Hstop.
  pose proof (ends_numeral_continues rest Hr) as Hcont.
  assert (Hk' : exists K, Z.to_nat k = S K /\ Z.of_nat K = k - 1).
  { exists (Z.to_nat (k - 1)). split; lia. }
  destruct Hk' as (K & EK & HK).
  pose proof (unsigned_power negative s k n rest Hk (conj Hl Hu) Hstop)
    as Hpower.
  cbv zeta in Hpower.
  unfold format.
  destruct (Z.leb_spec k n) as [Hkn|Hkn];
    [destruct (Z.leb_spec n 21) as [Hn|Hn]|]; cbn [andb].
  - (* the digits and zeros *)
    unfold unsigned.
    rewrite !decimal_append, EK. rewrite ?ReferenceFacts.append_cons.
    rewrite integer_decimal
      by (rewrite Nat2Z.inj_succ, HK; now replace (Z.succ (k - 1)) with k by lia).
    rewrite decimals_decimal
      by (split; [lia|apply Z.pow_pos_nonneg; lia]).
    rewrite decimals_stop by exact Hstop.
    rewrite fraction_absent, exponent_absent by exact Hcont.
    rewrite of_nat_to_nat by lia. rewrite Z.add_0_r.
    now rewrite of_decimal_shift by lia.
  - (* the exponent, past 21 digits *)
    destruct (Z.ltb_spec 0 n); [|lia]. cbn [andb].
    destruct (Z.ltb_spec (-6) n); [|lia].
    destruct (Z.leb_spec n 0); [lia|]. cbn [andb]. exact Hpower.
  - destruct (Z.ltb_spec 0 n) as [Hn0|Hn0];
      [destruct (Z.leb_spec n 21) as [Hn|Hn]|]; cbn [andb].
    + (* the digits around the point *)
      unfold unsigned.
      destruct (split_digits s k (k - n) ltac:(lia) (conj Hl Hu))
        as (Hh & Hlow & Hsum).
      replace (k - (k - n) - 1) with (n - 1) in Hh by lia.
      replace (k - (k - n)) with n in Hh by lia.
      destruct (Z.to_nat n) as [|N] eqn:EN; [lia|].
      destruct (Z.to_nat (k - n)) as [|F] eqn:EF; [lia|].
      rewrite !decimal_append. rewrite ?ReferenceFacts.append_cons. rewrite decimal_append.
      rewrite integer_decimal
        by (rewrite <- EN, of_nat_to_nat by lia;
            now replace (Z.of_nat N) with (n - 1) by lia).
      rewrite decimals_stop by reflexivity.
      cbn [fraction].
      rewrite some_decimals_digits by (apply stops_decimal; lia).
      rewrite decimals_decimal by (rewrite <- EF, of_nat_to_nat; lia).
      rewrite decimals_stop by exact Hstop.
      rewrite exponent_absent by exact Hcont.
      rewrite <- EF, of_nat_to_nat by lia. rewrite Hsum.
      do 3 f_equal. lia.
    + destruct (Z.ltb_spec (-6) n); [|lia].
      destruct (Z.leb_spec n 0); [lia|]. cbn [andb]. exact Hpower.
    + destruct (Z.ltb_spec (-6) n) as [Hn6|Hn6];
        [destruct (Z.leb_spec n 0) as [Hn|Hn]; [|lia]|]; cbn [andb].
      * (* zeros between the point and the digits *)
        unfold unsigned.
        rewrite ?ReferenceFacts.append_cons. rewrite !decimal_append.
        change ("" +:+ rest) with rest.
        assert (Hstart : stops (decimal (Z.to_nat (- n)) 0
                                  (decimal (Z.to_nat k) s rest)) = false).
        { destruct (Z.to_nat (- n)) as [|J];
            [rewrite EK; cbn [decimal]|]; apply stops_decimal; lia. }
        assert (Hz : integer
                       (String "0"
                          (String "." (decimal (Z.to_nat (- n)) 0
                                         (decimal (Z.to_nat k) s rest))))
                     = Some (0, String "." (decimal (Z.to_nat (- n)) 0
                                              (decimal (Z.to_nat k) s rest))))
          by reflexivity.
        rewrite Hz. cbn [fraction].
        rewrite some_decimals_digits by exact Hstart.
        rewrite decimals_decimal
          by (split; [lia|apply Z.pow_pos_nonneg; lia]).
        rewrite decimals_decimal by (rewrite of_nat_to_nat; lia).
        rewrite decimals_stop by exact Hstop.
        rewrite exponent_absent by exact Hcont.
        rewrite !of_nat_to_nat by lia.
        do 2 f_equal. f_equal; lia.
      * exact Hpower.
Qed.


Lemma nearest_negative (negative : bool) (p q m e : Z) :
  nearest false p q = Finite false m e ->
  nearest negative p q = Finite negative m e.
Proof.
  unfold nearest. cbv zeta.
  set (a := p * 2 ^ 1074). set (E := Z.max 0 (Z.log2 (a / q) - 52)).
  set (d := q * 2 ^ E).
  set (r := if 2 * (a mod d) <? d then a / d
            else if d <? 2 * (a mod d) then a / d + 1
            else if Z.even (a / d) then a / d else a / d + 1).
  destruct (r =? 2 ^ 53);
    match goal with |- context [?x =? 0] => destruct (x =? 0) end;
    try discriminate;
    match goal with |- context [2045 <? ?x] => destruct (2045 <? x) end;
    try discriminate; now intros [= <- <-].
Qed.

Lemma of_decimal_negative (negative : bool) (s g m e : Z) :
  of_decimal false s g = Finite false m e ->
  of_decimal negative s g = Finite negative m e.
Proof. rewrite !of_decimal_ratio. apply nearest_negative. Qed.

Lemma format_head (s k n : Z) :
  1 <= k -> 0 <= s ->
  exists d t, 0 <= d < 10 /\ format s k n = String (digit_character d) t.
Proof.
  intros Hk Hs.
  assert (Hd : forall j w tail,
             0 < j -> 0 <= w ->
             exists d t, 0 <= d < 10
                         /\ decimal (Z.to_nat j) w tail
                            = String (digit_character d) t).
  { intros j w tail Hj Hw. destruct (Z.to_nat j) as [|J] eqn:EJ; [lia|].
    rewrite decimal_head by exact Hw. eexists _, _. split; [|reflexivity].
    apply Z.mod_pos_bound. lia. }
  unfold format.
  destruct (Z.leb_spec k n) as [Hkn|Hkn]; cbn [andb].
  - destruct (n <=? 21); [apply Hd; lia|].
    destruct (Z.ltb_spec 0 n); [|lia].
    destruct (Z.ltb_spec (-6) n); [|lia].
    destruct (Z.leb_spec n 0); [lia|]. cbn [andb].
    destruct (k =? 1); [apply (Hd 1); lia|].
    apply (Hd 1); [lia|]. apply Z.div_pos; [lia|].
    apply Z.pow_pos_nonneg; lia.
  - destruct ((0 <? n) && (n <=? 21)) eqn:Hn.
    + apply andb_prop in Hn as [Hn _]. apply Z.ltb_lt in Hn.
      apply Hd; [lia|]. apply Z.div_pos; [lia|].
      apply Z.pow_pos_nonneg; lia.
    + destruct ((-6 <? n) && (n <=? 0)); [now exists 0; eexists|].
      destruct (k =? 1); [apply (Hd 1); lia|].
      apply (Hd 1); [lia|]. apply Z.div_pos; [lia|].
      apply Z.pow_pos_nonneg; lia.
Qed.

Lemma literal_unsigned (d : Z) (t : string) :
  0 <= d < 10 ->
  literal (String (digit_character d) t)
  = unsigned false (String (digit_character d) t).
Proof. intros H. each_digit H; reflexivity. Qed.

Lemma all_ascii_format (s k n : Z) : all_ascii (format s k n) = true.
Proof.
  unfold format, natural_text.
  repeat match goal with
         | |- context [if ?c then _ else _] => destruct c
         end;
    repeat (rewrite ?all_ascii_decimal, ?all_ascii_cons; cbn [andb]);
    reflexivity.
Qed.

(** A number that is [exact] is read back from its text. *)
Theorem literal_number_text (x : number) (rest : string) :
  exact x -> ends_numeral rest = true ->
  literal (number_text x +:+ rest) = Some (x, rest).
Proof.
  intros Hx Hr. destruct x as [negative|negative m e|negative|];
    cbn [exact] in Hx; try contradiction.
  - (* zero *)
    subst negative.
    change (literal (number_text (Zero false) +:+ rest))
      with (unsigned false (String "0" rest)).
    unfold unsigned.
    assert (Hz : integer (String "0" rest) = Some (0, rest)).
    { pose proof (ends_numeral_stops rest Hr) as Hs.
      destruct rest as [|c r]; [reflexivity|]. cbn in *.
      now destruct (digit c). }
    rewrite Hz, fraction_absent, exponent_absent
      by now apply ends_numeral_continues.
    reflexivity.
  - destruct (shortest_digits m e Hx) as (s & k & n & Es & Hk & Hs & Hd).
    cbn [number_text toString]. rewrite Es.
    pose proof (unsigned_format negative s k n rest ltac:(lia) Hs Hr) as Hu.
    rewrite (of_decimal_negative negative s (n - k) m e Hd) in Hu.
    destruct negative; [exact Hu|].
    assert (0 <= s).
    { pose proof (Z.pow_pos_nonneg 10 (k - 1) ltac:(lia) ltac:(lia)). lia. }
    destruct (format_head s k n ltac:(lia) ltac:(lia)) as (d & t & Hd' & Ef).
    rewrite Ef in *. rewrite ReferenceFacts.append_cons in *.
    now rewrite literal_unsigned.
Qed.

Lemma number_text_head (x : number) :
  exact x ->
  exists c s, number_text x = String c s
              /\ starts_scalar c = true /\ Ascii.eqb c quote = false
              /\ opens c = true.
Proof.
  intros Hx. destruct x as [negative|negative m e|negative|];
    cbn [exact] in Hx; try contradiction.
  - now exists "0"%char, "".
  - destruct (shortest_digits m e Hx) as (s & k & n & Es & Hk & Hs & Hd).
    cbn [number_text toString]. rewrite Es.
    destruct negative; [now eexists "-"%char, _|].
    assert (0 <= s).
    { pose proof (Z.pow_pos_nonneg 10 (k - 1) ltac:(lia) ltac:(lia)). lia. }
    destruct (format_head s k n ltac:(lia) ltac:(lia)) as (d & t & Hd' & Ef).
    exists (digit_character d), t. split; [exact Ef|].
    destruct (digit_character_plain d Hd') as (? & ? & ? & _). tauto.
Qed.

Lemma number_text_ascii (x : number) : all_ascii (number_text x) = true.
Proof.
  destruct x as [negative|negative m e|negative|]; try reflexivity.
  cbn [number_text toString].
  destruct (shortest m e) as [[s k] n].
  destruct negative; [rewrite all_ascii_cons|]; now rewrite all_ascii_format.
Qed.

(** [JSON.parse] undoes [JSON.stringify] on the data. *)
Theorem from_JSON_to_JSON (v : value number) :
  finite_data v -> from_JSON (to_JSON v) = Some v.
Proof.
  apply (ReferenceFacts.parse_stringify literal number_text exact).
  - intros x rest. apply literal_number_text.
  - intros x. apply number_text_head.
Qed.

(** The text of a value whose strings are texts is a text. *)
Theorem to_JSON_text (v : value number) :
  finite_data v -> json_text v -> utf8_text (to_JSON v) = true.
Proof.
  apply (ReferenceFacts.stringify_well_formed number_text exact).
  intros x _. apply number_text_ascii.
Qed.

End Binary64Facts.


(** The same in the reference runtime, whose numbers are the integers:
    the mappings whose numbers are safe integers come back. *)
Lemma integer_edits_round_trip (m : list (string * value Z)) (event : Event)
  (q : gmap string string) :
  Reference.encodable (JObj m) ->
  queryStringParameters event = Some q ->
  q !! "edits" = Some (Reference.encode (JObj m)) ->
  decodeRequest (Some (Reference.encode (JObj m))) = Ok (JObj m)
  /\ parseImageEdits event "Default" = Ok (JObj m).
Proof.
  intros [Hd Ht] Hq Hraw.
  apply (round_trip_of_codecs Reference.JSON_stringify Reference.Buffer_from
           Reference.Buffer_to_base64 m event q); auto.
  - apply ReferenceFacts.base64_round_trip.
  - now apply ReferenceFacts.Buffer_toString_from,
      ReferenceFacts.stringify_text.
  - now apply ReferenceFacts.JSON_parse_stringify.
Qed.

(** What is not data does not come back: the negative zero is written
    [0], and a number that is not finite is written [null]. *)
Example negative_zero_is_not_kept :
  Binary64.from_JSON
    (Binary64.to_JSON (JArr [JNum (Binary64.Zero true)]))
  = Some (JArr [JNum (Binary64.Zero false)])
  /\ Binary64.from_JSON
       (Binary64.to_JSON (JArr [JNum Binary64.NaN]))
     = Some (JArr [JNull]).
Proof. split; vm_compute; reflexivity. Qed.

(** The fraction of [{ quality: 0.5 }] is decoded, and a numeral with
    more digits than a number holds is read as the nearest number:
    [9007199254740993] as [9007199254740992]. *)
Example fraction_is_decoded :
  parseImageEdits (num := Binary64.number)
    (Examples.request "/images/a" (Some Fractions.quality_encoded) None)
    "Default"
  = Ok (JObj [("quality", JNum Fractions.half)])
  /\ Binary64.from_JSON "9007199254740993"
     = Some (JNum (Binary64.Finite false 4503599627370496 1))
  /\ Binary64.toString (Binary64.Finite false 4503599627370496 1)
     = "9007199254740992".
Proof. split; [|split]; vm_compute; reflexivity. Qed.

(** Bytes that are not UTF-8 do not decode to their text: [é] written
    as the single byte [E9] comes back as U+FFFD. *)
Example latin1_byte_is_replaced :
  Reference.Buffer_toString [xe9] = "�"
  /\ Reference.Buffer_toString (Reference.Buffer_from "é") = "é".
Proof. split; reflexivity. Qed.


(** ** The fetch and the assembly *)

Section Setup.

Context {num : Type} `{!Runtime num}.

Variable env : Env.
Variable getObject :
  string -> string -> S3.GetObjectOutput date + S3.Error num.

Lemma strict_eq_string_true (v : value num) (s : string) :
  strict_eq_string v s = true <-> v = JStr s.
Proof.
  destruct v; simpl; try (split; [discriminate|intros [=]]).
  rewrite String.eqb_eq. split; [now intros ->|now intros [= ->]].
Qed.

(** C6.  When the storage call fails, the fetch rejects with an object
    whose status is 404 if the code of the failure is [NoSuchKey] and 500
    for any other failure, and whose code and message are those of the
    failure. *)
Theorem fetch_failure (this : ImageRequest num) (b k : string)
  (err : S3.Error num) :
  getObject b k = inr err ->
  exists status,
    getOriginalImage getObject this b k
    = Throw (ErrorObject status (S3.code err) (S3.message err))
    /\ (S3.code err = JStr "NoSuchKey" -> status = 404%Z)
    /\ (S3.code err <> JStr "NoSuchKey" -> status = 500%Z).
Proof.
  intros H. unfold getOriginalImage. rewrite H.
  destruct (strict_eq_string (S3.code err) "NoSuchKey") eqn:E.
  - exists 404%Z. split; [reflexivity|]. split; [reflexivity|].
    apply strict_eq_string_true in E. congruence.
  - exists 500%Z. split; [reflexivity|]. split; [|reflexivity].
    intros Hc. apply strict_eq_string_true in Hc. congruence.
Qed.

(** The fetch assigns response fields only. *)
Lemma getOriginalImage_keeps (this this' : ImageRequest num)
  (b k : string) (body : list byte) :
  getOriginalImage getObject this b k = Ok (body, this') ->
  requestType this' = requestType this
  /\ edits this' = edits this
  /\ outputFormat this' = outputFormat this.
Proof.
  unfold getOriginalImage.
  destruct (getObject b k) as [o|err]; [|discriminate].
  intros [= _ <-].
  destruct (S3.ContentType o) as [t|]; [destruct (String.eqb t "")|];
    destruct (S3.Expires o), (S3.LastModified o);
    (destruct (S3.CacheControl o) as [c|]; [destruct (String.eqb c "")|]);
    repeat split.
Qed.

Lemma str_includes_empty (sub : string) :
  sub <> "" -> JsString.str_includes sub "" = false.
Proof. destruct sub; [congruence|reflexivity]. Qed.

Lemma getOutputFormat_default (this : ImageRequest num) (event : Event)
  (e x : value num) :
  requestType this = Some "Default" -> is_nullish e = false ->
  getOutputFormat env this event e = Ok x ->
  x = if auto_webp env && accepts_webp event then JStr "webp"
      else own e "outputFormat".
Proof.
  intros Ht He. unfold getOutputFormat, auto_webp, accepts_webp.
  rewrite Ht, bool_decide_eq_true_2 by reflexivity.
  assert (Hget : Get e "outputFormat" = Ok (own e "outputFormat"))
    by (now destruct e).
  rewrite Hget.
  destruct (truthy_string (AUTO_WEBP env)); cbn [bind andb];
    [|now intros [= <-]].
  destruct (headers event) as [h|]; [|discriminate].
  destruct (h !! "Accept") as [a|]; cbn [bind]; [|now intros [= <-]].
  destruct (String.eqb_spec a "") as [->|_]; cbn [negb andb];
    [now intros [= <-]|].
  destruct (JsString.str_includes "image/webp" a); now intros [= <-].
Qed.

(** [this.edits && this.edits.toFormat], as a condition and as the value
    that is assigned when the condition holds. *)
Lemma toFormat_condition (e x : value num) :
  is_nullish e = false ->
  (if ToBoolean e then Get e "toFormat" else Ok e) = Ok x ->
  ToBoolean x = ToBoolean (own e "toFormat")
  /\ (ToBoolean x = true -> x = own e "toFormat").
Proof.
  intros He. destruct (ToBoolean e) eqn:Et.
  - destruct e; try discriminate; intros [= <-]; split; auto.
  - intros [= <-]. rewrite Et. destruct e; try discriminate; split; auto;
      discriminate.
Qed.

(** What a successful [setup] leaves in [this]. *)
Lemma setup_result (event : Event) (this d : ImageRequest num) :
  setup env getObject event this = Ok d ->
  requestType d = Some "Default"
  /\ parseImageEdits event "Default" = Ok (edits d)
  /\ outputFormat d
     = (if ToBoolean (own (edits d) "toFormat")
        then own (edits d) "toFormat"
        else if auto_webp env && accepts_webp event then JStr "webp"
        else if ToBoolean (own (edits d) "outputFormat")
        then own (edits d) "outputFormat"
        else outputFormat this)
  /\ (ToBoolean (outputFormat d) = true ->
      ContentType d = Some ("image/" +:+ ToString (outputFormat d))).
Proof.
  unfold setup, parseRequestType.
  destruct (parseImageBucket env event "Default") as [b|]; [|discriminate].
  cbn [bind].
  destruct (parseImageKey env event "Default") as [k|]; [|discriminate].
  cbn [bind].
  destruct (parseImageEdits event "Default") as [e|] eqn:Ee; [|discriminate].
  cbn [bind]. pose proof (parseImageEdits_not_nullish _ _ _ Ee) as Hn.
  destruct (getOriginalImage getObject _ b k) as [[body this1]|] eqn:Eg;
    [|discriminate].
  cbn [bind fst snd].
  apply getOriginalImage_keeps in Eg as (Ht & Hed & Hof). simpl in Ht, Hed, Hof.
  assert (Hed' : edits (set_originalImage body this1) = e) by exact Hed.
  rewrite Hed'.
  destruct (getOutputFormat env (set_originalImage body this1) event e)
    as [o|] eqn:Eo; [|discriminate].
  apply getOutputFormat_default in Eo; [|exact Ht|exact Hn].
  cbn [bind].
  destruct (if ToBoolean e then Get e "toFormat" else Ok e) as [tf|] eqn:Etf;
    [|discriminate].
  apply toFormat_condition in Etf as [Htf1 Htf2]; [|exact Hn].
  cbn [bind].
  set (this2 := if ToBoolean tf
                then set_outputFormat tf (set_originalImage body this1)
                else if ToBoolean o
                then set_outputFormat o (set_originalImage body this1)
                else set_originalImage body this1).
  assert (H2 : requestType this2 = Some "Default" /\ edits this2 = e
               /\ outputFormat this2
                  = if ToBoolean (own e "toFormat") then own e "toFormat"
                    else if ToBoolean o then o else outputFormat this).
  { subst this2. rewrite <- Htf1.
    destruct (ToBoolean tf) eqn:E1; [rewrite <- Htf2 by reflexivity; auto|].
    destruct (ToBoolean o); auto. }
  destruct H2 as (Ht2 & He2 & Ho2). clearbody this2.
  assert (Ho3 : outputFormat this2
                = if ToBoolean (own e "toFormat") then own e "toFormat"
                  else if auto_webp env && accepts_webp event
                  then JStr "webp"
                  else if ToBoolean (own e "outputFormat")
                  then own e "outputFormat" else outputFormat this).
  { rewrite Ho2, Eo. now destruct (auto_webp env && accepts_webp event). }
  destruct (ToBoolean (outputFormat this2)) eqn:Eb.
  - unfold template_text.
    destruct (converts (outputFormat this2)); [|discriminate].
    cbn [bind requestType edits outputFormat set_ContentType].
    rewrite Ht2, fixQuality_other_type by reflexivity. cbn [bind].
    intros [= <-]. cbn. rewrite He2. repeat split; auto.
  - intros [= <-]. rewrite He2. repeat split; auto. congruence.
Qed.

(** C10.  The classifier answers [Default] for every event; so the
    descriptor of a successful [setup] has the request type [Default],
    and its edits are the decoded edits: the quality fix, which is for
    [Custom] and [Thumbor] only, renames and deletes nothing. *)
Theorem setup_is_default (event : Event) (this d : ImageRequest num) :
  setup env getObject event this = Ok d ->
  parseRequestType event = "Default"
  /\ requestType d = Some "Default"
  /\ parseImageEdits event "Default" = Ok (edits d)
  /\ fixQuality (requestType d) (outputFormat d) (edits d) = Ok (edits d).
Proof.
  intros H. apply setup_result in H as (Ht & He & _).
  split; [reflexivity|]. split; [exact Ht|]. split; [exact He|].
  rewrite Ht. now apply fixQuality_other_type.
Qed.

(** C3, as amended.  In the descriptor of a successful [setup] on a fresh
    object the output format is: the [toFormat] of the edits when that
    value is truthy, so present and not [null], [false], zero or empty;
    otherwise [webp] when [AUTO_WEBP] is set to a text that is not empty
    and the [Accept] header contains [image/webp], whatever the
    [outputFormat] of the edits; otherwise the [outputFormat] of the edits
    when that value is truthy; otherwise none.  When there is an output
    format, the content type is [image/] followed by it. *)
Theorem output_format_precedence (event : Event) (d : ImageRequest num) :
  setup env getObject event new_ImageRequest = Ok d ->
  outputFormat d
  = (if ToBoolean (own (edits d) "toFormat")
     then own (edits d) "toFormat"
     else if auto_webp env && accepts_webp event then JStr "webp"
     else if ToBoolean (own (edits d) "outputFormat")
     then own (edits d) "outputFormat"
     else JUndefined)
  /\ (ToBoolean (outputFormat d) = true ->
      ContentType d = Some ("image/" +:+ ToString (outputFormat d))).
Proof.
  intros H. apply setup_result in H as (_ & _ & Ho & Hc).
  split; [exact Ho|exact Hc].
Qed.

End Setup.

(** *** The claims on the examples *)

(** A missing key is reported with 404, a refused request with 500. *)
Lemma fetch_failure_witness :
  Reference.getObject "images" "missing.png"
  = inr {| S3.code := JStr "NoSuchKey";
           S3.message := JStr "The specified key does not exist." |}
  /\ getOriginalImage Reference.getObject new_ImageRequest
       "images" "missing.png"
     = Throw (ErrorObject 404 (JStr "NoSuchKey")
                (JStr "The specified key does not exist."))
  /\ getOriginalImage Reference.getObject new_ImageRequest "vault" "gold"
     = Throw (ErrorObject 500 (JStr "AccessDenied") (JStr "Access Denied")).
Proof.
  assert (H1 : Reference.getObject "images" "missing.png"
               = inr {| S3.code := JStr "NoSuchKey";
                        S3.message :=
                          JStr "The specified key does not exist." |})
    by reflexivity.
  assert (H2 : Reference.getObject "vault" "gold"
               = inr {| S3.code := JStr "AccessDenied";
                        S3.message := JStr "Access Denied" |})
    by reflexivity.
  split; [exact H1|]. split.
  - destruct (@fetch_failure Z Reference.runtime Reference.getObject
                new_ImageRequest _ _ _ H1)
      as (status & E & H404 & _).
    rewrite E, H404; reflexivity.
  - destruct (@fetch_failure Z Reference.runtime Reference.getObject
                new_ImageRequest _ _ _ H2)
      as (status & E & _ & H500).
    rewrite E, H500; [reflexivity|discriminate].
Defined.

(** The resize request is a [Default] request and keeps its edits. *)
Lemma setup_is_default_witness :
  setup Examples.env Reference.getObject Examples.resize_request
    new_ImageRequest
  = Ok Examples.resize_descriptor
  /\ requestType Examples.resize_descriptor = Some "Default"
  /\ parseImageEdits Examples.resize_request "Default"
     = Ok (JObj Examples.resize_edits).
Proof.
  assert (H : setup Examples.env Reference.getObject Examples.resize_request
                new_ImageRequest = Ok Examples.resize_descriptor)
    by (vm_compute; reflexivity).
  split; [exact H|].
  destruct (@setup_is_default Z Reference.runtime Examples.env
              Reference.getObject _ _ _ H)
    as (_ & Ht & He & _).
  split; [exact Ht|exact He].
Defined.

(** A request that asks for TIFF gets TIFF, although it accepts WebP and
    the negotiation is enabled. *)
Lemma output_format_precedence_witness :
  setup Examples.env Reference.getObject Examples.tiff_request
    new_ImageRequest
  = Ok Examples.tiff_descriptor
  /\ outputFormat Examples.tiff_descriptor = JStr "tiff"
  /\ ContentType Examples.tiff_descriptor = Some "image/tiff".
Proof.
  assert (H : setup Examples.env Reference.getObject Examples.tiff_request
                new_ImageRequest = Ok Examples.tiff_descriptor)
    by (vm_compute; reflexivity).
  split; [exact H|].
  destruct (@output_format_precedence Z Reference.runtime Examples.env
              Reference.getObject _ _ H)
    as (Ho & Hc).
  split; [exact Ho|]. now apply Hc.
Defined.

(** Without edits, a request that accepts WebP gets WebP; so does one
    whose edits ask for PNG through [outputFormat]. *)
Example negotiation_beats_outputFormat :
  (exists d,
     setup Examples.env Reference.getObject
       (Examples.request "/images/cats/tom.png" None (Some "image/webp"))
       new_ImageRequest = Ok d
     /\ outputFormat d = JStr "webp"
     /\ ContentType d = Some "image/webp")
  /\ (exists d,
        setup Examples.env Reference.getObject
          (Examples.request "/images/cats/tom.png"
             (Some "eyJvdXRwdXRGb3JtYXQiOiJwbmcifQ==") (Some "image/webp"))
          new_ImageRequest = Ok d
        /\ edits d = JObj [("outputFormat", JStr "png")]
        /\ outputFormat d = JStr "webp").
Proof.
  split; eexists; (split; [vm_compute; reflexivity|]); split; reflexivity.
Qed.

(** C3, as stated, fails: a [toFormat] that is present but empty does not
    win; the format of the descriptor is the [outputFormat] of the
    edits. *)
Lemma blank_toFormat_does_not_win :
  setup Examples.env_no_webp Reference.getObject
    Examples.blank_format_request new_ImageRequest
  = Ok Examples.blank_format_descriptor
  /\ lookup_prop "toFormat" Examples.blank_format_edits = Some (JStr "")
  /\ edits Examples.blank_format_descriptor = JObj Examples.blank_format_edits
  /\ outputFormat Examples.blank_format_descriptor = JStr "png"
  /\ outputFormat Examples.blank_format_descriptor
     <> own (edits Examples.blank_format_descriptor) "toFormat".
Proof.
  split; [vm_compute; reflexivity|]. repeat split. discriminate.
Qed.

(** * Further properties *)

(** ** The path prefix *)

Lemma unsnoc_append (s : string) (c : ascii) :
  Reference.unsnoc (s +:+ String c "") = Some (s, c).
Proof.
  induction s as [|x s IH]; [reflexivity|].
  rewrite ReferenceFacts.append_cons. simpl. now rewrite IH.
Qed.

Lemma plain_strip_group (s : string) :
  Reference.plain s = true -> Reference.strip_group s = s.
Proof.
  destruct s as [|c s]; [reflexivity|]. simpl Reference.plain. intros H.
  apply andb_prop in H as [Hc _].
  destruct c as [[] [] [] [] [] [] [] []]; try reflexivity.
  discriminate Hc.
Qed.

(** The pattern of [removePathPrefix] for a literal prefix. *)
Lemma RegExp_new_prefix (lit : string) :
  Reference.plain lit = true ->
  Reference.RegExp_new ("^(" +:+ lit +:+ ")")
  = Some {| Reference.anchored_start := true;
            Reference.anchored_end := false;
            Reference.literal := lit |}.
Proof.
  intros H. unfold Reference.RegExp_new.
  change ("^(" +:+ lit +:+ ")") with (String "^" (String "(" (lit +:+ ")"))).
  cbn [Reference.strip_start].
  unfold Reference.strip_end.
  change (Reference.unsnoc (String "(" (lit +:+ ")")))
    with (match Reference.unsnoc (lit +:+ ")") with
          | None => Some (EmptyString, "("%char)
          | Some (init, last) => Some (String "(" init, last)
          end).
  rewrite unsnoc_append. cbv iota beta.
  unfold Reference.strip_group. rewrite unsnoc_append. cbv iota beta.
  now rewrite H.
Qed.

Lemma substring_none (s : string) : String.substring 0 0 s = "".
Proof. now destruct s. Qed.

(** [removePathPrefix] for a literal prefix: the prefix is taken off the
    start of the path, once. *)
Lemma removePathPrefix_literal (env : Env) (lit rest p : string) :
  JsString.template (PATH_PREFIX env) = lit -> Reference.plain lit = true ->
  removePathPrefix env (lit +:+ rest) = Ok rest
  /\ (String.prefix lit p = false -> removePathPrefix env p = Ok p).
Proof.
  intros Hl Hp. unfold removePathPrefix. rewrite Hl.
  change (@RegExp_new Z Reference.runtime) with Reference.RegExp_new.
  rewrite (RegExp_new_prefix lit Hp).
  change (@RegExp_exec Z Reference.runtime) with Reference.RegExp_exec.
  unfold Reference.RegExp_exec. cbn [Reference.anchored_start Reference.anchored_end Reference.literal].
  split.
  - rewrite ReferenceFacts.prefix_append. unfold JsString.cut.
    rewrite substring_none. cbn [Nat.add].
    now rewrite ReferenceFacts.substring_append.
  - now intros ->.
Qed.

(** X1.  In the reference runtime, for a prefix that is a literal text (it
    holds no syntax character of a pattern): a path that starts with the
    prefix loses it once, what follows is kept even when it starts with
    the prefix again; a path that does not start with the prefix is left
    as it is. *)
Theorem literal_prefix_is_removed_once (env : Env) (pre rest p : string) :
  PATH_PREFIX env = Some pre -> Reference.plain pre = true ->
  removePathPrefix env (pre +:+ rest) = Ok rest
  /\ removePathPrefix env (pre +:+ pre +:+ rest) = Ok (pre +:+ rest)
  /\ (String.prefix pre p = false -> removePathPrefix env p = Ok p).
Proof.
  intros He Hp.
  assert (Hl : JsString.template (PATH_PREFIX env) = pre) by now rewrite He.
  split; [|split].
  - now apply (removePathPrefix_literal env pre rest p).
  - now apply (removePathPrefix_literal env pre (pre +:+ rest) p).
  - now apply (removePathPrefix_literal env pre rest p).
Qed.

(** Under the prefix [/], a path with two leading slashes keeps one. *)
Lemma literal_prefix_is_removed_once_witness :
  PATH_PREFIX Examples.env = Some "/"
  /\ Reference.plain "/" = true
  /\ removePathPrefix Examples.env "//images/a" = Ok "/images/a"
  /\ removePathPrefix Examples.env "images/a" = Ok "images/a".
Proof.
  split; [reflexivity|]. split; [reflexivity|].
  destruct (literal_prefix_is_removed_once Examples.env "/" "images/a"
              "images/a" eq_refl eq_refl) as (_ & H2 & H3).
  split; [exact H2|]. apply H3. reflexivity.
Defined.

(** X2.  In the reference runtime, when [PATH_PREFIX] is not set the
    pattern is built from the text [undefined]: a path that starts with
    that text loses it, any other path is left as it is. *)
Theorem unset_prefix_strips_undefined (env : Env) (rest p : string) :
  PATH_PREFIX env = None ->
  removePathPrefix env ("undefined" +:+ rest) = Ok rest
  /\ (String.prefix "undefined" p = false -> removePathPrefix env p = Ok p).
Proof.
  intros He.
  apply (removePathPrefix_literal env "undefined" rest p);
    [now rewrite He|reflexivity].
Qed.

(** Without a prefix, a path that starts with [undefined] loses that text,
    and a leading slash is kept. *)
Lemma unset_prefix_strips_undefined_witness :
  PATH_PREFIX Cases.env_whitelist_only = None
  /\ removePathPrefix Cases.env_whitelist_only "undefined/cats/tom.png"
     = Ok "/cats/tom.png"
  /\ removePathPrefix Cases.env_whitelist_only "/images/cats/tom.png"
     = Ok "/images/cats/tom.png".
Proof.
  split; [reflexivity|].
  destruct (unset_prefix_strips_undefined Cases.env_whitelist_only
              "/cats/tom.png" "/images/cats/tom.png" eq_refl) as [H1 H2].
  split; [exact H1|]. apply H2. reflexivity.
Defined.

(** ** More on the whitelist, the bucket and the key *)

Section Cleanliness.

Variable c : ascii.

Lemma split_free_of (s : string) :
  Forall (fun x => free_of c x = true) (JsString.split c s).
Proof.
  induction s as [|x s IH]; simpl; [now constructor|].
  destruct (Ascii.eqb x c) eqn:E; [now constructor|].
  destruct (JsString.split c s) as [|seg segs] eqn:Es;
    [now destruct (split_nonempty c s)|].
  inversion IH as [|? ? Hseg Hsegs]; subst.
  constructor; [simpl; now rewrite E, Hseg|exact Hsegs].
Qed.

Lemma split_free_of_space (s : string) :
  free_of_space s = true ->
  Forall (fun x => free_of_space x = true) (JsString.split c s).
Proof.
  induction s as [|x s IH]; simpl; [now constructor|].
  intros H. apply andb_prop in H as [Hx Hs]. specialize (IH Hs).
  destruct (Ascii.eqb x c); [now constructor|].
  destruct (JsString.split c s) as [|seg segs] eqn:Es;
    [now destruct (split_nonempty c s)|].
  inversion IH as [|? ? Hseg Hsegs]; subst.
  constructor; [simpl; now rewrite Hx, Hseg|exact Hsegs].
Qed.

Lemma length_split (s : string) :
  length (JsString.split c s) = S (occurrences c s).
Proof.
  induction s as [|x s IH]; simpl; [reflexivity|].
  destruct (Ascii.eqb x c); simpl; [now rewrite IH|].
  destruct (JsString.split c s) eqn:Es;
    [now destruct (split_nonempty c s)|exact IH].
Qed.

Lemma free_of_before (s : string) : free_of c (JsString.before c s) = true.
Proof.
  induction s as [|x s IH]; simpl; [reflexivity|].
  destruct (Ascii.eqb x c) eqn:E; [reflexivity|]. simpl. now rewrite E.
Qed.

Lemma free_of_before_other (d : ascii) (s : string) :
  free_of d s = true -> free_of d (JsString.before c s) = true.
Proof.
  induction s as [|x s IH]; simpl; [reflexivity|].
  intros H. apply andb_prop in H as [Hx Hs].
  destruct (Ascii.eqb x c); [reflexivity|]. simpl. now rewrite Hx, IH.
Qed.

Lemma free_of_after (d : ascii) (s : string) :
  free_of d s = true -> free_of d (JsString.after c s) = true.
Proof.
  induction s as [|x s IH]; simpl; [reflexivity|].
  intros H. apply andb_prop in H as [Hx Hs].
  destruct (Ascii.eqb x c); auto.
Qed.

(** A text that holds [c] is what lies before its first [c], that [c]
    and what lies after it. *)
Lemma before_after (s : string) :
  JsString.after c s <> "" ->
  JsString.before c s +:+ String c (JsString.after c s) = s.
Proof.
  induction s as [|x s IH]; simpl; [congruence|].
  destruct (Ascii.eqb_spec x c) as [->|_]; [reflexivity|].
  intros H. rewrite ReferenceFacts.append_cons. now rewrite IH.
Qed.

Lemma after_before_nonempty (d : ascii) (s : string) :
  JsString.after c (JsString.before d s) <> "" -> JsString.after c s <> "".
Proof.
  induction s as [|x s IH]; simpl; [congruence|].
  destruct (Ascii.eqb x d); simpl; [congruence|].
  destruct (Ascii.eqb x c); [|exact IH].
  destruct s; simpl; congruence.
Qed.

(** Cutting a text at its first [d] does not move its first [c], when a
    [c] is left. *)
Lemma before_before (d : ascii) (s : string) :
  JsString.after c (JsString.before d s) <> "" ->
  JsString.before c (JsString.before d s) = JsString.before c s.
Proof.
  induction s as [|x s IH]; simpl; [congruence|].
  destruct (Ascii.eqb x d); simpl; [congruence|].
  destruct (Ascii.eqb x c); [reflexivity|].
  intros H. now rewrite IH.
Qed.

End Cleanliness.

Lemma remove_whitespace_free (s : string) :
  free_of_space (JsString.remove_whitespace s) = true.
Proof.
  assert (H : forall n s, String.length s <= n ->
    free_of_space (JsString.remove_whitespace s) = true);
    [|now apply (H (String.length s))].
  clear s. induction n as [|n IH]; intros [|c1 t] Hlen;
    try reflexivity; simpl in Hlen; [lia|].
  rewrite remove_whitespace_step. unfold head_space.
  destruct (JsString.space1 c1) eqn:E1; [apply IH; lia|].
  assert (Hkeep : free_of_space (String c1 (JsString.remove_whitespace t))
                  = true).
  { simpl. rewrite E1. apply IH. lia. }
  destruct t as [|c2 t2]; [exact Hkeep|].
  destruct (JsString.space2 c1 c2); [apply IH; simpl in Hlen; lia|].
  destruct t2 as [|c3 t3]; [exact Hkeep|].
  destruct (JsString.space3 c1 c2 c3); [apply IH; simpl in Hlen; lia|].
  exact Hkeep.
Qed.

Section Whitelist.

Context {num : Type} `{!Runtime num}.

Variable env : Env.
Variable getObject :
  string -> string -> S3.GetObjectOutput date + S3.Error num.

(** X3.  A whitelist that was read is never empty, and none of its
    entries holds a comma or an ASCII white space character (space, tab,
    line feed, vertical tab, form feed, carriage return). *)
Theorem whitelist_entries_are_clean (W : list string) :
  getAllowedSourceBuckets (num := num) env = Ok W ->
  W <> []
  /\ Forall (fun w => free_of "," w = true /\ free_of_space w = true) W.
Proof.
  unfold getAllowedSourceBuckets.
  destruct (SOURCE_BUCKETS env) as [s|]; [|discriminate].
  intros [= <-]. split; [apply split_nonempty|].
  pose proof (split_free_of "," (JsString.remove_whitespace s)) as H1.
  pose proof (split_free_of_space "," (JsString.remove_whitespace s)
                (remove_whitespace_free s)) as H2.
  rewrite List.Forall_forall in *. intros w Hw. split; auto.
Qed.

(** X4.  When [SOURCE_BUCKETS] is set, no entry is dropped, an empty one
    included: the whitelist has one entry more than the text has commas,
    and its entries joined by commas are the text without its white
    space. *)
Theorem whitelist_keeps_every_entry (s : string) :
  SOURCE_BUCKETS env = Some s ->
  exists W,
    getAllowedSourceBuckets (num := num) env = Ok W
    /\ length W = S (occurrences "," s)
    /\ JsString.join "," W = JsString.remove_whitespace s.
Proof.
  intros Hs. unfold getAllowedSourceBuckets. rewrite Hs.
  eexists. split; [reflexivity|]. split.
  - rewrite split_remove_whitespace, length_map. apply length_split.
  - apply join_split.
Qed.

(** X5.  When the platform refuses the pattern built from [PATH_PREFIX],
    the bucket, the key and the whole [setup] fail with the
    [SyntaxError] of the platform, which has no status. *)
Theorem refused_prefix_fails_every_request (event : Event)
  (this : ImageRequest num) :
  RegExp_new ("^(" +:+ JsString.template (PATH_PREFIX env) +:+ ")") = None ->
  parseImageBucket env event "Default" = Throw (NativeError "SyntaxError")
  /\ parseImageKey env event "Default" = Throw (NativeError "SyntaxError")
  /\ setup env getObject event this = Throw (NativeError "SyntaxError")
  /\ status_of (NativeError (num := num) "SyntaxError") = None.
Proof.
  intros H.
  assert (Hp : removePathPrefix env (path event)
               = Throw (NativeError "SyntaxError"))
    by (unfold removePathPrefix; now rewrite H).
  assert (Hb : parseImageBucket env event "Default"
               = Throw (NativeError "SyntaxError"))
    by (unfold parseImageBucket; simpl String.eqb; cbv iota;
        now rewrite Hp).
  split; [exact Hb|]. split; [|split; [|reflexivity]].
  - unfold parseImageKey. simpl String.eqb. cbv iota. now rewrite Hp.
  - unfold setup, parseRequestType. now rewrite Hb.
Qed.

(** X6.  When [SOURCE_BUCKETS] is not set, the bucket of every request
    whose prefix can be stripped fails with the configuration error, of
    status 400, whether the path names a bucket or not, and so does
    [setup], whatever the key, the edits and the store are. *)
Theorem unset_whitelist_fails_every_request (event : Event)
  (this : ImageRequest num) (p : string) :
  SOURCE_BUCKETS env = None ->
  removePathPrefix env (path event) = Ok p ->
  parseImageBucket env event "Default" = Throw ConfigurationError
  /\ setup env getObject event this = Throw ConfigurationError.
Proof.
  intros Hs Hp.
  assert (Hw : getAllowedSourceBuckets (num := num) env
               = Throw ConfigurationError)
    by (unfold getAllowedSourceBuckets; now rewrite Hs).
  assert (Hb : parseImageBucket env event "Default"
               = Throw ConfigurationError).
  { unfold parseImageBucket. simpl String.eqb. cbv iota. rewrite Hp.
    cbn [bind]. rewrite Hw.
    now destruct (negb (JsString.first (JsString.split "/" p) =? "")). }
  split; [exact Hb|]. unfold setup, parseRequestType. now rewrite Hb.
Qed.

(** A bucket that was resolved from a path with a first segment is that
    segment. *)
Lemma parseImageBucket_segment (event : Event) (p b : string) :
  removePathPrefix env (path event) = Ok p ->
  JsString.first (JsString.split "/" p) <> "" ->
  parseImageBucket env event "Default" = Ok b ->
  b = JsString.first (JsString.split "/" p).
Proof.
  intros Hp Hne. unfold parseImageBucket. simpl String.eqb. cbv iota.
  rewrite Hp. cbn [bind]. apply String.eqb_neq in Hne. rewrite Hne.
  cbn [negb].
  destruct (getAllowedSourceBuckets env) as [W|]; [|discriminate].
  cbn [bind].
  destruct (JsString.includes _ W); [now intros [= <-]|].
  destruct (matches_first W _) as [[]|]; cbn [bind];
    [now intros [= <-]|discriminate|discriminate].
Qed.

Lemma parseImageKey_value (event : Event) (p k : string) :
  removePathPrefix env (path event) = Ok p ->
  parseImageKey env event "Default" = Ok k ->
  k = JsString.after "/" (JsString.before "?" (JsString.before "#" p))
  /\ k <> "".
Proof.
  intros Hp. unfold parseImageKey. simpl String.eqb. cbv iota.
  rewrite Hp. cbn [bind]. rewrite !first_split, join_rest_split.
  destruct (String.eqb_spec
              (JsString.after "/"
                 (JsString.before "?" (JsString.before "#" p))) "")
    as [E|E]; [discriminate|].
  now intros [= <-].
Qed.

(** X7.  The bucket and the key divide the path: when both are resolved
    from a path whose first segment is not empty, the bucket, a slash and
    the key are the stripped path up to its first [#] or [?]; the bucket
    is the text before the first slash and holds no slash, [#] or [?]. *)
Theorem bucket_and_key_divide_the_path (event : Event) (p b k : string) :
  removePathPrefix env (path event) = Ok p ->
  JsString.first (JsString.split "/" p) <> "" ->
  parseImageBucket env event "Default" = Ok b ->
  parseImageKey env event "Default" = Ok k ->
  b +:+ "/" +:+ k = JsString.before "?" (JsString.before "#" p)
  /\ free_of "/" b = true /\ free_of "#" b = true /\ free_of "?" b = true.
Proof.
  intros Hp Hne Hb Hk.
  apply (parseImageBucket_segment event p b Hp Hne) in Hb.
  apply (parseImageKey_value event p k Hp) in Hk as [Hk Hkne].
  rewrite first_split in Hb.
  set (clean := JsString.before "?" (JsString.before "#" p)) in *.
  assert (Hc : JsString.before "/" clean = b).
  { subst clean b. rewrite before_before by congruence.
    apply before_before.
    apply (after_before_nonempty "/" "?"). congruence. }
  split; [|split; [|split]].
  - rewrite <- Hc, Hk. apply before_after. congruence.
  - subst b. apply free_of_before.
  - rewrite <- Hc. subst clean.
    apply free_of_before_other, free_of_before_other, free_of_before.
  - rewrite <- Hc. subst clean.
    apply free_of_before_other, free_of_before.
Qed.

(** X8.  A key that was resolved is never empty and holds neither [#]
    nor [?]. *)
Theorem resolved_key_is_clean (event : Event) (t k : string) :
  parseImageKey env event t = Ok k ->
  k <> "" /\ free_of "#" k = true /\ free_of "?" k = true.
Proof.
  unfold parseImageKey.
  destruct (String.eqb t "Default"); [|discriminate].
  destruct (removePathPrefix env (path event)) as [p|]; [|discriminate].
  cbn [bind]. rewrite !first_split, join_rest_split.
  destruct (String.eqb_spec
              (JsString.after "/"
                 (JsString.before "?" (JsString.before "#" p))) "")
    as [E|E]; [discriminate|].
  intros [= <-]. split; [exact E|]. split.
  - apply free_of_after, free_of_before_other, free_of_before.
  - apply free_of_after, free_of_before.
Qed.

(** X9.  For a request type other than [Default] the three resolutions
    fail whatever the event and the environment are: the bucket and the
    key with status 404, the edits with status 400. *)
Theorem other_request_types_are_refused (event : Event) (t : string) :
  t <> "Default" ->
  parseImageBucket env event t = Throw BucketNotFound
  /\ parseImageKey env event t = Throw ImageNotFound
  /\ parseImageEdits (num := num) event t = Throw EditsRefused
  /\ status_of (BucketNotFound (num := num)) = Some 404%Z
  /\ status_of (ImageNotFound (num := num)) = Some 404%Z
  /\ status_of (EditsRefused (num := num)) = Some 400%Z.
Proof.
  intros Ht. apply String.eqb_neq in Ht.
  unfold parseImageBucket, parseImageKey, parseImageEdits. rewrite Ht.
  repeat split.
Qed.

End Whitelist.

(** *** A whitelist of literal names in the reference runtime *)

Lemma RegExp_new_anchored (w : string) :
  Reference.plain w = true ->
  Reference.RegExp_new ("^" +:+ w +:+ "$")
  = Some {| Reference.anchored_start := true;
            Reference.anchored_end := true;
            Reference.literal := w |}.
Proof.
  intros H. unfold Reference.RegExp_new.
  change ("^" +:+ w +:+ "$") with (String "^" (w +:+ "$")).
  cbn [Reference.strip_start]. unfold Reference.strip_end.
  rewrite unsnoc_append. cbv iota beta.
  rewrite plain_strip_group by exact H. now rewrite H.
Qed.

(** X10.  In the reference runtime, when the first entry of the whitelist
    is a literal text (it holds no syntax character of a pattern), the
    whitelist is exact: a first segment that is not empty resolves to
    itself when it is an entry, and fails with the access error when it
    is not. *)
Theorem literal_whitelist_is_exact (env : Env) (event : Event)
  (p b : string) (W : list string) :
  removePathPrefix env (path event) = Ok p ->
  getAllowedSourceBuckets (num := Z) env = Ok W ->
  Reference.plain (JsString.first W) = true ->
  JsString.first (JsString.split "/" p) = b -> b <> "" ->
  (In b W -> parseImageBucket env event "Default" = Ok b)
  /\ (~ In b W -> parseImageBucket env event "Default" = Throw AccessDenied).
Proof.
  intros Hp HW Hplain Hb Hne.
  assert (E : parseImageBucket env event "Default"
              = if JsString.includes b W then Ok b
                else if String.eqb (JsString.first W) b then Ok b
                else Throw AccessDenied).
  { unfold parseImageBucket. simpl String.eqb. cbv iota. rewrite Hp.
    cbn [bind]. rewrite Hb. apply String.eqb_neq in Hne. rewrite Hne.
    cbn [negb]. rewrite HW. cbn [bind].
    destruct (JsString.includes b W); [reflexivity|].
    unfold matches_first.
    change (@RegExp_new Z Reference.runtime) with Reference.RegExp_new.
    rewrite (RegExp_new_anchored _ Hplain). cbn [bind].
    change (@RegExp_exec Z Reference.runtime) with Reference.RegExp_exec.
    unfold Reference.RegExp_exec.
    cbn [Reference.anchored_start Reference.anchored_end Reference.literal].
    destruct (String.eqb (JsString.first W) b).
    - now rewrite bool_decide_eq_true_2 by eauto.
    - now rewrite bool_decide_eq_false_2 by (intros [? [=]]). }
  rewrite E. split.
  - intros Hin. apply includes_In in Hin. now rewrite Hin.
  - intros Hout.
    destruct (JsString.includes b W) eqn:Ei;
      [now apply includes_In in Ei|].
    destruct (String.eqb_spec (JsString.first W) b) as [Ew|_];
      [|reflexivity].
    destruct Hout. destruct W as [|w W'];
      [now destruct (whitelist_nonempty env [] HW)|].
    left. exact Ew.
Qed.

(** ** More on the edits *)

(** X11.  In the reference runtime the decoder does not ask for a
    mapping: for every value [v] that a client can encode, an array, a
    text, a number or a boolean as well as an object, the edits resolved
    from the encoding of [v] are [v] itself, and the empty mapping when
    [v] is [null]. *)
Theorem edits_need_not_be_a_mapping (v : value Z) (event : Event)
  (q : gmap string string) :
  Reference.encodable v ->
  queryStringParameters event = Some q ->
  q !! "edits" = Some (Reference.encode v) ->
  parseImageEdits event "Default"
  = Ok (if is_nullish v then JObj [] else v).
Proof.
  intros [Hd Ht] Hq Hraw.
  apply (parseImageEdits_decoded event q _ v Hq Hraw).
  change (Reference.JSON_parse
            (Reference.Buffer_toString
               (Reference.Buffer_from_base64 (Reference.encode v)))
          = Some v).
  unfold Reference.encode.
  rewrite ReferenceFacts.base64_round_trip.
  rewrite ReferenceFacts.Buffer_toString_from
    by now apply ReferenceFacts.stringify_text.
  now apply ReferenceFacts.JSON_parse_stringify.
Qed.

(** X12.  In the reference runtime an [edits] parameter that is present,
    is made of ASCII characters and decodes to no byte, as the empty text
    does, is refused with the parse error: it is not taken for an absent
    parameter. *)
Theorem blank_edits_parameter_is_refused (event : Event)
  (q : gmap string string) (raw : string) :
  queryStringParameters event = Some q ->
  q !! "edits" = Some raw ->
  Reference.all_ascii raw = true ->
  Reference.Buffer_from_base64 raw = [] ->
  parseImageEdits (num := Z) event "Default" = Throw EditsParseError.
Proof.
  intros Hq Hraw _ Hb. unfold parseImageEdits. simpl String.eqb. cbv iota.
  rewrite Hq, Hraw. unfold decodeRequest.
  change (@Buffer_from_base64 Z Reference.runtime)
    with Reference.Buffer_from_base64.
  rewrite Hb. reflexivity.
Qed.

(** ** More on the fetch and the assembly *)

Section MoreSetup.

Context {num : Type} `{!Runtime num}.

Variable env : Env.
Variable getObject :
  string -> string -> S3.GetObjectOutput date + S3.Error num.

Lemma stored_type_not_empty (o : S3.GetObjectOutput date) :
  stored_type o <> "".
Proof.
  unfold stored_type. destruct (S3.ContentType o) as [t|]; [|discriminate].
  destruct (String.eqb_spec t "") as [_|Hne]; [discriminate|exact Hne].
Qed.

Lemma stored_cache_control_not_empty (o : S3.GetObjectOutput date) :
  stored_cache_control o <> "".
Proof.
  unfold stored_cache_control.
  destruct (S3.CacheControl o) as [t|]; [|discriminate].
  destruct (String.eqb_spec t "") as [_|Hne]; [discriminate|exact Hne].
Qed.

(** What a fetch that succeeded has read and assigned. *)
Lemma getOriginalImage_ok (this this' : ImageRequest num) (b k : string)
  (body : list byte) :
  getOriginalImage getObject this b k = Ok (body, this') ->
  exists o,
    getObject b k = inl o
    /\ body = S3.Body o
    /\ ContentType this' = Some (stored_type o)
    /\ CacheControl this' = Some (stored_cache_control o)
    /\ Expires this'
       = match S3.Expires o with
         | Some d => Some (Date_toUTCString d)
         | None => Expires this
         end
    /\ LastModified this'
       = match S3.LastModified o with
         | Some d => Some (Date_toUTCString d)
         | None => LastModified this
         end
    /\ bucket this' = bucket this
    /\ key this' = key this
    /\ originalImage this' = originalImage this.
Proof.
  unfold getOriginalImage, stored_type, stored_cache_control.
  destruct (getObject b k) as [o|err]; [|discriminate].
  intros [= <- <-]. exists o. split; [reflexivity|]. split; [reflexivity|].
  destruct (S3.ContentType o) as [t|]; [destruct (String.eqb t "")|];
    destruct (S3.Expires o), (S3.LastModified o);
    (destruct (S3.CacheControl o) as [c|]; [destruct (String.eqb c "")|]);
    repeat split.
Qed.

(** X13.  When the storage call succeeds, the fetch returns the body of
    the object and assigns: as content type that of the object, or
    [image] when it has none; as cache control that of the object, or
    [max-age=31536000,public] when it has none, so neither is ever
    empty; the expiry and the modification date of the object as UTC
    texts when it has them, and otherwise leaves those of the descriptor
    as they were.  It assigns no other field. *)
Theorem fetch_success (this : ImageRequest num) (b k : string)
  (o : S3.GetObjectOutput date) :
  getObject b k = inl o ->
  exists this',
    getOriginalImage getObject this b k = Ok (S3.Body o, this')
    /\ ContentType this' = Some (stored_type o)
    /\ stored_type o <> ""
    /\ CacheControl this' = Some (stored_cache_control o)
    /\ stored_cache_control o <> ""
    /\ Expires this'
       = match S3.Expires o with
         | Some d => Some (Date_toUTCString d)
         | None => Expires this
         end
    /\ LastModified this'
       = match S3.LastModified o with
         | Some d => Some (Date_toUTCString d)
         | None => LastModified this
         end
    /\ requestType this' = requestType this
    /\ bucket this' = bucket this
    /\ key this' = key this
    /\ edits this' = edits this
    /\ originalImage this' = originalImage this
    /\ outputFormat this' = outputFormat this.
Proof.
  intros Ho.
  destruct (getOriginalImage getObject this b k) as [[body this']|e] eqn:E.
  - pose proof (getOriginalImage_keeps getObject _ _ _ _ _ E)
      as (Ht & He & Hf).
    apply getOriginalImage_ok in E
      as (o' & Ho' & -> & Hc & Hcc & Hx & Hl & Hb & Hk & Hi).
    rewrite Ho in Ho'. injection Ho' as <-.
    exists this'. split; [reflexivity|].
    pose proof (stored_type_not_empty o).
    pose proof (stored_cache_control_not_empty o).
    repeat split; assumption.
  - unfold getOriginalImage in E. rewrite Ho in E. discriminate.
Qed.

(** X14.  The descriptor of a successful [setup] holds the bucket and
    the key that were resolved, the body of the object that the store
    holds under them and its cache control, or the default one; its
    content type is [image/] followed by the output format when there is
    one, and otherwise the content type of the object, or [image]. *)
Theorem setup_descriptor (event : Event) (this d : ImageRequest num) :
  setup env getObject event this = Ok d ->
  exists b k o,
    parseImageBucket env event "Default" = Ok b
    /\ parseImageKey env event "Default" = Ok k
    /\ getObject b k = inl o
    /\ bucket d = Some b
    /\ key d = Some k
    /\ originalImage d = Some (S3.Body o)
    /\ CacheControl d = Some (stored_cache_control o)
    /\ ContentType d
       = Some (if ToBoolean (outputFormat d)
               then "image/" +:+ ToString (outputFormat d)
               else stored_type o).
Proof.
  unfold setup, parseRequestType.
  destruct (parseImageBucket env event "Default") as [b|]; [|discriminate].
  cbn [bind].
  destruct (parseImageKey env event "Default") as [k|]; [|discriminate].
  cbn [bind].
  destruct (parseImageEdits event "Default") as [e|]; [|discriminate].
  cbn [bind].
  destruct (getOriginalImage getObject _ b k) as [[body this1]|] eqn:Eg;
    [|discriminate].
  cbn [bind fst snd].
  pose proof (getOriginalImage_keeps getObject _ _ _ _ _ Eg) as (Ht & _ & _).
  apply getOriginalImage_ok in Eg
    as (o & Ho & -> & Hc & Hcc & _ & _ & Hb & Hk & _).
  simpl in Ht, Hb, Hk.
  destruct (getOutputFormat env _ event _) as [out|]; [|discriminate].
  cbn [bind].
  destruct (if ToBoolean _ then Get _ "toFormat" else Ok _) as [tf|];
    [|discriminate].
  cbn [bind].
  set (this2 := if ToBoolean tf
                then set_outputFormat tf (set_originalImage (S3.Body o) this1)
                else if ToBoolean out
                then set_outputFormat out
                       (set_originalImage (S3.Body o) this1)
                else set_originalImage (S3.Body o) this1).
  assert (H2 : requestType this2 = Some "Default"
               /\ bucket this2 = Some b /\ key this2 = Some k
               /\ originalImage this2 = Some (S3.Body o)
               /\ CacheControl this2 = Some (stored_cache_control o)
               /\ ContentType this2 = Some (stored_type o)).
  { subst this2. destruct (ToBoolean tf); [|destruct (ToBoolean out)];
      repeat split; assumption. }
  destruct H2 as (Ht2 & Hb2 & Hk2 & Hi2 & Hcc2 & Hc2). clearbody this2.
  intros Hd. exists b, k, o.
  split; [reflexivity|]. split; [reflexivity|]. split; [exact Ho|].
  destruct (ToBoolean (outputFormat this2)) eqn:Eb.
  - unfold template_text in Hd.
    destruct (converts (outputFormat this2)); [|discriminate].
    cbn [bind requestType edits outputFormat set_ContentType] in Hd.
    rewrite Ht2, fixQuality_other_type in Hd by reflexivity.
    cbn [bind] in Hd. injection Hd as <-. cbn. rewrite Eb.
    repeat split; assumption.
  - injection Hd as <-. rewrite Eb. repeat split; assumption.
Qed.

(** X15.  [setup] reports the first failure, in the order bucket, key,
    edits, fetch: a failure of the bucket whatever the rest is, a failure
    of the key when the bucket is resolved, a failure of the edits when
    the bucket and the key are, so without regard to the store, and a
    failure of the store with the status 404 or 500 when all three are
    resolved. *)
Theorem setup_reports_first_failure (event : Event)
  (this : ImageRequest num) :
  (forall e,
     parseImageBucket env event "Default" = Throw e ->
     setup env getObject event this = Throw e)
  /\ (forall b e,
        parseImageBucket env event "Default" = Ok b ->
        parseImageKey env event "Default" = Throw e ->
        setup env getObject event this = Throw e)
  /\ (forall b k e,
        parseImageBucket env event "Default" = Ok b ->
        parseImageKey env event "Default" = Ok k ->
        parseImageEdits event "Default" = Throw e ->
        setup env getObject event this = Throw e)
  /\ (forall b k e err,
        parseImageBucket env event "Default" = Ok b ->
        parseImageKey env event "Default" = Ok k ->
        parseImageEdits event "Default" = Ok e ->
        getObject b k = inr err ->
        setup env getObject event this
        = Throw (ErrorObject
                   (if strict_eq_string (S3.code err) "NoSuchKey"
                    then 404 else 500)
                   (S3.code err) (S3.message err))).
Proof.
  unfold setup, parseRequestType. split; [|split; [|split]].
  - now intros e ->.
  - now intros b e -> ->.
  - now intros b k e -> -> ->.
  - intros b k e err -> -> -> Hg. cbn [bind].
    unfold getOriginalImage. now rewrite Hg.
Qed.

(** X16.  When the negotiation is enabled, an event without headers
    never yields a descriptor: once the bucket, the key, the edits and
    the object are there, reading the [Accept] header throws a
    [TypeError].  When the negotiation is not enabled the headers are
    not read: [setup] gives the same result whatever they are. *)
Theorem negotiation_needs_headers (event : Event)
  (this : ImageRequest num) :
  (auto_webp env = true -> headers event = None ->
   (forall d, setup env getObject event this <> Ok d)
   /\ (forall b k e o,
         parseImageBucket env event "Default" = Ok b ->
         parseImageKey env event "Default" = Ok k ->
         parseImageEdits event "Default" = Ok e ->
         getObject b k = inl o ->
         setup env getObject event this = Throw (NativeError "TypeError")))
  /\ (auto_webp env = false ->
      forall h,
        setup env getObject (with_headers h event) this
        = setup env getObject event this).
Proof.
  unfold auto_webp. split.
  - intros Ha Hh.
    assert (Hf : forall (this' : ImageRequest num) (e : value num),
      getOutputFormat env this' event e = Throw (NativeError "TypeError"))
      by (intros; unfold getOutputFormat; now rewrite Ha, Hh).
    unfold setup, parseRequestType. split.
    + intros d.
      destruct (parseImageBucket env event "Default"); [|discriminate].
      cbn [bind].
      destruct (parseImageKey env event "Default"); [|discriminate].
      cbn [bind].
      destruct (parseImageEdits event "Default"); [|discriminate].
      cbn [bind].
      destruct (getOriginalImage getObject _ _ _); [|discriminate].
      cbn [bind]. now rewrite Hf.
    + intros b k e o -> -> -> Hg. cbn [bind].
      unfold getOriginalImage at 1. rewrite Hg. cbn [bind].
      now rewrite Hf.
  - intros Ha h.
    unfold setup, parseRequestType, parseImageBucket, parseImageKey,
      parseImageEdits, getOutputFormat.
    rewrite Ha. reflexivity.
Qed.

(** X17.  Of the descriptor it is given, [setup] reads the output
    format, the expiry and the modification date only: on two
    descriptors that agree on these three fields it gives the same
    result. *)
Theorem setup_reads_three_fields (event : Event)
  (this1 this2 : ImageRequest num) :
  outputFormat this1 = outputFormat this2 ->
  Expires this1 = Expires this2 ->
  LastModified this1 = LastModified this2 ->
  setup env getObject event this1 = setup env getObject event this2.
Proof.
  destruct this1, this2. cbn. intros -> -> ->.
  unfold setup, parseRequestType.
  destruct (parseImageBucket env event "Default") as [b|]; [|reflexivity].
  cbn [bind].
  destruct (parseImageKey env event "Default") as [k|]; [|reflexivity].
  cbn [bind].
  destruct (parseImageEdits event "Default") as [e|]; [|reflexivity].
  cbn [bind]. unfold getOriginalImage.
  destruct (getObject b k) as [o|err]; [|reflexivity].
  destruct (S3.ContentType o) as [t|]; [destruct (String.eqb t "")|];
    destruct (S3.Expires o), (S3.LastModified o);
    (destruct (S3.CacheControl o) as [c|]; [destruct (String.eqb c "")|]);
    reflexivity.
Qed.

(** X18.  A format that an earlier use left in the descriptor survives a
    [setup] whose request establishes none: the output format stays the
    old one, and the content type is built from it. *)
Theorem stale_format_survives (event : Event)
  (this d : ImageRequest num) :
  setup env getObject event this = Ok d ->
  ToBoolean (own (edits d) "toFormat") = false ->
  auto_webp env && accepts_webp event = false ->
  ToBoolean (own (edits d) "outputFormat") = false ->
  outputFormat d = outputFormat this
  /\ (ToBoolean (outputFormat this) = true ->
      ContentType d = Some ("image/" +:+ ToString (outputFormat this))).
Proof.
  intros H H1 H2 H3. apply setup_result in H as (_ & _ & Ho & Hc).
  rewrite H1, H2, H3 in Ho. split; [exact Ho|].
  intros Hb. rewrite <- Ho. apply Hc. now rewrite Ho.
Qed.

(** X19.  [setup] yields a descriptor exactly when the bucket, the key
    and the edits are resolved, the store holds an object under the
    bucket and the key, the event has headers if the negotiation is
    enabled, and the output format, when one is established or left in
    the descriptor, can be converted to a text: nothing else in it can
    fail. *)
Theorem setup_succeeds_exactly_when (event : Event)
  (this : ImageRequest num) :
  (exists d, setup env getObject event this = Ok d)
  <-> exists b k e o,
        parseImageBucket env event "Default" = Ok b
        /\ parseImageKey env event "Default" = Ok k
        /\ parseImageEdits event "Default" = Ok e
        /\ getObject b k = inl o
        /\ (auto_webp env = true -> is_Some (headers event))
        /\ (let format :=
              if ToBoolean (own e "toFormat") then own e "toFormat"
              else if auto_webp env && accepts_webp event then JStr "webp"
              else if ToBoolean (own e "outputFormat")
              then own e "outputFormat"
              else outputFormat this in
            ToBoolean format = true -> converts format = true).
Proof.
  split.
  - intros [d Hd].
    pose proof (setup_result env getObject event this d Hd)
      as (_ & He' & Hfmt & _).
    revert Hd. unfold setup, parseRequestType, auto_webp.
    destruct (parseImageBucket env event "Default") as [b|]; [|discriminate].
    cbn [bind].
    destruct (parseImageKey env event "Default") as [k|]; [|discriminate].
    cbn [bind].
    destruct (parseImageEdits event "Default") as [e|]; [|discriminate].
    injection He' as He'.
    cbn [bind].
    destruct (getOriginalImage getObject _ b k) as [[body this1]|] eqn:Eg;
      [|discriminate].
    cbn [bind fst snd].
    apply getOriginalImage_ok in Eg as (o & Ho & _).
    destruct (getOutputFormat env _ event _) as [out|] eqn:Eo;
      [|discriminate].
    cbn [bind].
    destruct (if ToBoolean _ then Get _ "toFormat" else Ok _) as [tf|];
      [|discriminate].
    cbn [bind]. intros Hd.
    exists b, k, e, o. split; [reflexivity|]. split; [reflexivity|].
    split; [reflexivity|]. split; [exact Ho|]. split.
    + intros Ha. unfold getOutputFormat in Eo. rewrite Ha in Eo.
      destruct (headers event); [eauto|discriminate].
    + cbv zeta. rewrite He'. unfold auto_webp in Hfmt. rewrite <- Hfmt.
      intros Hb.
      match type of Hd with
      | (if ToBoolean (outputFormat ?x) then _ else _) = _ =>
          destruct (ToBoolean (outputFormat x)) eqn:Eb;
          [unfold template_text in Hd;
           destruct (converts (outputFormat x)) eqn:Ec; [|discriminate];
           cbn [bind requestType edits outputFormat set_ContentType] in Hd;
           destruct (fixQuality _ _ _); [|discriminate];
           cbn [bind] in Hd; injection Hd as <-; exact Ec
          |injection Hd as <-; congruence]
      end.
  - unfold auto_webp.
    intros (b & k & e & o & Hb & Hk & He & Ho & Hh & Hc).
    unfold setup, parseRequestType. rewrite Hb, Hk, He. cbn [bind].
    pose proof (parseImageEdits_not_nullish _ _ _ He) as Hn.
    destruct (getOriginalImage getObject _ b k) as [[body this1]|] eqn:Eg;
      [|unfold getOriginalImage in Eg; rewrite Ho in Eg; discriminate].
    cbn [bind fst snd].
    apply getOriginalImage_keeps in Eg as (Ht & Hed & Hof).
    simpl in Ht, Hed, Hof.
    assert (Hed' : edits (set_originalImage body this1) = e) by exact Hed.
    assert (Ht' : requestType (set_originalImage body this1)
                  = Some "Default") by exact Ht.
    rewrite Hed'.
    destruct (getOutputFormat env (set_originalImage body this1) event e)
      as [out|err] eqn:Eo.
    2: { exfalso. revert Eo. unfold getOutputFormat.
         rewrite Ht', bool_decide_eq_true_2 by reflexivity.
         assert (Hget : Get e "outputFormat" = Ok (own e "outputFormat"))
           by (now destruct e).
         rewrite Hget.
         destruct (truthy_string (AUTO_WEBP env)); cbn [bind];
           [|discriminate].
         destruct Hh as [h ->]; [reflexivity|].
         destruct (h !! "Accept") as [a|]; cbn [bind]; [|discriminate].
         destruct (negb (String.eqb a "")
                   && JsString.str_includes "image/webp" a);
           discriminate. }
    pose proof (getOutputFormat_default env _ _ _ _ Ht' Hn Eo) as Hout.
    cbn [bind].
    destruct (if ToBoolean e then Get e "toFormat" else Ok e) as [tf|] eqn:Etf;
      [|destruct (ToBoolean e); [destruct e|]; discriminate].
    apply toFormat_condition in Etf as [Htf1 Htf2]; [|exact Hn].
    cbn [bind].
    set (this2 := if ToBoolean tf
                  then set_outputFormat tf (set_originalImage body this1)
                  else if ToBoolean out
                  then set_outputFormat out (set_originalImage body this1)
                  else set_originalImage body this1).
    assert (H2 : requestType this2 = Some "Default"
                 /\ outputFormat this2
                    = (if ToBoolean (own e "toFormat") then own e "toFormat"
                       else if ToBoolean out then out
                       else outputFormat this)).
    { subst this2. rewrite <- Htf1.
      destruct (ToBoolean tf) eqn:E1;
        [rewrite <- Htf2 by reflexivity|destruct (ToBoolean out)];
        repeat split; assumption. }
    destruct H2 as [Ht2 Ho2]. clearbody this2.
    assert (Ho3 : outputFormat this2
                  = if ToBoolean (own e "toFormat") then own e "toFormat"
                    else if truthy_string (AUTO_WEBP env)
                            && accepts_webp event
                    then JStr "webp"
                    else if ToBoolean (own e "outputFormat")
                    then own e "outputFormat" else outputFormat this).
    { rewrite Ho2, Hout. unfold auto_webp.
      now destruct (truthy_string (AUTO_WEBP env) && accepts_webp event). }
    cbv zeta in Hc. rewrite <- Ho3 in Hc.
    destruct (ToBoolean (outputFormat this2)) eqn:Eb; [|eauto].
    unfold template_text. rewrite Hc by reflexivity.
    cbn [bind requestType edits outputFormat set_ContentType].
    rewrite Ht2, fixQuality_other_type by reflexivity. cbn [bind]. eauto.
Qed.

Lemma str_includes_unfold (sub s : string) :
  JsString.str_includes sub s
  = String.prefix sub s
    || match s with
       | EmptyString => false
       | String _ s' => JsString.str_includes sub s'
       end.
Proof. now destruct s. Qed.

Lemma str_includes_middle (sub a b : string) :
  JsString.str_includes sub (a +:+ sub +:+ b) = true.
Proof.
  induction a as [|c a IH].
  - rewrite ReferenceFacts.append_empty, str_includes_unfold.
    now rewrite ReferenceFacts.prefix_append.
  - rewrite ReferenceFacts.append_cons, str_includes_unfold, IH.
    apply orb_true_r.
Qed.

(** X20.  When the negotiation is enabled, the text [image/webp]
    anywhere in the [Accept] header gives [webp], whatever precedes and
    follows it in the header (a quality of zero, for one), whatever the
    edits hold and whatever the request type is. *)
Theorem webp_is_found_anywhere (this : ImageRequest num) (event : Event)
  (e : value num) (h : gmap string string) (a b : string) :
  auto_webp env = true ->
  headers event = Some h ->
  h !! "Accept" = Some (a +:+ "image/webp" +:+ b) ->
  getOutputFormat env this event e = Ok (JStr "webp").
Proof.
  unfold auto_webp, getOutputFormat. intros -> -> ->. cbn [bind].
  rewrite str_includes_middle.
  assert (Hne : a +:+ "image/webp" +:+ b <> "") by (now destruct a).
  apply String.eqb_neq in Hne. now rewrite Hne.
Qed.

End MoreSetup.

(** ** More on the quality fix *)

Section MoreQuality.

Context {num : Type} `{!Runtime num}.

Implicit Types (props : list (string * value num)) (fmt q : string).

Lemma lookup_set_prop_ne k q (v : value num) props :
  k <> q -> lookup_prop k (set_prop q v props) = lookup_prop k props.
Proof.
  intros Hne. induction props as [|[k' v'] props IH]; simpl.
  - destruct (String.eqb_spec q k); [congruence|reflexivity].
  - destruct (String.eqb_spec k' q) as [->|Hq]; simpl.
    + destruct (String.eqb_spec q k); [congruence|reflexivity].
    + now rewrite IH.
Qed.

(** X21.  For the request types [Custom] and [Thumbor] and a format that
    is a codec name, the quality fix changes two keys at most, the
    format and the first codec key of the edits: every other key keeps
    its value, and so does every key that is not a codec name. *)
Theorem quality_fix_keeps_other_keys (t fmt : string) props :
  In t ["Custom"; "Thumbor"] ->
  In fmt acceptedValues ->
  exists props',
    fixQuality (Some t) (JStr fmt) (JObj props) = Ok (JObj props')
    /\ (forall k,
          k <> fmt -> quality_keys_of props !! 0%nat <> Some k ->
          lookup_prop k props' = lookup_prop k props)
    /\ (forall k,
          is_codec k = false -> lookup_prop k props' = lookup_prop k props).
Proof.
  intros Ht Hf. pose proof (In_is_codec _ Hf) as Hc.
  rewrite (fixQuality_object t fmt props Ht Hc).
  assert (Hother : forall k props',
    (forall k, k <> fmt -> quality_keys_of props !! 0%nat <> Some k ->
       lookup_prop k props' = lookup_prop k props) ->
    is_codec k = false -> lookup_prop k props' = lookup_prop k props).
  { intros k props' H Hk. apply H.
    - intros ->. congruence.
    - destruct (quality_keys_of props) as [|q qs] eqn:E; [discriminate|].
      intros [= ->].
      assert (Hin : In k (quality_keys_of props)) by (rewrite E; now left).
      apply filter_In in Hin as [_ Hq]. congruence. }
  destruct (quality_keys_of props) as [|q qs] eqn:E.
  - exists props. split; [reflexivity|]. split; [reflexivity|].
    intros k. now apply Hother.
  - destruct (String.eqb fmt q).
    + exists props. split; [reflexivity|]. split; [reflexivity|].
      intros k. now apply Hother.
    + eexists. split; [reflexivity|].
      assert (H : forall k,
        k <> fmt -> (q :: qs) !! 0%nat <> Some k ->
        lookup_prop k
          (delete_prop q (set_prop fmt (own (JObj props) q) props))
        = lookup_prop k props).
      { intros k Hk Hq.
        rewrite lookup_delete_prop_ne by (intros ->; now apply Hq).
        now apply lookup_set_prop_ne. }
      split; [exact H|]. intros k. now apply Hother.
Qed.

(** X22.  On edits that are neither [undefined] nor [null] the quality
    fix never throws, whatever the request type and the output format
    are; and it returns the edits as they are when they are not an object,
    when the output format is not one of the five codec names, when they
    hold no codec key, and when their first codec key is the format. *)
Theorem quality_fix_is_inert (t : option string) (out e : value num) :
  is_nullish e = false ->
  (exists e', fixQuality t out e = Ok e')
  /\ ((forall props, e <> JObj props) -> fixQuality t out e = Ok e)
  /\ (includes_value out acceptedValues = false ->
      fixQuality t out e = Ok e)
  /\ (forall props,
        e = JObj props -> quality_keys_of props = [] ->
        fixQuality t out e = Ok e)
  /\ (forall props q,
        e = JObj props -> quality_keys_of props !! 0%nat = Some q ->
        out = JStr q -> fixQuality t out e = Ok e).
Proof.
  intros Hn. unfold fixQuality.
  destruct (match t with
            | Some t0 => JsString.includes t0 ["Custom"; "Thumbor"]
            | None => false
            end) eqn:Et; cbn [andb];
    [|repeat split; eauto].
  destruct (includes_value out acceptedValues) eqn:Ei;
    [|repeat split; eauto].
  assert (Hnot : (forall props, e <> JObj props) -> quality_keys e = Ok [])
    by (intros Ho; now apply quality_keys_not_object).
  destruct e as [| |b|n|s|items|props]; try discriminate;
    try (rewrite Hnot by discriminate; cbn [bind];
         repeat split; eauto; try discriminate;
         intros ? ? [=]).
  rewrite quality_keys_object. cbn [bind].
  destruct (quality_keys_of props) as [|q qs] eqn:E.
  - repeat split; eauto; try discriminate.
  - change ((q :: qs) !! 0%nat) with (Some q).
    cbn [Get bind Put Delete].
    destruct (negb (String.eqb q "") && negb (strict_eq_string out q))
      eqn:Ec.
    + split; [eauto|].
      split; [intros Ho; now destruct (Ho props)|].
      split; [discriminate|]. split.
      * intros props' [= <-]. rewrite E. discriminate.
      * intros props' q' [= <-]. rewrite E. intros [= <-] ->.
        simpl in Ec. rewrite String.eqb_refl in Ec.
        now rewrite andb_false_r in Ec.
    + repeat split; eauto.
Qed.

End MoreQuality.

(** *** The further properties on the examples *)

(** The prefix [*] is not a pattern. *)
Lemma refused_prefix_fails_every_request_witness :
  RegExp_new (num := Z)
    ("^(" +:+ JsString.template (PATH_PREFIX Cases.env_refused_prefix)
     +:+ ")") = None
  /\ setup Cases.env_refused_prefix Reference.getObject
       (Cases.bare_request "/images/cats/tom.png") new_ImageRequest
     = Throw (NativeError "SyntaxError").
Proof.
  assert (H : RegExp_new (num := Z)
                ("^(" +:+ JsString.template
                            (PATH_PREFIX Cases.env_refused_prefix)
                 +:+ ")") = None) by reflexivity.
  split; [exact H|].
  now destruct (@refused_prefix_fails_every_request Z Reference.runtime
                  Cases.env_refused_prefix Reference.getObject
                  (Cases.bare_request "/images/cats/tom.png")
                  new_ImageRequest H) as (_ & _ & H3 & _).
Defined.

(** The entries of [images, thumbnails ,vault]. *)
Lemma whitelist_entries_are_clean_witness :
  getAllowedSourceBuckets (num := Z) Examples.env
  = Ok ["images"; "thumbnails"; "vault"]
  /\ Forall (fun w => free_of "," w = true /\ free_of_space w = true)
       ["images"; "thumbnails"; "vault"].
Proof.
  assert (H : getAllowedSourceBuckets (num := Z) Examples.env
              = Ok ["images"; "thumbnails"; "vault"]) by reflexivity.
  split; [exact H|].
  now destruct (@whitelist_entries_are_clean Z Examples.env _ H).
Defined.

(** The text [images,, vault,] has three commas and gives four entries,
    two of them empty. *)
Lemma whitelist_keeps_every_entry_witness :
  SOURCE_BUCKETS Cases.env_empty_entries = Some "images,, vault,"
  /\ exists W,
       getAllowedSourceBuckets (num := Z) Cases.env_empty_entries = Ok W
       /\ length W = 4
       /\ JsString.join "," W = "images,,vault,".
Proof.
  split; [reflexivity|].
  exact (@whitelist_keeps_every_entry Z Cases.env_empty_entries _ eq_refl).
Defined.

(** A request for a stored image, without whitelist. *)
Lemma unset_whitelist_fails_every_request_witness :
  SOURCE_BUCKETS Cases.env_no_whitelist = None
  /\ removePathPrefix Cases.env_no_whitelist "/images/cats/tom.png"
     = Ok "images/cats/tom.png"
  /\ setup Cases.env_no_whitelist Reference.getObject
       (Cases.bare_request "/images/cats/tom.png") new_ImageRequest
     = Throw ConfigurationError.
Proof.
  split; [reflexivity|]. split; [reflexivity|].
  now destruct (@unset_whitelist_fails_every_request Z Reference.runtime
                  Cases.env_no_whitelist Reference.getObject
                  (Cases.bare_request "/images/cats/tom.png")
                  new_ImageRequest "images/cats/tom.png" eq_refl eq_refl).
Defined.

(** The bucket [secret] is not among [images], [thumbnails] and [vault].
    *)
Lemma literal_whitelist_is_exact_witness :
  removePathPrefix Examples.env "/secret/plans.png" = Ok "secret/plans.png"
  /\ getAllowedSourceBuckets (num := Z) Examples.env
     = Ok ["images"; "thumbnails"; "vault"]
  /\ Reference.plain "images" = true
  /\ ~ In "secret" ["images"; "thumbnails"; "vault"]
  /\ parseImageBucket Examples.env
       (Examples.request "/secret/plans.png" None None) "Default"
     = Throw AccessDenied.
Proof.
  assert (Hout : ~ In "secret" ["images"; "thumbnails"; "vault"])
    by (simpl; intuition discriminate).
  split; [reflexivity|]. split; [reflexivity|]. split; [reflexivity|].
  split; [exact Hout|].
  destruct (literal_whitelist_is_exact Examples.env
              (Examples.request "/secret/plans.png" None None)
              "secret/plans.png" "secret" ["images"; "thumbnails"; "vault"]
              eq_refl eq_refl eq_refl eq_refl) as [_ H];
    [discriminate|].
  exact (H Hout).
Defined.

(** The bucket [images] and the key [cats/tom.png] of a path with a query
    and a fragment. *)
Lemma bucket_and_key_divide_the_path_witness :
  removePathPrefix Examples.env "/images/cats/tom.png?x=1#frag"
  = Ok "images/cats/tom.png?x=1#frag"
  /\ parseImageBucket Examples.env
       (Examples.request "/images/cats/tom.png?x=1#frag" None None)
       "Default" = Ok "images"
  /\ parseImageKey Examples.env
       (Examples.request "/images/cats/tom.png?x=1#frag" None None)
       "Default" = Ok "cats/tom.png"
  /\ "images" +:+ "/" +:+ "cats/tom.png"
     = JsString.before "?"
         (JsString.before "#" "images/cats/tom.png?x=1#frag").
Proof.
  split; [reflexivity|]. split; [reflexivity|]. split; [reflexivity|].
  destruct (@bucket_and_key_divide_the_path Z Reference.runtime
              Examples.env
              (Examples.request "/images/cats/tom.png?x=1#frag" None None)
              "images/cats/tom.png?x=1#frag" "images" "cats/tom.png"
              eq_refl) as [H _]; [discriminate|reflexivity|reflexivity|].
  exact H.
Defined.

(** The key of a path with a query and a fragment. *)
Lemma resolved_key_is_clean_witness :
  parseImageKey Examples.env
    (Examples.request "/images/cats/tom.png?x=1#frag" None None) "Default"
  = Ok "cats/tom.png"
  /\ "cats/tom.png" <> ""
  /\ free_of "#" "cats/tom.png" = true
  /\ free_of "?" "cats/tom.png" = true.
Proof.
  split; [reflexivity|].
  exact (@resolved_key_is_clean Z Reference.runtime Examples.env
           (Examples.request "/images/cats/tom.png?x=1#frag" None None)
           "Default" "cats/tom.png" eq_refl).
Defined.

(** The request type [Thumbor]. *)
Lemma other_request_types_are_refused_witness :
  "Thumbor" <> "Default"
  /\ parseImageBucket (num := Z) Examples.env
       (Examples.request "/images/cats/tom.png" None None) "Thumbor"
     = Throw BucketNotFound
  /\ parseImageKey (num := Z) Examples.env
       (Examples.request "/images/cats/tom.png" None None) "Thumbor"
     = Throw ImageNotFound
  /\ parseImageEdits (num := Z)
       (Examples.request "/images/cats/tom.png" None None) "Thumbor"
     = Throw EditsRefused.
Proof.
  assert (H : "Thumbor" <> "Default") by discriminate.
  split; [exact H|].
  destruct (@other_request_types_are_refused Z Reference.runtime
              Examples.env
              (Examples.request "/images/cats/tom.png" None None)
              "Thumbor" H) as (H1 & H2 & H3 & _).
  split; [exact H1|]. split; [exact H2|exact H3].
Defined.

(** An array comes back as the edits. *)
Lemma edits_need_not_be_a_mapping_witness :
  Reference.encodable Cases.list_edits
  /\ parseImageEdits
       (Examples.request "/images/cats/tom.png"
          (Some (Reference.encode Cases.list_edits)) None) "Default"
     = Ok Cases.list_edits.
Proof.
  assert (He : Reference.encodable Cases.list_edits).
  { split.
    - simpl. repeat split. discriminate.
    - simpl. repeat split; reflexivity. }
  split; [exact He|].
  apply (edits_need_not_be_a_mapping Cases.list_edits
           (Examples.request "/images/cats/tom.png"
              (Some (Reference.encode Cases.list_edits)) None)
           {[ "edits" := Reference.encode Cases.list_edits ]} He);
    reflexivity.
Defined.

(** The parameter [edits=], with nothing behind the sign. *)
Lemma blank_edits_parameter_is_refused_witness :
  Reference.all_ascii "" = true
  /\ Reference.Buffer_from_base64 "" = []
  /\ parseImageEdits (num := Z)
       (Examples.request "/images/cats/tom.png" (Some "") None) "Default"
     = Throw EditsParseError.
Proof.
  split; [reflexivity|]. split; [reflexivity|].
  apply (blank_edits_parameter_is_refused
           (Examples.request "/images/cats/tom.png" (Some "") None)
           {[ "edits" := "" ]} ""); reflexivity.
Defined.

(** An object without content type, fetched into a descriptor that held a
    format. *)
Lemma fetch_success_witness :
  Reference.getObject "images" "raw.bin"
  = inl {| S3.Body := [x00];
           S3.ContentType := None;
           S3.Expires := None;
           S3.LastModified := None;
           S3.CacheControl := Some "no-cache" |}
  /\ exists this',
       getOriginalImage Reference.getObject Examples.tiff_descriptor
         "images" "raw.bin" = Ok ([x00], this')
       /\ ContentType this' = Some "image"
       /\ CacheControl this' = Some "no-cache"
       /\ outputFormat this' = JStr "tiff".
Proof.
  split; [reflexivity|].
  destruct (@fetch_success Z Reference.runtime Reference.getObject
              Examples.tiff_descriptor "images" "raw.bin" _ eq_refl)
    as (this' & E & Hc & _ & Hcc & _ & _ & _ & _ & _ & _ & _ & _ & Hf).
  exists this'. split; [exact E|]. split; [exact Hc|].
  split; [exact Hcc|exact Hf].
Defined.

(** The descriptor of the resize request holds what the store holds. *)
Lemma setup_descriptor_witness :
  setup Examples.env Reference.getObject Examples.resize_request
    new_ImageRequest
  = Ok Examples.resize_descriptor
  /\ exists b k o,
       Reference.getObject b k = inl o
       /\ bucket Examples.resize_descriptor = Some b
       /\ key Examples.resize_descriptor = Some k
       /\ originalImage Examples.resize_descriptor = Some (S3.Body o).
Proof.
  assert (H : setup Examples.env Reference.getObject Examples.resize_request
                new_ImageRequest = Ok Examples.resize_descriptor)
    by (vm_compute; reflexivity).
  split; [exact H|].
  destruct (@setup_descriptor Z Reference.runtime Examples.env
              Reference.getObject _ _ _ H)
    as (b & k & o & _ & _ & Ho & Hb & Hk & Hi & _).
  exists b, k, o. split; [exact Ho|]. split; [exact Hb|].
  split; [exact Hk|exact Hi].
Defined.

(** A bucket that is not allowed hides edits that are not JSON; a key that
    the store does not hold is reported with 404. *)
Lemma setup_reports_first_failure_witness :
  parseImageBucket Examples.env
    (Examples.request "/secret" (Some "e3dpZHRoOjEwMH0=") None) "Default"
  = Throw AccessDenied
  /\ setup Examples.env Reference.getObject
       (Examples.request "/secret" (Some "e3dpZHRoOjEwMH0=") None)
       new_ImageRequest
     = Throw AccessDenied
  /\ setup Examples.env Reference.getObject
       (Examples.request "/images/missing.png" None None) new_ImageRequest
     = Throw (ErrorObject 404 (JStr "NoSuchKey")
                (JStr "The specified key does not exist.")).
Proof.
  assert (H : parseImageBucket Examples.env
                (Examples.request "/secret" (Some "e3dpZHRoOjEwMH0=") None)
                "Default" = Throw AccessDenied) by reflexivity.
  split; [exact H|]. split.
  - destruct (@setup_reports_first_failure Z Reference.runtime Examples.env
                Reference.getObject
                (Examples.request "/secret" (Some "e3dpZHRoOjEwMH0=") None)
                new_ImageRequest) as (H1 & _).
    exact (H1 _ H).
  - destruct (@setup_reports_first_failure Z Reference.runtime Examples.env
                Reference.getObject
                (Examples.request "/images/missing.png" None None)
                new_ImageRequest) as (_ & _ & _ & H4).
    exact (H4 "images" "missing.png" (JObj [])
             {| S3.code := JStr "NoSuchKey";
                S3.message := JStr "The specified key does not exist." |}
             eq_refl eq_refl eq_refl eq_refl).
Defined.

(** An event without headers, with and without negotiation. *)
Lemma negotiation_needs_headers_witness :
  auto_webp Examples.env = true
  /\ headers (Cases.bare_request "/images/cats/tom.png") = None
  /\ setup Examples.env Reference.getObject
       (Cases.bare_request "/images/cats/tom.png") new_ImageRequest
     = Throw (NativeError "TypeError")
  /\ setup Examples.env_no_webp Reference.getObject
       (with_headers None Examples.resize_request) new_ImageRequest
     = setup Examples.env_no_webp Reference.getObject
         Examples.resize_request new_ImageRequest.
Proof.
  split; [reflexivity|]. split; [reflexivity|]. split.
  - destruct (@negotiation_needs_headers Z Reference.runtime Examples.env
                Reference.getObject
                (Cases.bare_request "/images/cats/tom.png")
                new_ImageRequest) as [H _].
    destruct (H eq_refl eq_refl) as [_ H2].
    exact (H2 "images" "cats/tom.png" (JObj []) _
             eq_refl eq_refl eq_refl eq_refl).
  - destruct (@negotiation_needs_headers Z Reference.runtime
                Examples.env_no_webp Reference.getObject
                Examples.resize_request new_ImageRequest) as [_ H].
    exact (H eq_refl None).
Defined.

(** A header that gives WebP the quality zero. *)
Lemma webp_is_found_anywhere_witness :
  auto_webp Examples.env = true
  /\ getOutputFormat Examples.env Examples.tiff_descriptor
       (Examples.request "/images/cats/tom.png" None
          (Some "text/html,image/webp;q=0"))
       (JObj Examples.tiff_edits)
     = Ok (JStr "webp").
Proof.
  split; [reflexivity|].
  apply (@webp_is_found_anywhere Z Examples.env
           Examples.tiff_descriptor
           (Examples.request "/images/cats/tom.png" None
              (Some "text/html,image/webp;q=0"))
           (JObj Examples.tiff_edits)
           {[ "Accept" := "text/html,image/webp;q=0" ]}
           "text/html," ";q=0"); reflexivity.
Defined.

(** A fresh descriptor and one that an earlier request filled. *)
Lemma setup_reads_three_fields_witness :
  outputFormat (new_ImageRequest (num := Z))
  = outputFormat Examples.resize_descriptor
  /\ setup Examples.env Reference.getObject Examples.tiff_request
       new_ImageRequest
     = setup Examples.env Reference.getObject Examples.tiff_request
         Examples.resize_descriptor.
Proof.
  split; [reflexivity|].
  exact (@setup_reads_three_fields Z Reference.runtime Examples.env
           Reference.getObject Examples.tiff_request new_ImageRequest
           Examples.resize_descriptor eq_refl eq_refl eq_refl).
Defined.

(** The resize request, which asks for no format, on the descriptor that
    the TIFF request left. *)
Lemma stale_format_survives_witness :
  setup Examples.env Reference.getObject Examples.resize_request
    Examples.tiff_descriptor
  = Ok Cases.reused_descriptor
  /\ outputFormat Cases.reused_descriptor = JStr "tiff"
  /\ ContentType Cases.reused_descriptor = Some "image/tiff".
Proof.
  assert (H : setup Examples.env Reference.getObject Examples.resize_request
                Examples.tiff_descriptor = Ok Cases.reused_descriptor)
    by (vm_compute; reflexivity).
  split; [exact H|].
  destruct (@stale_format_survives Z Reference.runtime Examples.env
              Reference.getObject _ _ _ H eq_refl eq_refl eq_refl)
    as [Ho Hc].
  split; [exact Ho|]. now apply Hc.
Defined.

(** The key [rotate] beside the codec key [jpeg]. *)
Lemma quality_fix_keeps_other_keys_witness :
  In "Thumbor" ["Custom"; "Thumbor"]
  /\ In "webp" acceptedValues
  /\ exists props',
       fixQuality (Some "Thumbor") (JStr "webp")
         (JObj [("jpeg", JNum 80%Z); ("rotate", JNum 90%Z)])
       = Ok (JObj props')
       /\ lookup_prop "rotate" props' = Some (JNum 90%Z).
Proof.
  assert (H1 : In "Thumbor" ["Custom"; "Thumbor"]) by (simpl; tauto).
  assert (H2 : In "webp" acceptedValues) by (simpl; tauto).
  split; [exact H1|]. split; [exact H2|].
  destruct (@quality_fix_keeps_other_keys Z Reference.runtime "Thumbor"
              "webp" [("jpeg", JNum 80%Z); ("rotate", JNum 90%Z)] H1 H2)
    as (props' & E & _ & H).
  exists props'. split; [exact E|]. now rewrite H.
Defined.

(** Edits that are an array. *)
Lemma quality_fix_is_inert_witness :
  is_nullish Cases.list_edits = false
  /\ fixQuality (Some "Custom") (JStr "webp") Cases.list_edits
     = Ok Cases.list_edits.
Proof.
  split; [reflexivity|].
  destruct (@quality_fix_is_inert Z Reference.runtime (Some "Custom")
              (JStr "webp") Cases.list_edits eq_refl) as (_ & H & _).
  apply H. discriminate.
Defined.

(** ** What a resolved bucket is *)

Section Allowed.

Context {num : Type} `{!Runtime num}.

Variable env : Env.
Variable getObject :
  string -> string -> S3.GetObjectOutput date + S3.Error num.

Lemma parseImageBucket_allowed (event : Event) (b : string) :
  parseImageBucket env event "Default" = Ok b ->
  exists W,
    getAllowedSourceBuckets (num := num) env = Ok W /\ allowed_bucket W b.
Proof.
  unfold parseImageBucket. simpl String.eqb. cbv iota.
  destruct (removePathPrefix env (path event)) as [p|]; [|discriminate].
  cbn [bind].
  destruct (getAllowedSourceBuckets (num := num) env) as [W|] eqn:EW;
    [|now destruct (negb _)].
  destruct (negb (JsString.first (JsString.split "/" p) =? "")).
  - cbn [bind].
    destruct (JsString.includes _ W) eqn:Ei.
    + intros [= <-]. exists W. split; [reflexivity|]. left.
      now apply includes_In.
    + unfold matches_first.
      destruct (RegExp_new ("^" +:+ JsString.first W +:+ "$")) as [re|]
        eqn:Er; [|discriminate].
      cbn [bind]. case_bool_decide as Hm; [|discriminate].
      intros [= <-]. exists W. split; [reflexivity|]. right. now exists re.
  - cbn [bind]. intros [= <-]. exists W. split; [reflexivity|]. left.
    destruct W as [|w W']; [now destruct (whitelist_nonempty env [] EW)|].
    now left.
Qed.

(** The bucket and the key of a descriptor are the ones that were
    resolved. *)
Lemma setup_bucket_key (event : Event) (this d : ImageRequest num) :
  setup env getObject event this = Ok d ->
  exists b k,
    parseImageBucket env event "Default" = Ok b
    /\ parseImageKey env event "Default" = Ok k
    /\ bucket d = Some b
    /\ key d = Some k.
Proof.
  unfold setup, parseRequestType.
  destruct (parseImageBucket env event "Default") as [b|]; [|discriminate].
  cbn [bind].
  destruct (parseImageKey env event "Default") as [k|]; [|discriminate].
  cbn [bind].
  destruct (parseImageEdits event "Default") as [e|]; [|discriminate].
  cbn [bind].
  destruct (getOriginalImage getObject _ b k) as [[body this1]|] eqn:Eg;
    [|discriminate].
  cbn [bind fst snd].
  pose proof (getOriginalImage_keeps getObject _ _ _ _ _ Eg) as (Ht & _ & _).
  apply getOriginalImage_ok in Eg as (_ & _ & _ & _ & _ & _ & _ & Hb & Hk & _).
  simpl in Ht, Hb, Hk.
  destruct (getOutputFormat env _ event _) as [out|]; [|discriminate].
  cbn [bind].
  destruct (if ToBoolean _ then Get _ "toFormat" else Ok _) as [tf|];
    [|discriminate].
  cbn [bind].
  set (this2 := if ToBoolean tf
                then set_outputFormat tf (set_originalImage body this1)
                else if ToBoolean out
                then set_outputFormat out (set_originalImage body this1)
                else set_originalImage body this1).
  assert (H2 : requestType this2 = Some "Default"
               /\ bucket this2 = Some b /\ key this2 = Some k).
  { subst this2. destruct (ToBoolean tf); [|destruct (ToBoolean out)];
      repeat split; assumption. }
  destruct H2 as (Ht2 & Hb2 & Hk2). clearbody this2.
  intros Hd. exists b, k. split; [reflexivity|]. split; [reflexivity|].
  destruct (ToBoolean (outputFormat this2)).
  - unfold template_text in Hd.
    destruct (converts (outputFormat this2)); [|discriminate].
    cbn [bind requestType edits outputFormat set_ContentType] in Hd.
    rewrite Ht2, fixQuality_other_type in Hd by reflexivity.
    cbn [bind] in Hd. injection Hd as <-. split; assumption.
  - injection Hd as <-. split; assumption.
Qed.

(** X23.  A bucket is never resolved outside the whitelist: the bucket
    that [parseImageBucket] returns, and so the bucket of every
    descriptor of [setup], is an entry of the whitelist or matches its
    first entry, anchored, as a pattern. *)
Theorem resolved_bucket_is_allowed (event : Event) :
  (forall b,
     parseImageBucket env event "Default" = Ok b ->
     exists W,
       getAllowedSourceBuckets (num := num) env = Ok W
       /\ allowed_bucket W b)
  /\ (forall this d,
        setup env getObject event this = Ok d ->
        exists W b,
          getAllowedSourceBuckets (num := num) env = Ok W
          /\ bucket d = Some b
          /\ allowed_bucket W b).
Proof.
  split; [apply parseImageBucket_allowed|].
  intros this d Hd.
  apply setup_bucket_key in Hd as (b & k & Hb & _ & Hd & _).
  apply parseImageBucket_allowed in Hb as (W & HW & Ha).
  now exists W, b.
Qed.


End Allowed.

(** ** The assembly in closed form *)

Section ClosedForm.

Context {num : Type} `{!Runtime num}.

Variable env : Env.
Variable getObject :
  string -> string -> S3.GetObjectOutput date + S3.Error num.

Lemma ImageRequest_ext (x y : ImageRequest num) :
  requestType x = requestType y -> bucket x = bucket y -> key x = key y ->
  edits x = edits y -> originalImage x = originalImage y ->
  outputFormat x = outputFormat y -> ContentType x = ContentType y ->
  Expires x = Expires y -> LastModified x = LastModified y ->
  CacheControl x = CacheControl y -> x = y.
Proof. destruct x, y. cbn. now intros -> -> -> -> -> -> -> -> -> ->. Qed.

(** The negotiation reads the request type of the descriptor only. *)
Lemma getOutputFormat_requestType (x y : ImageRequest num) (event : Event)
  (e : value num) :
  requestType x = requestType y ->
  getOutputFormat env x event e = getOutputFormat env y event e.
Proof. unfold getOutputFormat. now intros ->. Qed.

(** When the bucket, the key and the edits are resolved and the store
    holds the object, [setup] is the negotiation followed by the
    assembly, which throws when the format it establishes cannot be
    converted to a text. *)
Lemma setup_closed_form (event : Event) (this : ImageRequest num)
  (b k : string) (e : value num) (o : S3.GetObjectOutput date) :
  parseImageBucket env event "Default" = Ok b ->
  parseImageKey env event "Default" = Ok k ->
  parseImageEdits event "Default" = Ok e ->
  getObject b k = inl o ->
  setup env getObject event this
  = let* out :=
      getOutputFormat env (set_requestType "Default" this) event e in
    let d := assembled b k e o out this in
    if ToBoolean (outputFormat d) && negb (converts (outputFormat d))
    then Throw (NativeError "TypeError")
    else Ok d.
Proof.
  intros Hb Hk He Hg.
  pose proof (parseImageEdits_not_nullish _ _ _ He) as Hn.
  unfold setup, parseRequestType. rewrite Hb, Hk, He. cbn [bind].
  destruct (getOriginalImage getObject _ b k) as [[body this1]|] eqn:Eg;
    [|unfold getOriginalImage in Eg; rewrite Hg in Eg; discriminate].
  cbn [bind fst snd].
  pose proof (getOriginalImage_keeps getObject _ _ _ _ _ Eg)
    as (Ht & Hed & Hof).
  apply getOriginalImage_ok in Eg
    as (o' & Ho' & -> & Hc & Hcc & Hx & Hl & Hbk & Hky & Hi).
  rewrite Hg in Ho'. injection Ho' as <-.
  simpl in Ht, Hed, Hof, Hx, Hl, Hbk, Hky.
  assert (Hed' : edits (set_originalImage (S3.Body o) this1) = e)
    by exact Hed.
  rewrite Hed'.
  rewrite (getOutputFormat_requestType
             (set_originalImage (S3.Body o) this1)
             (set_requestType "Default" this)) by exact Ht.
  destruct (getOutputFormat env (set_requestType "Default" this) event e)
    as [out|]; [|reflexivity].
  cbn [bind].
  destruct (if ToBoolean e then Get e "toFormat" else Ok e) as [tf|] eqn:Etf;
    [|destruct (ToBoolean e); [destruct e|]; discriminate].
  apply toFormat_condition in Etf as [Htf1 Htf2]; [|exact Hn].
  cbn [bind].
  set (this2 := if ToBoolean tf
                then set_outputFormat tf (set_originalImage (S3.Body o) this1)
                else if ToBoolean out
                then set_outputFormat out
                       (set_originalImage (S3.Body o) this1)
                else set_originalImage (S3.Body o) this1).
  assert (H2 : requestType this2 = Some "Default"
               /\ bucket this2 = Some b /\ key this2 = Some k
               /\ edits this2 = e
               /\ originalImage this2 = Some (S3.Body o)
               /\ outputFormat this2
                  = (if ToBoolean (own e "toFormat") then own e "toFormat"
                     else if ToBoolean out then out else outputFormat this)
               /\ ContentType this2 = Some (stored_type o)
               /\ Expires this2 = Expires this1
               /\ LastModified this2 = LastModified this1
               /\ CacheControl this2 = Some (stored_cache_control o)).
  { subst this2. rewrite <- Htf1.
    destruct (ToBoolean tf) eqn:E1;
      [rewrite <- Htf2 by reflexivity|destruct (ToBoolean out)];
      repeat split; assumption. }
  destruct H2 as (Ht2 & Hb2 & Hk2 & He2 & Hi2 & Ho2 & Hc2 & Hx2 & Hl2 & Hcc2).
  clearbody this2. cbv zeta.
  replace (outputFormat (assembled b k e o out this))
    with (outputFormat this2) by (rewrite Ho2; reflexivity).
  destruct (ToBoolean (outputFormat this2)) eqn:Eb.
  - unfold template_text.
    destruct (converts (outputFormat this2)); cbn [bind andb negb];
      [|reflexivity].
    cbn [requestType edits outputFormat set_ContentType].
    rewrite Ht2, fixQuality_other_type by reflexivity. cbn [bind].
    f_equal. apply ImageRequest_ext; cbn; rewrite <- ?Ho2, ?Eb;
      congruence.
  - cbn [andb]. f_equal. apply ImageRequest_ext; cbn;
      rewrite <- ?Ho2, ?Eb; congruence.
Qed.

(** X24.  [setup] is idempotent: run again for the same event on the
    descriptor it produced, it produces that descriptor again. *)
Theorem setup_is_idempotent (event : Event) (this d : ImageRequest num) :
  setup env getObject event this = Ok d ->
  setup env getObject event d = Ok d.
Proof.
  intros H.
  destruct (parseImageBucket env event "Default") as [b|] eqn:Hb;
    [|unfold setup, parseRequestType in H; rewrite Hb in H; discriminate].
  destruct (parseImageKey env event "Default") as [k|] eqn:Hk;
    [|unfold setup, parseRequestType in H; rewrite Hb, Hk in H;
      discriminate].
  destruct (parseImageEdits event "Default") as [e|] eqn:He;
    [|unfold setup, parseRequestType in H; rewrite Hb, Hk, He in H;
      discriminate].
  destruct (getObject b k) as [o|err] eqn:Hg;
    [|unfold setup, parseRequestType in H; rewrite Hb, Hk, He in H;
      cbn [bind] in H; unfold getOriginalImage in H; rewrite Hg in H;
      discriminate].
  rewrite (setup_closed_form event this b k e o Hb Hk He Hg) in H.
  rewrite (setup_closed_form event d b k e o Hb Hk He Hg).
  rewrite (getOutputFormat_requestType (set_requestType "Default" d)
             (set_requestType "Default" this)) by reflexivity.
  destruct (getOutputFormat env (set_requestType "Default" this) event e)
    as [out|]; [|discriminate].
  cbn [bind] in *. cbv zeta in *.
  assert (Hfix : assembled b k e o out (assembled b k e o out this)
                 = assembled b k e o out this).
  { unfold assembled. cbn.
    destruct (S3.Expires o), (S3.LastModified o);
      (destruct (ToBoolean (own e "toFormat"));
       [|destruct (ToBoolean out)]); reflexivity. }
  destruct (ToBoolean (outputFormat (assembled b k e o out this))
            && negb (converts (outputFormat (assembled b k e o out this))))
    eqn:Ec; [discriminate|].
  injection H as <-. now rewrite Hfix, Ec.
Qed.

End ClosedForm.

(** The TIFF request, twice. *)
Lemma setup_is_idempotent_witness :
  setup Examples.env Reference.getObject Examples.tiff_request
    new_ImageRequest
  = Ok Examples.tiff_descriptor
  /\ setup Examples.env Reference.getObject Examples.tiff_request
       Examples.tiff_descriptor
     = Ok Examples.tiff_descriptor.
Proof.
  assert (H : setup Examples.env Reference.getObject Examples.tiff_request
                new_ImageRequest = Ok Examples.tiff_descriptor)
    by (vm_compute; reflexivity).
  split; [exact H|].
  exact (@setup_is_idempotent Z Reference.runtime Examples.env
           Reference.getObject _ _ _ H).
Defined.

(** ** From a path to the bucket and the key, in the reference runtime *)

Section PathFacts.

Variable c : ascii.

Lemma before_free (s : string) :
  free_of c s = true -> JsString.before c s = s.
Proof.
  induction s as [|x s IH]; simpl; [reflexivity|].
  intros H. apply andb_prop in H as [Hx Hs].
  destruct (Ascii.eqb x c); [discriminate|]. now rewrite IH.
Qed.

Lemma before_append (s t : string) :
  free_of c s = true ->
  JsString.before c (s +:+ t) = s +:+ JsString.before c t.
Proof.
  induction s as [|x s IH]; [reflexivity|]. simpl free_of.
  intros H. apply andb_prop in H as [Hx Hs].
  rewrite !ReferenceFacts.append_cons. simpl.
  destruct (Ascii.eqb x c); [discriminate|]. now rewrite IH.
Qed.

Lemma after_prefix (b k : string) :
  free_of c b = true -> JsString.after c (b +:+ String c k) = k.
Proof.
  induction b as [|x b IH]; simpl.
  - intros _. now rewrite Ascii.eqb_refl.
  - intros H. apply andb_prop in H as [Hx Hb].
    destruct (Ascii.eqb x c); [discriminate|]. now apply IH.
Qed.

Lemma free_of_append (s t : string) :
  free_of c s = true -> free_of c t = true -> free_of c (s +:+ t) = true.
Proof.
  induction s as [|x s IH]; [now intros _|]. simpl.
  intros H Ht. apply andb_prop in H as [Hx Hs]. now rewrite Hx, IH.
Qed.

End PathFacts.

(** X25.  In the reference runtime a path built from a literal prefix, a
    whitelisted bucket name, a slash and a key, with or without a query
    or a fragment behind the key, resolves to that bucket and that key:
    the bucket name is not empty and holds no slash, [#] or [?], the key
    is not empty and holds no [#] or [?]. *)
Theorem path_round_trip (env : Env) (event : Event) (W : list string)
  (pre b k tail : string) :
  PATH_PREFIX env = Some pre -> Reference.plain pre = true ->
  getAllowedSourceBuckets (num := Z) env = Ok W -> In b W ->
  b <> "" -> free_of "/" b = true -> free_of "#" b = true ->
  free_of "?" b = true ->
  k <> "" -> free_of "#" k = true -> free_of "?" k = true ->
  (tail = "" \/ exists t, tail = String "?" t \/ tail = String "#" t) ->
  path event = pre +:+ b +:+ "/" +:+ k +:+ tail ->
  parseImageBucket env event "Default" = Ok b
  /\ parseImageKey env event "Default" = Ok k.
Proof.
  intros Hpre Hplain HW Hin Hb Hb1 Hb2 Hb3 Hk Hk2 Hk3 Htail Hpath.
  assert (Hp : removePathPrefix env (path event)
               = Ok (b +:+ String "/" (k +:+ tail))).
  { rewrite Hpath.
    apply (removePathPrefix_literal env pre _ "");
      [now rewrite Hpre|exact Hplain]. }
  split.
  - unfold parseImageBucket. simpl String.eqb. cbv iota. rewrite Hp.
    cbn [bind]. rewrite first_split, before_prefix by exact Hb1.
    apply String.eqb_neq in Hb. rewrite Hb. cbn [negb]. rewrite HW.
    cbn [bind]. apply includes_In in Hin. now rewrite Hin.
  - unfold parseImageKey. simpl String.eqb. cbv iota. rewrite Hp.
    cbn [bind]. rewrite !first_split, join_rest_split.
    assert (Hclean : JsString.before "?"
                       (JsString.before "#"
                          (b +:+ String "/" (k +:+ tail)))
                     = b +:+ String "/" k).
    { assert (F2 : free_of "#" (b +:+ String "/" k) = true)
        by (apply free_of_append; [exact Hb2|exact Hk2]).
      assert (F3 : free_of "?" (b +:+ String "/" k) = true)
        by (apply free_of_append; [exact Hb3|exact Hk3]).
      replace (b +:+ String "/" (k +:+ tail))
        with ((b +:+ String "/" k) +:+ tail)
        by (now rewrite ReferenceFacts.append_assoc).
      destruct Htail as [->|[t [->| ->]]].
      - rewrite ReferenceFacts.append_empty_r.
        rewrite (before_free "#") by exact F2.
        now apply before_free.
      - rewrite before_append by exact F2.
        replace (JsString.before "#" (String "?" t))
          with (String "?" (JsString.before "#" t)) by reflexivity.
        now apply before_prefix.
      - rewrite before_prefix by exact F2. now apply before_free. }
    rewrite Hclean, after_prefix by exact Hb1.
    apply String.eqb_neq in Hk. now rewrite Hk.
Qed.

(** A path with the prefix [/], the bucket [thumbnails], a key and a
    query. *)
Lemma path_round_trip_witness :
  PATH_PREFIX Examples.env = Some "/"
  /\ getAllowedSourceBuckets (num := Z) Examples.env
     = Ok ["images"; "thumbnails"; "vault"]
  /\ In "thumbnails" ["images"; "thumbnails"; "vault"]
  /\ parseImageBucket Examples.env
       (Examples.request "/thumbnails/dogs/rex.png?size=2#top" None None)
       "Default" = Ok "thumbnails"
  /\ parseImageKey Examples.env
       (Examples.request "/thumbnails/dogs/rex.png?size=2#top" None None)
       "Default" = Ok "dogs/rex.png".
Proof.
  assert (Hin : In "thumbnails" ["images"; "thumbnails"; "vault"])
    by (simpl; tauto).
  split; [reflexivity|]. split; [reflexivity|]. split; [exact Hin|].
  apply (path_round_trip Examples.env
           (Examples.request "/thumbnails/dogs/rex.png?size=2#top" None None)
           ["images"; "thumbnails"; "vault"] "/" "thumbnails"
           "dogs/rex.png" "?size=2#top");
    try reflexivity; try discriminate; [exact Hin|].
  right. exists "size=2#top". now left.
Defined.

(** The bucket of the resize request. *)
Lemma resolved_bucket_is_allowed_witness :
  setup Examples.env Reference.getObject Examples.resize_request
    new_ImageRequest
  = Ok Examples.resize_descriptor
  /\ exists W b,
       getAllowedSourceBuckets (num := Z) Examples.env = Ok W
       /\ bucket Examples.resize_descriptor = Some b
       /\ allowed_bucket W b.
Proof.
  assert (H : setup Examples.env Reference.getObject Examples.resize_request
                new_ImageRequest = Ok Examples.resize_descriptor)
    by (vm_compute; reflexivity).
  split; [exact H|].
  destruct (@resolved_bucket_is_allowed Z Reference.runtime Examples.env
              Reference.getObject Examples.resize_request) as [_ H2].
  exact (H2 _ _ H).
Defined.

(** ** The failures of [setup] *)

Section Failures.

Context {num : Type} `{!Runtime num}.

Variable env : Env.
Variable getObject :
  string -> string -> S3.GetObjectOutput date + S3.Error num.

Lemma removePathPrefix_throws (p : string) (e : exn num) :
  removePathPrefix env p = Throw e -> e = NativeError "SyntaxError".
Proof.
  unfold removePathPrefix.
  destruct (RegExp_new _) as [re|]; [|now intros [= <-]].
  destruct (RegExp_exec re p) as [[i n]|]; discriminate.
Qed.

Lemma parseImageBucket_throws (event : Event) (e : exn num) :
  parseImageBucket env event "Default" = Throw e ->
  e = NativeError "SyntaxError" \/ e = ConfigurationError
  \/ e = AccessDenied.
Proof.
  unfold parseImageBucket. simpl String.eqb. cbv iota.
  destruct (removePathPrefix env (path event)) as [p|e'] eqn:Ep;
    [|intros [= <-]; left; now apply (removePathPrefix_throws _ _ Ep)].
  cbn [bind].
  assert (HW : forall e',
    getAllowedSourceBuckets (num := num) env = Throw e' ->
    e' = ConfigurationError).
  { unfold getAllowedSourceBuckets.
    destruct (SOURCE_BUCKETS env); [discriminate|now intros e' [= <-]]. }
  destruct (getAllowedSourceBuckets (num := num) env) as [W|e'] eqn:EW.
  - destruct (negb _); cbn [bind]; [|discriminate].
    destruct (JsString.includes _ W); [discriminate|].
    unfold matches_first.
    destruct (RegExp_new _) as [re|]; cbn [bind];
      [|intros [= <-]; now left].
    case_bool_decide; [discriminate|]. intros [= <-]. right. now right.
  - destruct (negb _); cbn [bind]; intros [= <-]; right; left;
      now apply HW.
Qed.

Lemma parseImageKey_throws (event : Event) (e : exn num) :
  parseImageKey env event "Default" = Throw e ->
  e = NativeError "SyntaxError" \/ e = ImageNotFound.
Proof.
  unfold parseImageKey. simpl String.eqb. cbv iota.
  destruct (removePathPrefix env (path event)) as [p|e'] eqn:Ep;
    [|intros [= <-]; left; now apply (removePathPrefix_throws _ _ Ep)].
  cbn [bind]. destruct (String.eqb _ ""); [|discriminate].
  intros [= <-]. now right.
Qed.

Lemma parseImageEdits_throws (event : Event) (e : exn num) :
  parseImageEdits event "Default" = Throw e -> e = EditsParseError.
Proof.
  unfold parseImageEdits. simpl String.eqb. cbv iota.
  destruct (queryStringParameters event) as [q|]; [|discriminate].
  destruct (decodeRequest (q !! "edits")) as [v|e'] eqn:E.
  - cbn [bind]. destruct (is_nullish v); discriminate.
  - cbn [bind]. intros [= <-]. now apply decodeRequest_throws in E.
Qed.

Lemma Get_throws (v : value num) (k : string) (e : exn num) :
  Get v k = Throw e -> e = NativeError "TypeError".
Proof. destruct v; simpl; try discriminate; now intros [= <-]. Qed.

Lemma getOutputFormat_throws (this : ImageRequest num) (event : Event)
  (v : value num) (e : exn num) :
  getOutputFormat env this event v = Throw e -> e = NativeError "TypeError".
Proof.
  unfold getOutputFormat.
  assert (Hrest : forall webp : bool,
    (if webp then Ok (JStr "webp")
     else if bool_decide (requestType this = Some "Default")
     then Get v "outputFormat" else Ok JNull) = Throw e ->
    e = NativeError "TypeError").
  { intros [|]; [discriminate|]. case_bool_decide; [|discriminate].
    apply Get_throws. }
  destruct (truthy_string (AUTO_WEBP env)); cbn [bind];
    [|apply (Hrest false)].
  destruct (headers event) as [h|]; [|now intros [= <-]].
  destruct (h !! "Accept"); cbn [bind]; [apply Hrest|apply (Hrest false)].
Qed.

(** X26.  Whatever [setup] throws is one of: the [SyntaxError] of a
    refused pattern, a [TypeError], which is that of a read in a missing
    value or that of an output format that cannot be converted to a text,
    the configuration error, the access error, the image error, the parse
    error of the edits, or the failure of the store for the resolved
    bucket and key, with status 404 or 500.  It throws neither of the
    errors that are kept for the other request types. *)
Theorem setup_failures (event : Event) (this : ImageRequest num)
  (e : exn num) :
  setup env getObject event this = Throw e ->
  (e = NativeError "SyntaxError" \/ e = NativeError "TypeError"
   \/ e = ConfigurationError \/ e = AccessDenied \/ e = ImageNotFound
   \/ e = EditsParseError
   \/ exists b k err,
        parseImageBucket env event "Default" = Ok b
        /\ parseImageKey env event "Default" = Ok k
        /\ getObject b k = inr err
        /\ e = ErrorObject
                 (if strict_eq_string (S3.code err) "NoSuchKey"
                  then 404 else 500)
                 (S3.code err) (S3.message err))
  /\ e <> BucketNotFound /\ e <> EditsRefused.
Proof.
  intros H.
  assert (Hcat :
    e = NativeError "SyntaxError" \/ e = NativeError "TypeError"
    \/ e = ConfigurationError \/ e = AccessDenied \/ e = ImageNotFound
    \/ e = EditsParseError
    \/ exists b k err,
         parseImageBucket env event "Default" = Ok b
         /\ parseImageKey env event "Default" = Ok k
         /\ getObject b k = inr err
         /\ e = ErrorObject
                  (if strict_eq_string (S3.code err) "NoSuchKey"
                   then 404 else 500)
                  (S3.code err) (S3.message err)).
  { revert H. unfold setup, parseRequestType.
    destruct (parseImageBucket env event "Default") as [b|e1] eqn:Eb.
    2: { intros [= <-]. apply parseImageBucket_throws in Eb. tauto. }
    cbn [bind].
    destruct (parseImageKey env event "Default") as [k|e1] eqn:Ek.
    2: { intros [= <-]. apply parseImageKey_throws in Ek. tauto. }
    cbn [bind].
    destruct (parseImageEdits event "Default") as [ed|e1] eqn:Ee.
    2: { intros [= <-]. apply parseImageEdits_throws in Ee. tauto. }
    cbn [bind].
    destruct (getOriginalImage getObject _ b k) as [[body this1]|e1] eqn:Eg.
    2: { intros [= <-]. unfold getOriginalImage in Eg.
         destruct (getObject b k) as [o|err] eqn:Ho; [discriminate|].
         injection Eg as <-. do 6 right. now exists b, k, err. }
    cbn [bind fst snd].
    destruct (getOutputFormat env _ event _) as [out|e1] eqn:Eo.
    2: { intros [= <-]. apply getOutputFormat_throws in Eo. tauto. }
    cbn [bind].
    destruct (if ToBoolean _ then Get _ "toFormat" else Ok _)
      as [tf|e1] eqn:Etf.
    2: { intros [= <-]. destruct (ToBoolean _); [|discriminate].
         apply Get_throws in Etf. tauto. }
    cbn [bind].
    pose proof (getOriginalImage_keeps getObject _ _ _ _ _ Eg)
      as (Ht & _ & _). simpl in Ht.
    set (this2 := if ToBoolean tf
                  then set_outputFormat tf (set_originalImage body this1)
                  else if ToBoolean out
                  then set_outputFormat out (set_originalImage body this1)
                  else set_originalImage body this1).
    assert (Ht2 : requestType this2 = Some "Default").
    { subst this2. destruct (ToBoolean tf); [|destruct (ToBoolean out)];
        exact Ht. }
    clearbody this2.
    destruct (ToBoolean (outputFormat this2)); [|discriminate].
    unfold template_text.
    destruct (converts (outputFormat this2)); cbn [bind];
      [|intros [= <-]; tauto].
    cbn [requestType edits outputFormat set_ContentType].
    rewrite Ht2, fixQuality_other_type by reflexivity. discriminate. }
  split; [exact Hcat|].
  split; intros ->;
    destruct Hcat as [?|[?|[?|[?|[?|[?|(b & k & err & _ & _ & _ & E)]]]]]];
    try discriminate;
    injection E as E1 E2 E3;
    destruct (strict_eq_string (S3.code err) "NoSuchKey") eqn:Es;
    try discriminate.
  apply strict_eq_string_true in Es. congruence.
Qed.

End Failures.

(** A format that is an object with an own [toString] is truthy, and
    building the content type from it throws. *)
Example unconvertible_format_is_refused :
  parseImageEdits
    (Examples.request "/images/cats/tom.png" (Some Cases.method_encoded)
       None) "Default"
  = Ok (JObj Cases.method_edits)
  /\ setup Examples.env_no_webp Reference.getObject
       (Examples.request "/images/cats/tom.png" (Some Cases.method_encoded)
          None) new_ImageRequest
     = Throw (NativeError "TypeError").
Proof. split; vm_compute; reflexivity. Qed.

(** The store refuses the bucket [vault]. *)
Lemma setup_failures_witness :
  setup Examples.env Reference.getObject
    (Examples.request "/vault/gold.png" None None) new_ImageRequest
  = Throw (ErrorObject 500 (JStr "AccessDenied") (JStr "Access Denied"))
  /\ Reference.getObject "vault" "gold.png"
     = inr {| S3.code := JStr "AccessDenied";
              S3.message := JStr "Access Denied" |}.
Proof.
  assert (H : setup Examples.env Reference.getObject
                (Examples.request "/vault/gold.png" None None)
                new_ImageRequest
              = Throw (ErrorObject 500 (JStr "AccessDenied")
                         (JStr "Access Denied")))
    by (vm_compute; reflexivity).
  split; [exact H|].
  destruct (@setup_failures Z Reference.runtime Examples.env
              Reference.getObject _ _ _ H) as [Hcat _].
  destruct Hcat as [?|[?|[?|[?|[?|[?|(b & k & err & Hb & Hk & Hg & E)]]]]]];
    try discriminate.
  injection Hb as <-. injection Hk as <-. rewrite Hg. f_equal.
  destruct err as [c m]. simpl in E.
  injection E as _ <- <-. reflexivity.
Defined.
